(** * The package applier (pkger service): dry-run, tiered apply and rollback

    A shallow embedding of [Service.DryRun], [Service.Apply], the per-kind
    appliers and the [rollbackCoordinator].  The downstream platform services
    are interface values, so they appear here as one oracle over an abstract
    world; every call the service makes is appended, with its response, to an
    event trace next to the state. *)

From Stdlib Require Import ZArith NArith String Ascii List Lia.
From stdpp Require Import base option list gmap strings sorting.

Open Scope string_scope.
Open Scope list_scope.
Open Scope stdpp_scope.

(** ** Platform types (package [influxdb]) *)

(** [influxdb.ID] is a uint64; the zero id is the unset id. *)
Abbreviation ID := N (only parsing).
(** [time.Duration] is an int64 count of nanoseconds. *)
Abbreviation Duration := Z (only parsing).

Inductive ErrCode := EInternal | EInvalid | EUnprocessableEntity | EConflict | ENotFound.

(** Go's [error] interface, by dynamic type: the values of [errors.New] and
    [fmt.Errorf], the platform's [*influxdb.Error], and errors of any other
    type (a parser error, a context error, ...) tagged with that type. *)
#[warnings="-register-all"]
Inductive error :=
| errorString (s : string)
| influxdb_Error (Code : ErrCode) (Msg : string) (Err : option error)
| foreignError (kind : string) (s : string).

(** A Go [(T, error)] pair whose value is used only when the error is nil. *)
Inductive result (A : Type) :=
| Ok (a : A)
| Err (e : error).
Arguments Ok {A} a.
Arguments Err {A} e.

Definition is_Err {A} (r : result A) : bool :=
  match r with Err _ => true | Ok _ => false end.

Record influxdb_Bucket := mkBucket {
  Bucket_ID : ID;
  Bucket_OrgID : ID;
  Bucket_Name : string;
  Bucket_Description : string;
  Bucket_RetentionPeriod : Duration }.

(** Both fields are pointers in Go; [None] is the nil pointer. *)
Record BucketUpdate := mkBucketUpdate {
  BucketUpdate_Description : option string;
  BucketUpdate_RetentionPeriod : option Duration }.

(** [influxdb.Check] is an interface; its id, name and the rest of the check
    definition. *)
Record influxdb_Check := mkCheck {
  Check_GetID : ID;
  Check_Name : string;
  Check_def : string }.

Record CheckCreate := mkCheckCreate {
  CheckCreate_Check : influxdb_Check;
  CheckCreate_Status : string }.

(** [int32] fields of a cell, written with [wrap32]. *)
Record influxdb_Cell := mkCell {
  Cell_X : Z; Cell_Y : Z; Cell_H : Z; Cell_W : Z;
  Cell_ViewName : string;
  Cell_ViewProperties : string }.

Record influxdb_Dashboard := mkDashboard {
  Dashboard_ID : ID;
  Dashboard_OrganizationID : ID;
  Dashboard_Name : string;
  Dashboard_Description : string;
  Dashboard_Cells : list influxdb_Cell }.

Record influxdb_Label := mkLabel {
  Label_ID : ID;
  Label_OrgID : ID;
  Label_Name : string;
  Label_Properties : gmap string string }.

Record LabelUpdate := mkLabelUpdate {
  LabelUpdate_Properties : gmap string string }.

Record influxdb_LabelMapping := mkLabelMapping {
  LabelMapping_LabelID : ID;
  LabelMapping_ResourceID : ID;
  LabelMapping_ResourceType : string }.

Record influxdb_NotificationEndpoint := mkEndpoint {
  Endpoint_GetID : ID;
  Endpoint_GetName : string;
  Endpoint_Type : string;
  (** the [Key] of each [SecretField] *)
  Endpoint_SecretFields : list string }.

Record influxdb_NotificationRule := mkRule {
  Rule_GetID : ID;
  Rule_Name : string;
  Rule_EndpointID : ID;
  Rule_def : string }.

Record NotificationRuleCreate := mkRuleCreate {
  RuleCreate_NotificationRule : influxdb_NotificationRule;
  RuleCreate_Status : string }.

Record TaskCreate := mkTaskCreate {
  TaskCreate_Type : string;
  TaskCreate_Flux : string;
  TaskCreate_OwnerID : ID;
  TaskCreate_Description : string;
  TaskCreate_Status : string;
  TaskCreate_OrganizationID : ID }.

Record influxdb_Task := mkTask { Task_ID : ID }.

Record TelegrafConfig := mkTelegrafConfig {
  Telegraf_ID : ID;
  Telegraf_OrgID : ID;
  Telegraf_Name : string;
  Telegraf_Config : string }.

Record VariableArguments := mkVariableArguments {
  VariableArguments_Type : string;
  VariableArguments_Values : list string }.

Record influxdb_Variable := mkVariable {
  Variable_ID : ID;
  Variable_OrganizationID : ID;
  Variable_Name : string;
  Variable_Description : string;
  Variable_Arguments : option VariableArguments }.

Record VariableUpdate := mkVariableUpdate {
  VariableUpdate_Description : string;
  VariableUpdate_Arguments : option VariableArguments }.

(** ** Downstream calls

    One constructor per service method the applier invokes, with the
    arguments it passes (the context argument is left out: the services see
    it only through the oracle). *)
Inductive Call :=
| FindBucketByName (orgID : ID) (name : string)
| CreateBucket (b : influxdb_Bucket)
| UpdateBucket (id : ID) (upd : BucketUpdate)
| DeleteBucket (id : ID)
| FindCheck (name : string) (orgID : ID)
| CreateCheck (c : CheckCreate) (userID : ID)
| UpdateCheck (id : ID) (c : CheckCreate)
| DeleteCheck (id : ID)
| CreateDashboard (d : influxdb_Dashboard)
| DeleteDashboard (id : ID)
| FindLabels (name : string) (orgID : option ID) (limit : nat)
| CreateLabel (l : influxdb_Label)
| UpdateLabel (id : ID) (upd : LabelUpdate)
| DeleteLabel (id : ID)
| FindResourceLabels (resourceID : ID) (resourceType : string)
| CreateLabelMapping (m : influxdb_LabelMapping)
| DeleteLabelMapping (m : influxdb_LabelMapping)
| FindNotificationEndpoints (orgID : ID)
| CreateNotificationEndpoint (e : influxdb_NotificationEndpoint) (userID : ID)
| UpdateNotificationEndpoint (id : ID) (e : influxdb_NotificationEndpoint) (userID : ID)
| DeleteNotificationEndpoint (id : ID)
| CreateNotificationRule (r : NotificationRuleCreate) (userID : ID)
| DeleteNotificationRule (id : ID)
| GetSecretKeys (orgID : ID)
| PutSecrets (orgID : ID) (m : gmap string string)
| DeleteSecret (orgID : ID) (ks : list string)
| CreateTask (tc : TaskCreate)
| DeleteTask (id : ID)
| CreateTelegrafConfig (cfg : TelegrafConfig) (userID : ID)
| DeleteTelegrafConfig (id : ID)
| FindVariables (orgID : ID) (limit : nat)
| CreateVariable (v : influxdb_Variable)
| UpdateVariable (id : ID) (upd : VariableUpdate)
| DeleteVariable (id : ID).

(** What each call hands back.  A create call fills in the struct it is
    given, so its response is that struct after the call. *)
Definition Resp (c : Call) : Type :=
  match c with
  | FindBucketByName _ _ | CreateBucket _ | UpdateBucket _ _ => result influxdb_Bucket
  | FindCheck _ _ | CreateCheck _ _ | UpdateCheck _ _ => result influxdb_Check
  | CreateDashboard _ => result influxdb_Dashboard
  | FindLabels _ _ _ | FindResourceLabels _ _ => result (list influxdb_Label)
  | CreateLabel _ | UpdateLabel _ _ => result influxdb_Label
  | FindNotificationEndpoints _ => result (list influxdb_NotificationEndpoint)
  | CreateNotificationEndpoint _ _ | UpdateNotificationEndpoint _ _ _ =>
      result influxdb_NotificationEndpoint
  | CreateNotificationRule _ _ => result influxdb_NotificationRule
  | GetSecretKeys _ => result (list string)
  | CreateTask _ => result influxdb_Task
  | CreateTelegrafConfig _ _ => result TelegrafConfig
  | FindVariables _ _ => result (list influxdb_Variable)
  | CreateVariable _ | UpdateVariable _ _ => result influxdb_Variable
  | DeleteBucket _ | DeleteCheck _ | DeleteDashboard _ | DeleteLabel _
  | CreateLabelMapping _ | DeleteLabelMapping _ | DeleteNotificationEndpoint _
  | DeleteNotificationRule _ | PutSecrets _ _ | DeleteSecret _ _ | DeleteTask _
  | DeleteTelegrafConfig _ | DeleteVariable _ => option error
  end.

(** Create and update calls: the ones that write a resource downstream. *)
Definition is_write (c : Call) : bool :=
  match c with
  | CreateBucket _ | UpdateBucket _ _ | CreateCheck _ _ | UpdateCheck _ _
  | CreateDashboard _ | CreateLabel _ | UpdateLabel _ _ | CreateLabelMapping _
  | CreateNotificationEndpoint _ _ | UpdateNotificationEndpoint _ _ _
  | CreateNotificationRule _ _ | PutSecrets _ _ | CreateTask _
  | CreateTelegrafConfig _ _ | CreateVariable _ | UpdateVariable _ _ => true
  | _ => false
  end.

(** ** Package-side resources (the parsed package's objects)

    Each in-package resource carries the [id] slot written by apply and the
    [existing] slot written by dry-run; [None] is the nil pointer. *)

Record bucket := mkPkgBucket {
  bkt_id : ID;
  bkt_OrgID : ID;
  bkt_Description : string;
  bkt_name : string;
  bkt_pkgName : string;
  (** the retention rules, as (type, seconds) pairs *)
  bkt_RetentionRules : list (string * Z);
  bkt_existing : option influxdb_Bucket;
  bkt_labels : list string }.

Record check := mkPkgCheck {
  chk_id : ID;
  chk_orgID : ID;
  chk_status : string;
  chk_name : string;
  chk_def : string;
  chk_existing : option influxdb_Check;
  chk_labels : list string }.

Record chart := mkChart {
  chart_Name : string;
  chart_XPos : Z; chart_YPos : Z; chart_Height : Z; chart_Width : Z;
  chart_def : string }.

Record dashboard := mkPkgDashboard {
  dash_id : ID;
  dash_OrgID : ID;
  dash_Description : string;
  dash_name : string;
  dash_Charts : list chart;
  dash_labels : list string }.

Record label := mkPkgLabel {
  lbl_id : ID;
  lbl_OrgID : ID;
  lbl_name : string;
  lbl_pkgName : string;
  lbl_Color : string;
  lbl_Description : string;
  lbl_existing : option influxdb_Label;
  (** the associations recorded by [setMapping]: resource type, resource
      name, and whether the mapping already exists on the platform *)
  lbl_mappings : list (string * string * bool) }.

Record notificationEndpoint := mkPkgEndpoint {
  ep_id : ID;
  ep_OrgID : ID;
  ep_name : string;
  ep_pkgName : string;
  ep_kind : string;
  ep_existing : option influxdb_NotificationEndpoint;
  (** the [Secret] key of the four credential references *)
  ep_routingKey : string;
  ep_token : string;
  ep_username : string;
  ep_password : string;
  ep_labels : list string }.

Record notificationRule := mkPkgRule {
  rule_id : ID;
  rule_orgID : ID;
  rule_name : string;
  rule_endpointName : string;
  rule_endpointID : ID;
  rule_endpointType : string;
  rule_def : string;
  rule_labels : list string }.

Record task := mkPkgTask {
  task_id : ID;
  task_orgID : ID;
  task_name : string;
  task_description : string;
  task_query : string;
  task_labels : list string }.

Record telegraf := mkPkgTelegraf {
  tele_config : TelegrafConfig;
  tele_labels : list string }.

Record variable := mkPkgVariable {
  var_id : ID;
  var_OrgID : ID;
  var_name : string;
  var_Description : string;
  var_args : string;
  var_existing : option influxdb_Variable;
  var_labels : list string }.

(** [SummaryLabelMapping]: the fields [applyLabelMappings] reads. *)
Record SummaryLabelMapping := mkSummaryLabelMapping {
  slm_exists : bool;
  slm_ResourceID : ID;
  slm_ResourceType : string;
  slm_LabelID : ID }.

(** The [Pkg] object.  Each resource list is what the accessor of that kind
    ([pkg.buckets()], [pkg.labels()], ...) returns, so a position in the list
    stands for the pointer the accessor hands out. *)
Record Pkg := mkPkg {
  isParsed : bool;
  isVerified : bool;
  mBuckets : list bucket;
  mChecks : list check;
  mDashboards : list dashboard;
  mLabels : list label;
  mNotificationEndpoints : list notificationEndpoint;
  mNotificationRules : list notificationRule;
  mTasks : list task;
  mTelegrafs : list telegraf;
  mVariables : list variable;
  mSecrets : gmap string bool }.

Definition set_isVerified (v : bool) (p : Pkg) : Pkg :=
  mkPkg (isParsed p) v (mBuckets p) (mChecks p) (mDashboards p) (mLabels p)
    (mNotificationEndpoints p) (mNotificationRules p) (mTasks p) (mTelegrafs p)
    (mVariables p) (mSecrets p).
Definition set_mBuckets (l : list bucket) (p : Pkg) : Pkg :=
  mkPkg (isParsed p) (isVerified p) l (mChecks p) (mDashboards p) (mLabels p)
    (mNotificationEndpoints p) (mNotificationRules p) (mTasks p) (mTelegrafs p)
    (mVariables p) (mSecrets p).
Definition set_mChecks (l : list check) (p : Pkg) : Pkg :=
  mkPkg (isParsed p) (isVerified p) (mBuckets p) l (mDashboards p) (mLabels p)
    (mNotificationEndpoints p) (mNotificationRules p) (mTasks p) (mTelegrafs p)
    (mVariables p) (mSecrets p).
Definition set_mDashboards (l : list dashboard) (p : Pkg) : Pkg :=
  mkPkg (isParsed p) (isVerified p) (mBuckets p) (mChecks p) l (mLabels p)
    (mNotificationEndpoints p) (mNotificationRules p) (mTasks p) (mTelegrafs p)
    (mVariables p) (mSecrets p).
Definition set_mLabels (l : list label) (p : Pkg) : Pkg :=
  mkPkg (isParsed p) (isVerified p) (mBuckets p) (mChecks p) (mDashboards p) l
    (mNotificationEndpoints p) (mNotificationRules p) (mTasks p) (mTelegrafs p)
    (mVariables p) (mSecrets p).
Definition set_mNotificationEndpoints (l : list notificationEndpoint) (p : Pkg) : Pkg :=
  mkPkg (isParsed p) (isVerified p) (mBuckets p) (mChecks p) (mDashboards p) (mLabels p)
    l (mNotificationRules p) (mTasks p) (mTelegrafs p) (mVariables p) (mSecrets p).
Definition set_mNotificationRules (l : list notificationRule) (p : Pkg) : Pkg :=
  mkPkg (isParsed p) (isVerified p) (mBuckets p) (mChecks p) (mDashboards p) (mLabels p)
    (mNotificationEndpoints p) l (mTasks p) (mTelegrafs p) (mVariables p) (mSecrets p).
Definition set_mTasks (l : list task) (p : Pkg) : Pkg :=
  mkPkg (isParsed p) (isVerified p) (mBuckets p) (mChecks p) (mDashboards p) (mLabels p)
    (mNotificationEndpoints p) (mNotificationRules p) l (mTelegrafs p) (mVariables p)
    (mSecrets p).
Definition set_mTelegrafs (l : list telegraf) (p : Pkg) : Pkg :=
  mkPkg (isParsed p) (isVerified p) (mBuckets p) (mChecks p) (mDashboards p) (mLabels p)
    (mNotificationEndpoints p) (mNotificationRules p) (mTasks p) l (mVariables p)
    (mSecrets p).
Definition set_mVariables (l : list variable) (p : Pkg) : Pkg :=
  mkPkg (isParsed p) (isVerified p) (mBuckets p) (mChecks p) (mDashboards p) (mLabels p)
    (mNotificationEndpoints p) (mNotificationRules p) (mTasks p) (mTelegrafs p) l
    (mSecrets p).
Definition set_mSecrets (m : gmap string bool) (p : Pkg) : Pkg :=
  mkPkg (isParsed p) (isVerified p) (mBuckets p) (mChecks p) (mDashboards p) (mLabels p)
    (mNotificationEndpoints p) (mNotificationRules p) (mTasks p) (mTelegrafs p)
    (mVariables p) m.

(** Field writes on the resources. *)
Definition bucket_set_OrgID (o : ID) (b : bucket) : bucket :=
  mkPkgBucket (bkt_id b) o (bkt_Description b) (bkt_name b) (bkt_pkgName b)
    (bkt_RetentionRules b) (bkt_existing b) (bkt_labels b).
Definition bucket_set_id (i : ID) (b : bucket) : bucket :=
  mkPkgBucket i (bkt_OrgID b) (bkt_Description b) (bkt_name b) (bkt_pkgName b)
    (bkt_RetentionRules b) (bkt_existing b) (bkt_labels b).
Definition bucket_set_existing (e : option influxdb_Bucket) (b : bucket) : bucket :=
  mkPkgBucket (bkt_id b) (bkt_OrgID b) (bkt_Description b) (bkt_name b) (bkt_pkgName b)
    (bkt_RetentionRules b) e (bkt_labels b).

Definition check_set_orgID (o : ID) (c : check) : check :=
  mkPkgCheck (chk_id c) o (chk_status c) (chk_name c) (chk_def c) (chk_existing c)
    (chk_labels c).
Definition check_set_id (i : ID) (c : check) : check :=
  mkPkgCheck i (chk_orgID c) (chk_status c) (chk_name c) (chk_def c) (chk_existing c)
    (chk_labels c).
Definition check_set_existing (e : option influxdb_Check) (c : check) : check :=
  mkPkgCheck (chk_id c) (chk_orgID c) (chk_status c) (chk_name c) (chk_def c) e
    (chk_labels c).

Definition dashboard_set_OrgID (o : ID) (d : dashboard) : dashboard :=
  mkPkgDashboard (dash_id d) o (dash_Description d) (dash_name d) (dash_Charts d)
    (dash_labels d).
Definition dashboard_set_id (i : ID) (d : dashboard) : dashboard :=
  mkPkgDashboard i (dash_OrgID d) (dash_Description d) (dash_name d) (dash_Charts d)
    (dash_labels d).

Definition label_set_OrgID (o : ID) (l : label) : label :=
  mkPkgLabel (lbl_id l) o (lbl_name l) (lbl_pkgName l) (lbl_Color l) (lbl_Description l)
    (lbl_existing l) (lbl_mappings l).
Definition label_set_id (i : ID) (l : label) : label :=
  mkPkgLabel i (lbl_OrgID l) (lbl_name l) (lbl_pkgName l) (lbl_Color l)
    (lbl_Description l) (lbl_existing l) (lbl_mappings l).
Definition label_set_existing (e : option influxdb_Label) (l : label) : label :=
  mkPkgLabel (lbl_id l) (lbl_OrgID l) (lbl_name l) (lbl_pkgName l) (lbl_Color l)
    (lbl_Description l) e (lbl_mappings l).

Definition endpoint_set_OrgID (o : ID) (e : notificationEndpoint) : notificationEndpoint :=
  mkPkgEndpoint (ep_id e) o (ep_name e) (ep_pkgName e) (ep_kind e) (ep_existing e)
    (ep_routingKey e) (ep_token e) (ep_username e) (ep_password e) (ep_labels e).
Definition endpoint_set_id (i : ID) (e : notificationEndpoint) : notificationEndpoint :=
  mkPkgEndpoint i (ep_OrgID e) (ep_name e) (ep_pkgName e) (ep_kind e) (ep_existing e)
    (ep_routingKey e) (ep_token e) (ep_username e) (ep_password e) (ep_labels e).
Definition endpoint_set_existing (x : option influxdb_NotificationEndpoint)
    (e : notificationEndpoint) : notificationEndpoint :=
  mkPkgEndpoint (ep_id e) (ep_OrgID e) (ep_name e) (ep_pkgName e) (ep_kind e) x
    (ep_routingKey e) (ep_token e) (ep_username e) (ep_password e) (ep_labels e).
Definition endpoint_set_routingKey (k : string) (e : notificationEndpoint) : notificationEndpoint :=
  mkPkgEndpoint (ep_id e) (ep_OrgID e) (ep_name e) (ep_pkgName e) (ep_kind e) (ep_existing e)
    k (ep_token e) (ep_username e) (ep_password e) (ep_labels e).
Definition endpoint_set_token (k : string) (e : notificationEndpoint) : notificationEndpoint :=
  mkPkgEndpoint (ep_id e) (ep_OrgID e) (ep_name e) (ep_pkgName e) (ep_kind e) (ep_existing e)
    (ep_routingKey e) k (ep_username e) (ep_password e) (ep_labels e).
Definition endpoint_set_username (k : string) (e : notificationEndpoint) : notificationEndpoint :=
  mkPkgEndpoint (ep_id e) (ep_OrgID e) (ep_name e) (ep_pkgName e) (ep_kind e) (ep_existing e)
    (ep_routingKey e) (ep_token e) k (ep_password e) (ep_labels e).
Definition endpoint_set_password (k : string) (e : notificationEndpoint) : notificationEndpoint :=
  mkPkgEndpoint (ep_id e) (ep_OrgID e) (ep_name e) (ep_pkgName e) (ep_kind e) (ep_existing e)
    (ep_routingKey e) (ep_token e) (ep_username e) k (ep_labels e).

Definition rule_set_orgID (o : ID) (r : notificationRule) : notificationRule :=
  mkPkgRule (rule_id r) o (rule_name r) (rule_endpointName r) (rule_endpointID r)
    (rule_endpointType r) (rule_def r) (rule_labels r).
Definition rule_set_id (i : ID) (r : notificationRule) : notificationRule :=
  mkPkgRule i (rule_orgID r) (rule_name r) (rule_endpointName r) (rule_endpointID r)
    (rule_endpointType r) (rule_def r) (rule_labels r).
Definition rule_set_endpoint (i : ID) (t : string) (r : notificationRule) : notificationRule :=
  mkPkgRule (rule_id r) (rule_orgID r) (rule_name r) (rule_endpointName r) i t
    (rule_def r) (rule_labels r).

Definition task_set_orgID (o : ID) (t : task) : task :=
  mkPkgTask (task_id t) o (task_name t) (task_description t) (task_query t) (task_labels t).
Definition task_set_id (i : ID) (t : task) : task :=
  mkPkgTask i (task_orgID t) (task_name t) (task_description t) (task_query t)
    (task_labels t).

Definition telegraf_set_config (c : TelegrafConfig) (t : telegraf) : telegraf :=
  mkPkgTelegraf c (tele_labels t).
Definition TelegrafConfig_set_OrgID (o : ID) (c : TelegrafConfig) : TelegrafConfig :=
  mkTelegrafConfig (Telegraf_ID c) o (Telegraf_Name c) (Telegraf_Config c).

Definition variable_set_OrgID (o : ID) (v : variable) : variable :=
  mkPkgVariable (var_id v) o (var_name v) (var_Description v) (var_args v)
    (var_existing v) (var_labels v).
Definition variable_set_id (i : ID) (v : variable) : variable :=
  mkPkgVariable i (var_OrgID v) (var_name v) (var_Description v) (var_args v)
    (var_existing v) (var_labels v).
Definition variable_set_existing (e : option influxdb_Variable) (v : variable) : variable :=
  mkPkgVariable (var_id v) (var_OrgID v) (var_name v) (var_Description v) (var_args v) e
    (var_labels v).

(** ** Options, diffs and the declarations made outside these files *)

Record ApplyOpt := mkApplyOpt {
  EnvRefs : gmap string string;
  MissingSecrets : gmap string string }.

(** [ApplyOptFn]: writes through the [*ApplyOpt] it is given and may fail. *)
Definition ApplyOptFn : Type := ApplyOpt → ApplyOpt * option error.

Definition ApplyWithEnvRefs (envRefs : gmap string string) : ApplyOptFn :=
  fun o => (mkApplyOpt envRefs (MissingSecrets o), None).

Definition ApplyWithSecrets (secrets : gmap string string) : ApplyOptFn :=
  fun o => (mkApplyOpt (EnvRefs o) secrets, None).

(** Modelled from the spec: the per-kind diff entry and its constructors
    ([newDiffBucket], [newDiffCheck], ...) are declared outside the files at
    hand.  "Diff. Per kind: {pkgName, live?, new}; with isNew = live is
    absent."  [Diff_Name] is the field the sort in the dry-run reads. *)
Record DiffEntry (L N : Type) := mkDiffEntry {
  Diff_Name : string;
  Diff_Old : option L;
  Diff_New : N }.
Arguments mkDiffEntry {L N} _ _ _.
Arguments Diff_Name {L N} _.
Arguments Diff_Old {L N} _.
Arguments Diff_New {L N} _.

Definition IsNew {L N} (d : DiffEntry L N) : bool :=
  match Diff_Old d with None => true | Some _ => false end.

Abbreviation DiffBucket := (DiffEntry influxdb_Bucket bucket).
Abbreviation DiffCheck := (DiffEntry influxdb_Check check).
Abbreviation DiffDashboard := (DiffEntry influxdb_Dashboard dashboard).
Abbreviation DiffLabel := (DiffEntry influxdb_Label label).
Abbreviation DiffNotificationEndpoint :=
  (DiffEntry influxdb_NotificationEndpoint notificationEndpoint).
Abbreviation DiffTask := (DiffEntry influxdb_Task task).
Abbreviation DiffTelegraf := (DiffEntry TelegrafConfig telegraf).
Abbreviation DiffVariable := (DiffEntry influxdb_Variable variable).

Definition newDiffBucket (b : bucket) (i : option influxdb_Bucket) : DiffBucket :=
  mkDiffEntry (bkt_name b) i b.
Definition newDiffCheck (c : check) (i : option influxdb_Check) : DiffCheck :=
  mkDiffEntry (chk_name c) i c.
Definition newDiffDashboard (d : dashboard) : DiffDashboard :=
  mkDiffEntry (dash_name d) None d.
Definition newDiffLabel (l : label) (i : option influxdb_Label) : DiffLabel :=
  mkDiffEntry (lbl_name l) i l.
Definition newDiffNotificationEndpoint (e : notificationEndpoint)
    (i : option influxdb_NotificationEndpoint) : DiffNotificationEndpoint :=
  mkDiffEntry (ep_name e) i e.
Definition newDiffTask (t : task) : DiffTask :=
  mkDiffEntry (task_name t) None t.
Definition newDiffTelegraf (t : telegraf) : DiffTelegraf :=
  mkDiffEntry (Telegraf_Name (tele_config t)) None t.
Definition newDiffVariable (v : variable) (i : option influxdb_Variable) : DiffVariable :=
  mkDiffEntry (var_name v) i v.

(** The rule diff carries the endpoint the rule resolved to. *)
Record DiffNotificationRule := mkDiffNotificationRule {
  DiffRule_Name : string;
  DiffRule_Endpoint : influxdb_NotificationEndpoint;
  DiffRule_New : notificationRule }.

Definition newDiffNotificationRule (r : notificationRule)
    (e : influxdb_NotificationEndpoint) : DiffNotificationRule :=
  mkDiffNotificationRule (rule_name r) e r.

Record DiffLabelMapping := mkDiffLabelMapping {
  DLM_IsNew : bool;
  DLM_ResType : string;
  DLM_ResID : ID;
  DLM_ResName : string;
  DLM_LabelID : ID;
  DLM_LabelName : string }.

Record Diff := mkDiff {
  Buckets : list DiffBucket;
  Checks : list DiffCheck;
  Dashboards : list DiffDashboard;
  Labels : list DiffLabel;
  LabelMappings : list DiffLabelMapping;
  NotificationEndpoints : list DiffNotificationEndpoint;
  NotificationRules : list DiffNotificationRule;
  Tasks : list DiffTask;
  Telegrafs : list DiffTelegraf;
  Variables : list DiffVariable }.

(** [Diff{}] *)
Definition Diff_zero : Diff := mkDiff [] [] [] [] [] [] [] [] [] [].

(** The [labelAssociater] interface, as the values of its five methods.
    [la_Labels] are the package labels the resource is associated with. *)
Record labelAssociater := mkLabelAssociater {
  la_ID : ID;
  la_Name : string;
  la_Labels : list label;
  la_ResourceType : string;
  la_Exists : bool }.

(** The methods and helpers the service calls that are declared in other
    files of the package (the parser and its models) or in the platform
    package.  The service is verified for every choice of them. *)
Class Decls := {
  (** [Summary], [Summary{}] and [pkg.Summary()] *)
  Summary : Type;
  Summary_zero : Summary;
  pkg_Summary : Pkg → Summary;
  (** [pkg.Validate()], [IsParseErr], [pkg.applyEnvRefs], [pkg.applySecrets],
      [pkg.labelMappings()] *)
  Validate : Pkg → Pkg * option error;
  IsParseErr : error → bool;
  applyEnvRefs : gmap string string → Pkg → Pkg * option error;
  pkg_applySecrets : gmap string string → Pkg → Pkg;
  labelMappings : Pkg → list SummaryLabelMapping;
  (** the eight [labelMappers] of the package, in the order the dry-run
      lists them, each as the associaters [Association(0..Len()-1)] *)
  mappers : Pkg → list (list labelAssociater);
  label_setMapping : labelAssociater → bool → label → label;
  (** the [Error()] method of [influxdb.Error], from its code, message and
      inner error message *)
  influxdb_Error_Error : ErrCode → string → option string → string;
  (** per-kind methods *)
  bucket_ID : bucket → ID;
  bucket_shouldApply : bucket → bool;
  RP : list (string * Z) → Duration;
  check_ID : check → ID;
  check_summarize : check → influxdb_Check;
  check_Status : check → string;
  dashboard_ID : dashboard → ID;
  chart_properties : chart → string;
  label_ID : label → ID;
  label_shouldApply : label → bool;
  label_properties : label → gmap string string;
  toInfluxLabel : label → influxdb_Label;
  endpoint_ID : notificationEndpoint → ID;
  endpoint_summarize : notificationEndpoint → influxdb_NotificationEndpoint;
  rule_ID : notificationRule → ID;
  toInfluxRule : notificationRule → influxdb_NotificationRule;
  rule_Status : notificationRule → string;
  task_ID : task → ID;
  task_flux : task → string;
  task_Status : task → string;
  telegraf_ID : telegraf → ID;
  telegraf_summarize : telegraf → TelegrafConfig;
  variable_ID : variable → ID;
  variable_shouldApply : variable → bool;
  influxVarArgs : variable → option VariableArguments;
  TaskSystemType : string;
  (** [influxdb.ID.String()] *)
  ID_String : ID → string }.

(** ** Events

    What a run leaves behind, in order: the downstream calls with their
    responses, the start of each unit of work of a tier, the return of
    [wg.Wait()] with the appliers of the tier, the number of units that
    reported an error and whether the error stream closed with an error,
    each rollback closure invoked, each line logged at error level, and each
    entry into [DryRun] with its arguments. *)
Inductive Event :=
| EvCall (c : Call) (r : Resp c)
| EvUnit (resource : string) (i : nat)
| EvTierEnd (apps : list (string * nat)) (nerrs : nat) (failed : bool)
| EvRollback (resource : string)
| EvLogError (msg : string) (err : error)
| EvDryRun (orgID userID : ID) (opts : list ApplyOptFn).

Definition is_unit (e : Event) : bool :=
  match e with EvUnit _ _ => true | _ => false end.

(** The events that mark scheduling: units, tier ends and rollbacks. *)
Definition is_mark (e : Event) : bool :=
  match e with EvUnit _ _ | EvTierEnd _ _ _ | EvRollback _ => true | _ => false end.

Definition is_write_event (e : Event) : bool :=
  match e with EvCall c _ => is_write c | _ => false end.

Definition rollback_resource (e : Event) : option string :=
  match e with EvRollback r => Some r | _ => None end.

Definition dryRun_event (e : Event) : option (ID * ID * list ApplyOptFn) :=
  match e with EvDryRun o u opts => Some (o, u, opts) | _ => None end.

(** ** Go library functions the service uses *)

(** Conversion of an [int] to [int32]: the low 32 bits, read as signed. *)
Definition wrap32 (z : Z) : Z := ((z + 2 ^ 31) mod 2 ^ 32 - 2 ^ 31)%Z.

Definition dquote : string := String (ascii_of_nat 34) EmptyString.
Definition newline : string := String (ascii_of_nat 10) EmptyString.
Definition tab : string := String (ascii_of_nat 9) EmptyString.

(** The verb [%q] on a string: the string between double quotes (the escapes
    Go adds for unprintable characters are not written out). *)
Definition quote (s : string) : string := dquote +:+ s +:+ dquote.

Fixpoint strings_Join (l : list string) (sep : string) : string :=
  match l with
  | [] => EmptyString
  | [x] => x
  | x :: rest => x +:+ sep +:+ strings_Join rest sep
  end.

Definition strings_HasSuffix (s suffix : string) : bool :=
  let n := String.length s in
  let m := String.length suffix in
  (m <=? n)%nat && String.eqb (substring (n - m) m s) suffix.

(** [sort.Slice] with the given [less]: the result is a permutation of the
    slice that [less] never contradicts from left to right.  Insertion at the
    first position that [less] allows is one such sort. *)
Section sort_Slice.
Context {A : Type} (less : A → A → bool).

Fixpoint sort_insert (x : A) (l : list A) : list A :=
  match l with
  | [] => [x]
  | y :: l' => if less y x then y :: sort_insert x l' else x :: y :: l'
  end.

Definition sort_Slice (l : list A) : list A := foldr sort_insert [] l.
End sort_Slice.

(** ** Errors *)

Section errors.
Context `{D : Decls}.

(** [err.Error()] *)
Fixpoint Error (e : error) : string :=
  match e with
  | errorString s => s
  | foreignError _ s => s
  | influxdb_Error c m oe =>
      influxdb_Error_Error c m
        (match oe with Some e' => Some (Error e') | None => None end)
  end.

Definition toInfluxError (code : ErrCode) (msg : string) : error :=
  influxdb_Error code msg None.

Definition internalErr (err : option error) : option error :=
  match err with
  | None => None
  | Some e => Some (toInfluxError EInternal (Error e))
  end.

Definition failedValidationErr (err : option error) : option error :=
  match err with
  | None => None
  | Some e => Some (influxdb_Error EUnprocessableEntity EmptyString (Some e))
  end.

Record applyErrBody := mkApplyErrBody { aeb_name : string; aeb_msg : string }.

Definition applyErrs_toError (a : list applyErrBody) (resType msg : string)
    : option error :=
  match a with
  | [] => None
  | _ =>
      Some (errorString
        (fold_left
           (fun errMsg e =>
              errMsg +:+ newline +:+ tab +:+ "name=" +:+ quote (aeb_name e)
                +:+ " err_msg=" +:+ quote (aeb_msg e))
           a
           ("resource_type=" +:+ quote resType +:+ " err=" +:+ quote msg)))
  end.

(** *** The error stream of a tier *)

Record errMsg := mkErrMsg { em_resource : string; em_err : applyErrBody }.

(** What becomes of the caller's context while a tier runs.  Either
    [ctx.Done()] never fires, or it fires and the consumer of the stream
    takes its [done] branch, or it fires and only some producers take theirs:
    [delivered k] tells whether the k-th message still reached the
    consumer. *)
Inductive ctxFate :=
| CtxLive
| CtxDoneSeen
| CtxDoneRaced (delivered : nat → bool).

(** The loop of [errStream.do]: messages grouped by resource. *)
Definition errStream_group (msgs : list errMsg) : gmap string (list applyErrBody) :=
  fold_left
    (fun mErrs msg =>
       <[em_resource msg := default [] (mErrs !! em_resource msg) ++ [em_err msg]]> mErrs)
    msgs ∅.

(** The tail of [errStream.do]: nil for an empty map, else the groups
    joined (a Go map is ranged over in no particular order; [map_to_list]
    picks one). *)
Definition errStream_join (mErrs : gmap string (list applyErrBody)) : option error :=
  match map_to_list mErrs with
  | [] => None
  | groups =>
      Some (errorString
        (strings_Join
           (map (fun g : string * list applyErrBody =>
                   match applyErrs_toError g.2 g.1 "failed to create" with
                   | Some e => Error e
                   | None => EmptyString
                   end) groups)
           newline))
  end.

Fixpoint keep_delivered (delivered : nat → bool) (k : nat) (msgs : list errMsg)
    : list errMsg :=
  match msgs with
  | [] => []
  | m :: rest =>
      if delivered k then m :: keep_delivered delivered (S k) rest
      else keep_delivered delivered (S k) rest
  end.

(** [errStream.close()] after the producers [msgs] have called [add]. *)
Definition errStream_close (fate : ctxFate) (msgs : list errMsg) : option error :=
  match fate with
  | CtxLive => errStream_join (errStream_group msgs)
  | CtxDoneSeen => None
  | CtxDoneRaced delivered =>
      errStream_join (errStream_group (keep_delivered delivered 0 msgs))
  end.
End errors.

(** ** State

    The slices the appliers' closures capture.  A pointer into a package list
    is the position in that list. *)
Record Slices := mkSlices {
  sl_rollbackBuckets : list nat;
  sl_rollbackChecks : list nat;
  sl_rollbackDashboards : list nat;
  sl_rollBackLabels : list nat;
  sl_rollbackEndpoints : list nat;
  sl_rollbackRules : list nat;
  sl_rollbackSecrets : list string;
  sl_rollbackTasks : list task;
  sl_rollbackTelegrafs : list nat;
  sl_rollBackVars : list nat;
  sl_rollbackMappings : list influxdb_LabelMapping }.

Definition Slices_empty : Slices := mkSlices [] [] [] [] [] [] [] [] [] [] [].

Definition push_rollbackBuckets (i : nat) (s : Slices) : Slices :=
  mkSlices (sl_rollbackBuckets s ++ [i]) (sl_rollbackChecks s) (sl_rollbackDashboards s)
    (sl_rollBackLabels s) (sl_rollbackEndpoints s) (sl_rollbackRules s) (sl_rollbackSecrets s)
    (sl_rollbackTasks s) (sl_rollbackTelegrafs s) (sl_rollBackVars s) (sl_rollbackMappings s).
Definition push_rollbackChecks (i : nat) (s : Slices) : Slices :=
  mkSlices (sl_rollbackBuckets s) (sl_rollbackChecks s ++ [i]) (sl_rollbackDashboards s)
    (sl_rollBackLabels s) (sl_rollbackEndpoints s) (sl_rollbackRules s) (sl_rollbackSecrets s)
    (sl_rollbackTasks s) (sl_rollbackTelegrafs s) (sl_rollBackVars s) (sl_rollbackMappings s).
Definition push_rollbackDashboards (i : nat) (s : Slices) : Slices :=
  mkSlices (sl_rollbackBuckets s) (sl_rollbackChecks s) (sl_rollbackDashboards s ++ [i])
    (sl_rollBackLabels s) (sl_rollbackEndpoints s) (sl_rollbackRules s) (sl_rollbackSecrets s)
    (sl_rollbackTasks s) (sl_rollbackTelegrafs s) (sl_rollBackVars s) (sl_rollbackMappings s).
Definition push_rollBackLabels (i : nat) (s : Slices) : Slices :=
  mkSlices (sl_rollbackBuckets s) (sl_rollbackChecks s) (sl_rollbackDashboards s)
    (sl_rollBackLabels s ++ [i]) (sl_rollbackEndpoints s) (sl_rollbackRules s) (sl_rollbackSecrets s)
    (sl_rollbackTasks s) (sl_rollbackTelegrafs s) (sl_rollBackVars s) (sl_rollbackMappings s).
Definition push_rollbackEndpoints (i : nat) (s : Slices) : Slices :=
  mkSlices (sl_rollbackBuckets s) (sl_rollbackChecks s) (sl_rollbackDashboards s)
    (sl_rollBackLabels s) (sl_rollbackEndpoints s ++ [i]) (sl_rollbackRules s) (sl_rollbackSecrets s)
    (sl_rollbackTasks s) (sl_rollbackTelegrafs s) (sl_rollBackVars s) (sl_rollbackMappings s).
Definition push_rollbackRules (i : nat) (s : Slices) : Slices :=
  mkSlices (sl_rollbackBuckets s) (sl_rollbackChecks s) (sl_rollbackDashboards s)
    (sl_rollBackLabels s) (sl_rollbackEndpoints s) (sl_rollbackRules s ++ [i]) (sl_rollbackSecrets s)
    (sl_rollbackTasks s) (sl_rollbackTelegrafs s) (sl_rollBackVars s) (sl_rollbackMappings s).
Definition push_rollbackSecrets (ks : list string) (s : Slices) : Slices :=
  mkSlices (sl_rollbackBuckets s) (sl_rollbackChecks s) (sl_rollbackDashboards s)
    (sl_rollBackLabels s) (sl_rollbackEndpoints s) (sl_rollbackRules s) (sl_rollbackSecrets s ++ ks)
    (sl_rollbackTasks s) (sl_rollbackTelegrafs s) (sl_rollBackVars s) (sl_rollbackMappings s).
Definition push_rollbackTasks (t : task) (s : Slices) : Slices :=
  mkSlices (sl_rollbackBuckets s) (sl_rollbackChecks s) (sl_rollbackDashboards s)
    (sl_rollBackLabels s) (sl_rollbackEndpoints s) (sl_rollbackRules s) (sl_rollbackSecrets s)
    (sl_rollbackTasks s ++ [t]) (sl_rollbackTelegrafs s) (sl_rollBackVars s) (sl_rollbackMappings s).
Definition push_rollbackTelegrafs (i : nat) (s : Slices) : Slices :=
  mkSlices (sl_rollbackBuckets s) (sl_rollbackChecks s) (sl_rollbackDashboards s)
    (sl_rollBackLabels s) (sl_rollbackEndpoints s) (sl_rollbackRules s) (sl_rollbackSecrets s)
    (sl_rollbackTasks s) (sl_rollbackTelegrafs s ++ [i]) (sl_rollBackVars s) (sl_rollbackMappings s).
Definition push_rollBackVars (i : nat) (s : Slices) : Slices :=
  mkSlices (sl_rollbackBuckets s) (sl_rollbackChecks s) (sl_rollbackDashboards s)
    (sl_rollBackLabels s) (sl_rollbackEndpoints s) (sl_rollbackRules s) (sl_rollbackSecrets s)
    (sl_rollbackTasks s) (sl_rollbackTelegrafs s) (sl_rollBackVars s ++ [i]) (sl_rollbackMappings s).
Definition push_rollbackMappings (m : influxdb_LabelMapping) (s : Slices) : Slices :=
  mkSlices (sl_rollbackBuckets s) (sl_rollbackChecks s) (sl_rollbackDashboards s)
    (sl_rollBackLabels s) (sl_rollbackEndpoints s) (sl_rollbackRules s) (sl_rollbackSecrets s)
    (sl_rollbackTasks s) (sl_rollbackTelegrafs s) (sl_rollBackVars s) (sl_rollbackMappings s ++ [m]).

(** ** The service *)

Declare Scope M_scope.
Delimit Scope M_scope with M.

Section Service.
Context {W : Type} (svc : ∀ c : Call, W → Resp c * W) `{D : Decls}.

(** The downstream world, the package object and the captured slices. *)
Record St := mkSt { world : W; pkg : Pkg; slices : Slices }.

(** A run yields a value, the state after it and the events it produced. *)
Record Res (A : Type) := mkRes { val : A; st : St; evs : list Event }.
Arguments mkRes {A} _ _ _.
Arguments val {A} _.
Arguments st {A} _.
Arguments evs {A} _.

Definition M (A : Type) : Type := St → Res A.

Definition ret {A} (a : A) : M A := fun s => mkRes a s [].

Definition bind {A B} (m : M A) (k : A → M B) : M B :=
  fun s =>
    let r1 := m s in
    let r2 := k (val r1) (st r1) in
    mkRes (val r2) (st r2) (evs r1 ++ evs r2).

Notation "x <- m ;; k" := (bind m (fun x => k))
  (at level 100, m at next level, right associativity) : M_scope.
Notation "m ;; k" := (bind m (fun _ => k))
  (at level 100, right associativity) : M_scope.
Local Open Scope M_scope.

Definition emit (e : Event) : M unit := fun s => mkRes tt s [e].

(** A downstream call: the oracle answers and moves the world on. *)
Definition call (c : Call) : M (Resp c) :=
  fun s =>
    let r := svc c (world s) in
    mkRes r.1 (mkSt r.2 (pkg s) (slices s)) [EvCall c r.1].

Definition getPkg : M Pkg := fun s => mkRes (pkg s) s [].
Definition modifyPkg (f : Pkg → Pkg) : M unit :=
  fun s => mkRes tt (mkSt (world s) (f (pkg s)) (slices s)) [].
Definition getSlices : M Slices := fun s => mkRes (slices s) s [].
Definition modifySlices (f : Slices → Slices) : M unit :=
  fun s => mkRes tt (mkSt (world s) (pkg s) (f (slices s))) [].

(** A [for] loop that threads an accumulator. *)
Fixpoint foldM {A B} (f : B → A → M B) (l : list A) (b : B) : M B :=
  match l with
  | [] => ret b
  | x :: l' => b' <- f b x ;; foldM f l' b'
  end.

(** A step that may return early with an error. *)
Definition bindR {A B} (m : M (result A)) (k : A → M (result B)) : M (result B) :=
  r <- m ;;
  match r with
  | Ok a => k a
  | Err e => ret (Err e)
  end.

Definition internalErr_ (e : error) : error := toInfluxError EInternal (Error e).

(** *** Dry run *)

(** The tail shared by the dry-runs of the named kinds: the map's values
    are copied to a slice (in the map's iteration order) and sorted with
    [diffs[i].Name < diffs[j].Name]. *)
Definition diffs_of_map {L N} (m : gmap string (DiffEntry L N)) : list (DiffEntry L N) :=
  sort_Slice (fun a b => String.ltb (Diff_Name a) (Diff_Name b))
    (map snd (map_to_list m)).

(** The loop shared by [dryRunBuckets], [dryRunChecks], [dryRunLabels] and
    [dryRunVariables]: for every resource of the kind, in the accessor's
    order, [find] looks for the live counterpart; when it yields one the
    resource's [existing] slot is set to it, and in either case the map
    entry under the resource's name is written. *)
Section dryRunByName.
Context {R L : Type}.
Context (get : Pkg → list R) (put : list R → Pkg → Pkg).
Context (name : R → string) (setExisting : option L → R → R).
Context (find : R → M (option L)).
Context (newDiff : R → option L → DiffEntry L R).

Definition dryRunByName_step (mExisting : gmap string (DiffEntry L R)) (i : nat)
    : M (gmap string (DiffEntry L R)) :=
  p <- getPkg ;;
  match get p !! i with
  | None => ret mExisting
  | Some r =>
      found <- find r ;;
      match found with
      | Some existing =>
          let r' := setExisting (Some existing) r in
          modifyPkg (fun p => put (<[i := r']> (get p)) p) ;;
          ret (<[name r := newDiff r' (Some existing)]> mExisting)
      | None => ret (<[name r := newDiff r None]> mExisting)
      end
  end.

Definition dryRunByName : M (list (DiffEntry L R)) :=
  p <- getPkg ;;
  m <- foldM dryRunByName_step (seq 0 (length (get p))) ∅ ;;
  ret (diffs_of_map m).
End dryRunByName.

(** [switch err { case nil: ...; default: ... }]: any error, not-found or
    other, takes the default branch. *)
Definition findBucket (orgID : ID) (b : bucket) : M (option influxdb_Bucket) :=
  r <- call (FindBucketByName orgID (bkt_name b)) ;;
  ret (match r with Ok existingBkt => Some existingBkt | Err _ => None end).

Definition dryRunBuckets (orgID : ID) : M (list DiffBucket) :=
  dryRunByName mBuckets set_mBuckets bkt_name bucket_set_existing
    (findBucket orgID) newDiffBucket.

Definition findCheck (orgID : ID) (c : check) : M (option influxdb_Check) :=
  r <- call (FindCheck (chk_name c) orgID) ;;
  ret (match r with Ok existingCheck => Some existingCheck | Err _ => None end).

Definition dryRunChecks (orgID : ID) : M (list DiffCheck) :=
  dryRunByName mChecks set_mChecks chk_name check_set_existing
    (findCheck orgID) newDiffCheck.

Definition dryRunDashboards : M (list DiffDashboard) :=
  p <- getPkg ;; ret (map newDiffDashboard (mDashboards p)).

(** [case err == nil && len(existingLabels) > 0] takes the first label;
    an error and an empty answer both take the default branch. *)
Definition findLabel (orgID : ID) (pkgLabel : label) : M (option influxdb_Label) :=
  r <- call (FindLabels (lbl_name pkgLabel) (Some orgID) 1) ;;
  ret (match r with
       | Ok (existingLabel :: _) => Some existingLabel
       | Ok [] | Err _ => None
       end).

Definition dryRunLabels (orgID : ID) : M (list DiffLabel) :=
  dryRunByName mLabels set_mLabels lbl_name label_set_existing
    (findLabel orgID) newDiffLabel.

(** All variables of the org are listed for every package variable and
    the first one of the same name is taken. *)
Definition findVariable (orgID : ID) (pkgVar : variable) : M (option influxdb_Variable) :=
  r <- call (FindVariables orgID 100) ;;
  ret (match r with
       | Ok existingLabels =>
           List.find (fun existingVar => String.eqb (Variable_Name existingVar) (var_name pkgVar))
             existingLabels
       | Err _ => None
       end).

Definition dryRunVariables (orgID : ID) : M (list DiffVariable) :=
  dryRunByName mVariables set_mVariables var_name variable_set_existing
    (findVariable orgID) newDiffVariable.

Definition dryRunTasks : M (list DiffTask) :=
  p <- getPkg ;; ret (map newDiffTask (mTasks p)).

Definition dryRunTelegraf : M (list DiffTelegraf) :=
  p <- getPkg ;; ret (map newDiffTelegraf (mTelegrafs p)).

(** [mExisting[e.GetName()] = e] for every live endpoint, later ones
    overwriting earlier ones of the same name. *)
Definition endpoints_by_name (es : list influxdb_NotificationEndpoint)
    : gmap string influxdb_NotificationEndpoint :=
  fold_left (fun m e => <[Endpoint_GetName e := e]> m) es ∅.

Definition dryRunNotificationEndpoints_step
    (mExisting : gmap string influxdb_NotificationEndpoint)
    (mExistingToNew : gmap string DiffNotificationEndpoint) (i : nat)
    : M (gmap string DiffNotificationEndpoint) :=
  p <- getPkg ;;
  match mNotificationEndpoints p !! i with
  | None => ret mExistingToNew
  | Some newEndpoint =>
      match mExisting !! ep_name newEndpoint with
      | Some iExisting =>
          let e' := endpoint_set_existing (Some iExisting) newEndpoint in
          modifyPkg (fun p =>
            set_mNotificationEndpoints (<[i := e']> (mNotificationEndpoints p)) p) ;;
          ret (<[ep_name newEndpoint := newDiffNotificationEndpoint e' (Some iExisting)]>
                 mExistingToNew)
      | None =>
          ret (<[ep_name newEndpoint := newDiffNotificationEndpoint newEndpoint None]>
                 mExistingToNew)
      end
  end.

Definition dryRunNotificationEndpoints (orgID : ID)
    : M (result (list DiffNotificationEndpoint)) :=
  r <- call (FindNotificationEndpoints orgID) ;;
  match r with
  | Err err => ret (Err (internalErr_ err))
  | Ok existingEndpoints =>
      let mExisting := endpoints_by_name existingEndpoints in
      p <- getPkg ;;
      m <- foldM (dryRunNotificationEndpoints_step mExisting)
             (seq 0 (length (mNotificationEndpoints p))) ∅ ;;
      ret (Ok (diffs_of_map m))
  end.

(** [mPkgEndpoints[e.PkgName()] = e.summarize().NotificationEndpoint] *)
Definition pkg_endpoints_by_pkgName (es : list notificationEndpoint)
    : gmap string influxdb_NotificationEndpoint :=
  fold_left (fun m e => <[ep_pkgName e := endpoint_summarize e]> m) es ∅.

(** The error of a rule whose endpoint is found nowhere. *)
Definition missing_endpoint_err (r : notificationRule) : error :=
  influxdb_Error EUnprocessableEntity EmptyString
    (Some (errorString
       ("failed to find notification endpoint " +:+ quote (rule_endpointName r)
          +:+ " dependency for notification rule " +:+ quote (rule_name r)))).

(** The loop over the package's rules: the first rule whose endpoint is
    neither live nor in the package ends it. *)
Fixpoint dryRunNotificationRules_loop
    (mExisting mPkgEndpoints : gmap string influxdb_NotificationEndpoint)
    (rules : list notificationRule) (diffs : list DiffNotificationRule)
    : result (list DiffNotificationRule) :=
  match rules with
  | [] => Ok diffs
  | r :: rest =>
      match mExisting !! rule_endpointName r with
      | Some e =>
          dryRunNotificationRules_loop mExisting mPkgEndpoints rest
            (diffs ++ [newDiffNotificationRule r e])
      | None =>
          match mPkgEndpoints !! rule_endpointName r with
          | Some influxEndpoint =>
              dryRunNotificationRules_loop mExisting mPkgEndpoints rest
                (diffs ++ [newDiffNotificationRule r influxEndpoint])
          | None => Err (missing_endpoint_err r)
          end
      end
  end.

Definition dryRunNotificationRules (orgID : ID) : M (result (list DiffNotificationRule)) :=
  r <- call (FindNotificationEndpoints orgID) ;;
  match r with
  | Err err => ret (Err (internalErr_ err))
  | Ok iEndpoints =>
      p <- getPkg ;;
      ret (dryRunNotificationRules_loop (endpoints_by_name iEndpoints)
             (pkg_endpoints_by_pkgName (mNotificationEndpoints p))
             (mNotificationRules p) [])
  end.

(** Every key the platform holds is marked [true] in [pkg.mSecrets]. *)
Definition dryRunSecrets (orgID : ID) : M (result unit) :=
  p <- getPkg ;;
  if decide (size (mSecrets p) = 0) then ret (Ok tt)
  else
    r <- call (GetSecretKeys orgID) ;;
    match r with
    | Err err => ret (Err (influxdb_Error EInternal EmptyString (Some err)))
    | Ok existingSecrets =>
        modifyPkg (fun p =>
          set_mSecrets
            (fold_left (fun m secret => <[secret := true]> m) existingSecrets (mSecrets p))
            p) ;;
        ret (Ok tt)
    end.

(** [pkg.mLabels[labelName]]: the package's maps are keyed by package
    name; the position stands for the pointer found. *)
Fixpoint find_label (labelName : string) (i : nat) (ls : list label)
    : option (nat * label) :=
  match ls with
  | [] => None
  | l :: rest =>
      if String.eqb (lbl_pkgName l) labelName then Some (i, l)
      else find_label labelName (S i) rest
  end.

(** The closure handed to [dryRunResourceLabelMapping]; [diffs] is the
    slice it appends to. *)
Definition mappingFn (la : labelAssociater) (diffs : list DiffLabelMapping)
    (labelID : ID) (labelName : string) (isNew : bool) : M (list DiffLabelMapping) :=
  p <- getPkg ;;
  match find_label labelName 0 (mLabels p) with
  | None => ret diffs
  | Some (j, existingLabel) =>
      modifyPkg (fun p =>
        set_mLabels (<[j := label_setMapping la (negb isNew) existingLabel]> (mLabels p)) p) ;;
      ret (diffs ++ [mkDiffLabelMapping isNew (la_ResourceType la) (la_ID la) (la_Name la)
                       labelID labelName])
  end.

Definition labelSlcToMap (labels : list label) : gmap string label :=
  fold_left (fun m l => <[lbl_name l := l]> m) labels ∅.

Definition dryRunResourceLabelMapping (la : labelAssociater)
    (diffs : list DiffLabelMapping) : M (result (list DiffLabelMapping)) :=
  if negb (la_Exists la) then
    d <- foldM (fun d l => mappingFn la d (label_ID l) (lbl_name l) true)
           (la_Labels la) diffs ;;
    ret (Ok d)
  else
    r <- call (FindResourceLabels (la_ID la) (la_ResourceType la)) ;;
    match r with
    | Err err => ret (Err err)
    | Ok existingLabels =>
        let pkgLabels := labelSlcToMap (la_Labels la) in
        d <- foldM (fun d l => mappingFn la d (Label_ID l) (Label_Name l) false)
               existingLabels diffs ;;
        let pkgLabels' :=
          fold_left (fun m l => delete (Label_Name l) m) existingLabels pkgLabels in
        d' <- foldM (fun d l => mappingFn la d (label_ID l) (lbl_name l) true)
                (map snd (map_to_list pkgLabels')) d ;;
        ret (Ok d')
    end.

Fixpoint dryRunLabelMappings_loop (las : list labelAssociater)
    (diffs : list DiffLabelMapping) : M (result (list DiffLabelMapping)) :=
  match las with
  | [] => ret (Ok diffs)
  | la :: rest =>
      r <- dryRunResourceLabelMapping la diffs ;;
      match r with
      | Err err => ret (Err (internalErr_ err))
      | Ok d => dryRunLabelMappings_loop rest d
      end
  end.

(** sort by res type ASC, then res name ASC, then label name ASC *)
Definition labelMapping_less (n m : DiffLabelMapping) : bool :=
  if String.ltb (DLM_ResType n) (DLM_ResType m) then true
  else if String.ltb (DLM_ResType m) (DLM_ResType n) then false
  else if String.ltb (DLM_ResName n) (DLM_ResName m) then true
  else if String.ltb (DLM_ResName m) (DLM_ResName n) then false
  else String.ltb (DLM_LabelName n) (DLM_LabelName m).

Definition dryRunLabelMappings : M (result (list DiffLabelMapping)) :=
  p <- getPkg ;;
  bindR (dryRunLabelMappings_loop (concat (mappers p)) [])
    (fun diffs => ret (Ok (sort_Slice labelMapping_less diffs))).

(** The functional options, applied in order to the zero [ApplyOpt]. *)
Definition ApplyOpt_zero : ApplyOpt := mkApplyOpt ∅ ∅.

Fixpoint apply_opts (opts : list ApplyOptFn) (opt : ApplyOpt) : result ApplyOpt :=
  match opts with
  | [] => Ok opt
  | o :: rest =>
      match (o opt).2 with
      | Some err => Err err
      | None => apply_opts rest (o opt).1
      end
  end.

(** [DryRun], first part: validation, options and environment references.
    The value is the parse error to hand back at the end; [Err] is an
    early return. *)
Definition DryRun_prepare (opts : list ApplyOptFn) : M (result (option error)) :=
  p <- getPkg ;;
  bindR
    (if isParsed p then ret (Ok None)
     else
       modifyPkg (fun p => (Validate p).1) ;;
       match (Validate p).2 with
       | Some err =>
           if negb (IsParseErr err) then ret (Err (internalErr_ err))
           else ret (Ok (Some err))
       | None => ret (Ok None)
       end)
    (fun parseErr =>
       match apply_opts opts ApplyOpt_zero with
       | Err err => ret (Err (internalErr_ err))
       | Ok opt =>
           if decide (size (EnvRefs opt) = 0) then ret (Ok parseErr)
           else
             p <- getPkg ;;
             modifyPkg (fun p => (applyEnvRefs (EnvRefs opt) p).1) ;;
             match (applyEnvRefs (EnvRefs opt) p).2 with
             | Some err =>
                 if negb (IsParseErr err) then ret (Err (internalErr_ err))
                 else ret (Ok (Some err))
             | None => ret (Ok None)
             end
       end).

(** [DryRun], second part: the secrets, the diff literal and the
    endpoints. *)
Definition DryRun_primary (orgID : ID) : M (result Diff) :=
  bindR (dryRunSecrets orgID) (fun _ =>
    buckets <- dryRunBuckets orgID ;;
    checks <- dryRunChecks orgID ;;
    dashboards <- dryRunDashboards ;;
    labels <- dryRunLabels orgID ;;
    tasks <- dryRunTasks ;;
    telegrafs <- dryRunTelegraf ;;
    variables <- dryRunVariables orgID ;;
    bindR (dryRunNotificationEndpoints orgID) (fun diffEndpoints =>
      ret (Ok (mkDiff buckets checks dashboards labels [] diffEndpoints [] tasks
                 telegrafs variables)))).

(** [DryRun], third part: the rules. *)
Definition DryRun_rules (orgID : ID) (diff : Diff) : M (result Diff) :=
  bindR (dryRunNotificationRules orgID) (fun diffRules =>
    ret (Ok (mkDiff (Buckets diff) (Checks diff) (Dashboards diff) (Labels diff)
               (LabelMappings diff) (NotificationEndpoints diff) diffRules (Tasks diff)
               (Telegrafs diff) (Variables diff)))).

(** [DryRun], fourth part: the label mappings. *)
Definition DryRun_labelMappings (diff : Diff) : M (result Diff) :=
  bindR dryRunLabelMappings (fun diffLabelMappings =>
    ret (Ok (mkDiff (Buckets diff) (Checks diff) (Dashboards diff) (Labels diff)
               diffLabelMappings (NotificationEndpoints diff) (NotificationRules diff)
               (Tasks diff) (Telegrafs diff) (Variables diff)))).

(** Everything [DryRun] does before its last two lines; [Err] is one of
    its early returns, [Ok] the diff together with the parse error. *)
Definition DryRun_run (orgID : ID) (opts : list ApplyOptFn)
    : M (result (Diff * option error)) :=
  bindR (DryRun_prepare opts) (fun parseErr =>
  bindR (DryRun_primary orgID) (fun diff =>
  bindR (DryRun_rules orgID diff) (fun diff =>
  bindR (DryRun_labelMappings diff) (fun diff =>
  ret (Ok (diff, parseErr)))))).

Definition DryRun (orgID userID : ID) (opts : list ApplyOptFn)
    : M (Summary * Diff * option error) :=
  emit (EvDryRun orgID userID opts) ;;
  r <- DryRun_run orgID opts ;;
  match r with
  | Err err => ret (Summary_zero, Diff_zero, Some err)
  | Ok (diff, parseErr) =>
      modifyPkg (set_isVerified true) ;;
      p <- getPkg ;;
      ret (pkg_Summary p, diff, parseErr)
  end.

(** *** Appliers *)

Record creater := mkCreater {
  entries : nat;
  creater_fn : nat → ID → ID → M (option applyErrBody) }.

Record rollbacker := mkRollbacker {
  resource : string;
  rollbacker_fn : ID → M (option error) }.

Record applier := mkApplier {
  app_creater : creater;
  app_rollbacker : rollbacker }.

(** The zero [creater]: no entries, so its [fn] is never called. *)
Definition creater_zero : creater := mkCreater 0 (fun _ _ _ => ret None).

(** The tail shared by the rollback functions: the ids that failed. *)
Definition rollback_error (what : string) (msg : string) (errs : list string)
    : option error :=
  match errs with
  | [] => None
  | _ =>
      Some (errorString
        (what +:+ "=[" +:+ strings_Join errs ", " +:+ "] err=" +:+ quote msg))
  end.

(** **** Buckets *)

Definition applyBucket (b : bucket) : M (result influxdb_Bucket) :=
  let rp := RP (bkt_RetentionRules b) in
  match bkt_existing b with
  | Some _ =>
      call (UpdateBucket (bucket_ID b) (mkBucketUpdate (Some (bkt_Description b)) (Some rp)))
  | None =>
      call (CreateBucket (mkBucket 0%N (bkt_OrgID b) (bkt_name b) (bkt_Description b) rp))
  end.

Definition rollbackBuckets_one (errs : list string) (i : nat) : M (list string) :=
  p <- getPkg ;;
  match mBuckets p !! i with
  | None => ret errs
  | Some b =>
      match bkt_existing b with
      | None =>
          err <- call (DeleteBucket (bucket_ID b)) ;;
          ret (match err with
               | Some _ => errs ++ [ID_String (bucket_ID b)]
               | None => errs
               end)
      | Some _ =>
          let rp := RP (bkt_RetentionRules b) in
          r <- call (UpdateBucket (bucket_ID b)
                       (mkBucketUpdate (Some (bkt_Description b)) (Some rp))) ;;
          ret (if is_Err r then errs ++ [ID_String (bucket_ID b)] else errs)
      end
  end.

Definition rollbackBuckets (buckets : list nat) : M (option error) :=
  errs <- foldM rollbackBuckets_one buckets [] ;;
  ret (rollback_error "bucket_ids" "unable to delete bucket" errs).

Definition applyBuckets_createFn (i : nat) (orgID userID : ID) : M (option applyErrBody) :=
  modifyPkg (fun p => set_mBuckets (alter (bucket_set_OrgID orgID) i (mBuckets p)) p) ;;
  p <- getPkg ;;
  match mBuckets p !! i with
  | None => ret None
  | Some b =>
      if negb (bucket_shouldApply b) then ret None
      else
        r <- applyBucket b ;;
        match r with
        | Err err => ret (Some (mkApplyErrBody (bkt_pkgName b) (Error err)))
        | Ok influxBucket =>
            modifyPkg (fun p =>
              set_mBuckets (alter (bucket_set_id (Bucket_ID influxBucket)) i (mBuckets p)) p) ;;
            modifySlices (push_rollbackBuckets i) ;;
            ret None
        end
  end.

Definition applyBuckets (buckets : list bucket) : applier :=
  mkApplier
    (mkCreater (length buckets) applyBuckets_createFn)
    (mkRollbacker "bucket"
       (fun _ => sl <- getSlices ;; rollbackBuckets (sl_rollbackBuckets sl))).

(** **** Checks *)

Definition applyCheck (c : check) (userID : ID) : M (result influxdb_Check) :=
  match chk_existing c with
  | Some _ =>
      call (UpdateCheck (check_ID c) (mkCheckCreate (check_summarize c) (check_Status c)))
  | None =>
      call (CreateCheck (mkCheckCreate (check_summarize c) (check_Status c)) userID)
  end.

Definition rollbackChecks_one (errs : list string) (i : nat) : M (list string) :=
  p <- getPkg ;;
  match mChecks p !! i with
  | None => ret errs
  | Some c =>
      match chk_existing c with
      | None =>
          err <- call (DeleteCheck (check_ID c)) ;;
          ret (match err with
               | Some _ => errs ++ [ID_String (check_ID c)]
               | None => errs
               end)
      | Some _ =>
          r <- call (UpdateCheck (check_ID c)
                       (mkCheckCreate (check_summarize c) (chk_status c))) ;;
          ret (if is_Err r then errs ++ [ID_String (check_ID c)] else errs)
      end
  end.

Definition rollbackChecks (checks : list nat) : M (option error) :=
  errs <- foldM rollbackChecks_one checks [] ;;
  ret (rollback_error "check_ids" "unable to delete" errs).

Definition applyChecks_createFn (i : nat) (orgID userID : ID) : M (option applyErrBody) :=
  modifyPkg (fun p => set_mChecks (alter (check_set_orgID orgID) i (mChecks p)) p) ;;
  p <- getPkg ;;
  match mChecks p !! i with
  | None => ret None
  | Some c =>
      r <- applyCheck c userID ;;
      match r with
      | Err err => ret (Some (mkApplyErrBody (chk_name c) (Error err)))
      | Ok influxBucket =>
          modifyPkg (fun p =>
            set_mChecks (alter (check_set_id (Check_GetID influxBucket)) i (mChecks p)) p) ;;
          modifySlices (push_rollbackChecks i) ;;
          ret None
      end
  end.

Definition applyChecks (checks : list check) : applier :=
  mkApplier
    (mkCreater (length checks) applyChecks_createFn)
    (mkRollbacker "check"
       (fun _ => sl <- getSlices ;; rollbackChecks (sl_rollbackChecks sl))).

(** **** Delete by ids *)

Fixpoint deleteByIDs_loop (deleteFn : ID → M (option error)) (iterFn : nat → M ID)
    (idxs : list nat) (errs : list string) : M (list string) :=
  match idxs with
  | [] => ret errs
  | i :: rest =>
      id <- iterFn i ;;
      err <- deleteFn id ;;
      deleteByIDs_loop deleteFn iterFn rest
        (match err with Some _ => errs ++ [ID_String id] | None => errs end)
  end.

Definition deleteByIDs (resource : string) (numIDs : nat)
    (deleteFn : ID → M (option error)) (iterFn : nat → M ID) : M (option error) :=
  errs <- deleteByIDs_loop deleteFn iterFn (seq 0 numIDs) [] ;;
  ret (rollback_error (resource +:+ "_ids") "unable to delete" errs).

(** **** Dashboards *)

Definition convertChartsToCells (ch : list chart) : list influxdb_Cell :=
  map (fun c =>
         mkCell (wrap32 (chart_XPos c)) (wrap32 (chart_YPos c)) (wrap32 (chart_Height c))
           (wrap32 (chart_Width c)) (chart_Name c) (chart_properties c))
    ch.

Definition applyDashboard (d : dashboard) : M (result influxdb_Dashboard) :=
  let cells := convertChartsToCells (dash_Charts d) in
  call (CreateDashboard (mkDashboard 0%N (dash_OrgID d) (dash_name d) (dash_Description d) cells)).

Definition applyDashboards_createFn (i : nat) (orgID userID : ID) : M (option applyErrBody) :=
  modifyPkg (fun p => set_mDashboards (alter (dashboard_set_OrgID orgID) i (mDashboards p)) p) ;;
  p <- getPkg ;;
  match mDashboards p !! i with
  | None => ret None
  | Some d =>
      r <- applyDashboard d ;;
      match r with
      | Err err => ret (Some (mkApplyErrBody (dash_name d) (Error err)))
      | Ok influxBucket =>
          modifyPkg (fun p =>
            set_mDashboards
              (alter (dashboard_set_id (Dashboard_ID influxBucket)) i (mDashboards p)) p) ;;
          modifySlices (push_rollbackDashboards i) ;;
          ret None
      end
  end.

Definition applyDashboards (dashboards : list dashboard) : applier :=
  mkApplier
    (mkCreater (length dashboards) applyDashboards_createFn)
    (mkRollbacker "dashboard"
       (fun _ =>
          sl <- getSlices ;;
          deleteByIDs "dashboard" (length (sl_rollbackDashboards sl))
            (fun id => call (DeleteDashboard id))
            (fun i =>
               sl <- getSlices ;;
               p <- getPkg ;;
               ret (match sl_rollbackDashboards sl !! i with
                    | Some j =>
                        match mDashboards p !! j with
                        | Some d => dashboard_ID d
                        | None => 0%N
                        end
                    | None => 0%N
                    end)))).

(** **** Labels *)

Definition applyLabel (l : label) : M (result influxdb_Label) :=
  match lbl_existing l with
  | Some _ => call (UpdateLabel (label_ID l) (mkLabelUpdate (label_properties l)))
  | None => call (CreateLabel (toInfluxLabel l))
  end.

Definition rollbackLabels_one (errs : list string) (i : nat) : M (list string) :=
  p <- getPkg ;;
  match mLabels p !! i with
  | None => ret errs
  | Some l =>
      match lbl_existing l with
      | None =>
          err <- call (DeleteLabel (label_ID l)) ;;
          ret (match err with
               | Some _ => errs ++ [ID_String (label_ID l)]
               | None => errs
               end)
      | Some existing =>
          r <- call (UpdateLabel (label_ID l) (mkLabelUpdate (Label_Properties existing))) ;;
          ret (if is_Err r then errs ++ [ID_String (label_ID l)] else errs)
      end
  end.

Definition rollbackLabels (labels : list nat) : M (option error) :=
  errs <- foldM rollbackLabels_one labels [] ;;
  ret (rollback_error "label_ids" "unable to delete label" errs).

Definition applyLabels_createFn (i : nat) (orgID userID : ID) : M (option applyErrBody) :=
  modifyPkg (fun p => set_mLabels (alter (label_set_OrgID orgID) i (mLabels p)) p) ;;
  p <- getPkg ;;
  match mLabels p !! i with
  | None => ret None
  | Some l =>
      if negb (label_shouldApply l) then ret None
      else
        r <- applyLabel l ;;
        match r with
        | Err err => ret (Some (mkApplyErrBody (lbl_pkgName l) (Error err)))
        | Ok influxLabel =>
            modifyPkg (fun p =>
              set_mLabels (alter (label_set_id (Label_ID influxLabel)) i (mLabels p)) p) ;;
            modifySlices (push_rollBackLabels i) ;;
            ret None
        end
  end.

Definition applyLabels (labels : list label) : applier :=
  mkApplier
    (mkCreater (length labels) applyLabels_createFn)
    (mkRollbacker "label"
       (fun _ => sl <- getSlices ;; rollbackLabels (sl_rollBackLabels sl))).

(** **** Variables *)

Definition applyVariable (v : variable) : M (result influxdb_Variable) :=
  match var_existing v with
  | Some _ =>
      call (UpdateVariable (variable_ID v)
              (mkVariableUpdate (var_Description v) (influxVarArgs v)))
  | None =>
      call (CreateVariable
              (mkVariable 0%N (var_OrgID v) (var_name v) (var_Description v) (influxVarArgs v)))
  end.

Definition rollbackVariables_one (errs : list string) (i : nat) : M (list string) :=
  p <- getPkg ;;
  match mVariables p !! i with
  | None => ret errs
  | Some v =>
      match var_existing v with
      | None =>
          err <- call (DeleteVariable (variable_ID v)) ;;
          ret (match err with
               | Some _ => errs ++ [ID_String (variable_ID v)]
               | None => errs
               end)
      | Some existing =>
          r <- call (UpdateVariable (variable_ID v)
                       (mkVariableUpdate (Variable_Description existing)
                          (Variable_Arguments existing))) ;;
          ret (if is_Err r then errs ++ [ID_String (variable_ID v)] else errs)
      end
  end.

Definition rollbackVariables (variables : list nat) : M (option error) :=
  errs <- foldM rollbackVariables_one variables [] ;;
  ret (rollback_error "variable_ids" "unable to delete variable" errs).

Definition applyVariables_createFn (i : nat) (orgID userID : ID) : M (option applyErrBody) :=
  modifyPkg (fun p => set_mVariables (alter (variable_set_OrgID orgID) i (mVariables p)) p) ;;
  p <- getPkg ;;
  match mVariables p !! i with
  | None => ret None
  | Some v =>
      if negb (variable_shouldApply v) then ret None
      else
        r <- applyVariable v ;;
        match r with
        | Err err => ret (Some (mkApplyErrBody (var_name v) (Error err)))
        | Ok influxVar =>
            modifyPkg (fun p =>
              set_mVariables (alter (variable_set_id (Variable_ID influxVar)) i (mVariables p)) p) ;;
            modifySlices (push_rollBackVars i) ;;
            ret None
        end
  end.

Definition applyVariables (vars : list variable) : applier :=
  mkApplier
    (mkCreater (length vars) applyVariables_createFn)
    (mkRollbacker "variable"
       (fun _ => sl <- getSlices ;; rollbackVariables (sl_rollBackVars sl))).

(** **** Notification endpoints *)

Definition applyNotificationEndpoint (e : notificationEndpoint) (userID : ID)
    : M (result influxdb_NotificationEndpoint) :=
  match ep_existing e with
  | Some existing => call (UpdateNotificationEndpoint (endpoint_ID e) existing userID)
  | None => call (CreateNotificationEndpoint (endpoint_summarize e) userID)
  end.

Definition rollbackNotificationEndpoints_one (errs : list string) (i : nat)
    : M (list string) :=
  p <- getPkg ;;
  match mNotificationEndpoints p !! i with
  | None => ret errs
  | Some e =>
      match ep_existing e with
      | None =>
          err <- call (DeleteNotificationEndpoint (endpoint_ID e)) ;;
          ret (match err with
               | Some _ => errs ++ [ID_String (endpoint_ID e)]
               | None => errs
               end)
      | Some existing =>
          r <- call (UpdateNotificationEndpoint (endpoint_ID e) existing 0%N) ;;
          ret (if is_Err r then errs ++ [ID_String (endpoint_ID e)] else errs)
      end
  end.

Definition rollbackNotificationEndpoints (endpoints : list nat) : M (option error) :=
  errs <- foldM rollbackNotificationEndpoints_one endpoints [] ;;
  ret (rollback_error "notication_endpoint_ids" "unable to delete" errs).

(** The secret slot a returned secret key fills, by its suffix. *)
Definition backfill_secret (e : notificationEndpoint) (key : string)
    : notificationEndpoint :=
  if strings_HasSuffix key "-routing-key" then endpoint_set_routingKey key e
  else if strings_HasSuffix key "-token" then endpoint_set_token key e
  else if strings_HasSuffix key "-username" then endpoint_set_username key e
  else if strings_HasSuffix key "-password" then endpoint_set_password key e
  else e.

Definition applyNotificationEndpoints_createFn (i : nat) (orgID userID : ID)
    : M (option applyErrBody) :=
  modifyPkg (fun p =>
    set_mNotificationEndpoints
      (alter (endpoint_set_OrgID orgID) i (mNotificationEndpoints p)) p) ;;
  p <- getPkg ;;
  match mNotificationEndpoints p !! i with
  | None => ret None
  | Some endpoint =>
      r <- applyNotificationEndpoint endpoint userID ;;
      match r with
      | Err err => ret (Some (mkApplyErrBody (ep_name endpoint) (Error err)))
      | Ok influxEndpoint =>
          modifyPkg (fun p =>
            set_mNotificationEndpoints
              (alter
                 (fun e =>
                    fold_left backfill_secret (Endpoint_SecretFields influxEndpoint)
                      (endpoint_set_id (Endpoint_GetID influxEndpoint) e))
                 i (mNotificationEndpoints p)) p) ;;
          modifySlices (push_rollbackEndpoints i) ;;
          ret None
      end
  end.

Definition applyNotificationEndpoints (endpoints : list notificationEndpoint) : applier :=
  mkApplier
    (mkCreater (length endpoints) applyNotificationEndpoints_createFn)
    (mkRollbacker "notification_endpoints"
       (fun _ =>
          sl <- getSlices ;; rollbackNotificationEndpoints (sl_rollbackEndpoints sl))).

(** **** Notification rules *)

Definition applyNotificationRule (e : notificationRule) (userID : ID)
    : M (result influxdb_NotificationRule) :=
  call (CreateNotificationRule (mkRuleCreate (toInfluxRule e) (rule_Status e)) userID).

Definition rollbackNotificationRules_one (errs : list string) (i : nat) : M (list string) :=
  p <- getPkg ;;
  match mNotificationRules p !! i with
  | None => ret errs
  | Some e =>
      err <- call (DeleteNotificationRule (rule_ID e)) ;;
      ret (match err with
           | Some _ => errs ++ [ID_String (rule_ID e)]
           | None => errs
           end)
  end.

Definition rollbackNotificationRules (rules : list nat) : M (option error) :=
  errs <- foldM rollbackNotificationRules_one rules [] ;;
  ret (rollback_error "notication_rule_ids" "unable to delete" errs).

Definition applyNotificationRules_createFn (i : nat) (orgID userID : ID)
    : M (option applyErrBody) :=
  modifyPkg (fun p =>
    set_mNotificationRules (alter (rule_set_orgID orgID) i (mNotificationRules p)) p) ;;
  p <- getPkg ;;
  match mNotificationRules p !! i with
  | None => ret None
  | Some rule =>
      r <- applyNotificationRule rule userID ;;
      match r with
      | Err err => ret (Some (mkApplyErrBody (rule_name rule) (Error err)))
      | Ok influxRule =>
          modifyPkg (fun p =>
            set_mNotificationRules
              (alter (rule_set_id (Rule_GetID influxRule)) i (mNotificationRules p)) p) ;;
          modifySlices (push_rollbackRules i) ;;
          ret None
      end
  end.

Definition applyNotificationRules (rules : list notificationRule) : applier :=
  mkApplier
    (mkCreater (length rules) applyNotificationRules_createFn)
    (mkRollbacker "notification_rules"
       (fun _ => sl <- getSlices ;; rollbackNotificationRules (sl_rollbackRules sl))).

(** The endpoint table of the generator: live endpoints by name, then the
    package endpoints whose package name is not yet a key. *)
Definition mEndpoints_live (endpoints : list influxdb_NotificationEndpoint)
    : gmap string (ID * string) :=
  fold_left (fun m e => <[Endpoint_GetName e := (Endpoint_GetID e, Endpoint_Type e)]> m)
    endpoints ∅.

Definition mEndpoints_pkg (m : gmap string (ID * string)) (es : list notificationEndpoint)
    : gmap string (ID * string) :=
  fold_left
    (fun m e =>
       match m !! ep_pkgName e with
       | Some _ => m
       | None => <[ep_pkgName e := (endpoint_ID e, Endpoint_Type (endpoint_summarize e))]> m
       end)
    es m.

Definition resolve_rule (mEndpoints : gmap string (ID * string))
    (errs : list applyErrBody) (i : nat) : M (list applyErrBody) :=
  p <- getPkg ;;
  match mNotificationRules p !! i with
  | None => ret errs
  | Some r =>
      match mEndpoints !! rule_endpointName r with
      | None =>
          ret (errs ++
               [mkApplyErrBody (rule_name r)
                  ("endpoint dependency does not exist; endpointName="
                     +:+ quote (rule_endpointName r))])
      | Some v =>
          modifyPkg (fun p =>
            set_mNotificationRules
              (alter (rule_set_endpoint v.1 v.2) i (mNotificationRules p)) p) ;;
          ret errs
      end
  end.

Definition applyNotificationRulesGenerator (orgID : ID) : M (result applier) :=
  r <- call (FindNotificationEndpoints orgID) ;;
  match r with
  | Err err => ret (Err (internalErr_ err))
  | Ok endpoints =>
      p <- getPkg ;;
      let mEndpoints :=
        mEndpoints_pkg (mEndpoints_live endpoints) (mNotificationEndpoints p) in
      errs <- foldM (resolve_rule mEndpoints) (seq 0 (length (mNotificationRules p))) [] ;;
      match applyErrs_toError errs "notification_rules" "failed to find dependency" with
      | Some err => ret (Err err)
      | None =>
          p <- getPkg ;;
          ret (Ok (applyNotificationRules (mNotificationRules p)))
      end
  end.

(** **** Secrets *)

Definition applySecrets_createFn (secrets : gmap string string) (i : nat)
    (orgID userID : ID) : M (option applyErrBody) :=
  err <- call (PutSecrets orgID secrets) ;;
  match err with
  | Some e => ret (Some (mkApplyErrBody "secrets" (Error e)))
  | None =>
      modifySlices (push_rollbackSecrets (map fst (map_to_list secrets))) ;;
      ret None
  end.

(** The rollback closure calls [DeleteSecret] with the org id and no key. *)
Definition applySecrets (secrets : gmap string string) : applier :=
  if decide (size secrets = 0) then
    mkApplier creater_zero (mkRollbacker EmptyString (fun orgID => ret None))
  else
    mkApplier
      (mkCreater 1 (applySecrets_createFn secrets))
      (mkRollbacker "secrets" (fun orgID => call (DeleteSecret orgID []))).

(** **** Tasks *)

Definition applyTasks_createFn (i : nat) (orgID userID : ID) : M (option applyErrBody) :=
  modifyPkg (fun p => set_mTasks (alter (task_set_orgID orgID) i (mTasks p)) p) ;;
  p <- getPkg ;;
  match mTasks p !! i with
  | None => ret None
  | Some t =>
      r <- call (CreateTask
                   (mkTaskCreate TaskSystemType (task_flux t) userID (task_description t)
                      (task_Status t) (task_orgID t))) ;;
      match r with
      | Err err => ret (Some (mkApplyErrBody (task_name t) (Error err)))
      | Ok newTask =>
          modifyPkg (fun p => set_mTasks (alter (task_set_id (Task_ID newTask)) i (mTasks p)) p) ;;
          modifySlices (push_rollbackTasks (task_set_id (Task_ID newTask) t)) ;;
          ret None
      end
  end.

Definition applyTasks (tasks : list task) : applier :=
  mkApplier
    (mkCreater (length tasks) applyTasks_createFn)
    (mkRollbacker "tasks"
       (fun _ =>
          sl <- getSlices ;;
          deleteByIDs "task" (length (sl_rollbackTasks sl))
            (fun id => call (DeleteTask id))
            (fun i =>
               sl <- getSlices ;;
               ret (match sl_rollbackTasks sl !! i with
                    | Some t => task_ID t
                    | None => 0%N
                    end)))).

(** **** Telegraf configurations *)

Definition applyTelegrafs_createFn (i : nat) (orgID userID : ID) : M (option applyErrBody) :=
  modifyPkg (fun p =>
    set_mTelegrafs
      (alter (fun t => telegraf_set_config (TelegrafConfig_set_OrgID orgID (tele_config t)) t)
         i (mTelegrafs p)) p) ;;
  p <- getPkg ;;
  match mTelegrafs p !! i with
  | None => ret None
  | Some t =>
      let cfg := telegraf_summarize t in
      r <- call (CreateTelegrafConfig cfg userID) ;;
      match r with
      | Err err => ret (Some (mkApplyErrBody (Telegraf_Name cfg) (Error err)))
      | Ok cfg' =>
          modifyPkg (fun p =>
            set_mTelegrafs (alter (telegraf_set_config cfg') i (mTelegrafs p)) p) ;;
          modifySlices (push_rollbackTelegrafs i) ;;
          ret None
      end
  end.

Definition applyTelegrafs (teles : list telegraf) : applier :=
  mkApplier
    (mkCreater (length teles) applyTelegrafs_createFn)
    (mkRollbacker "telegrafs"
       (fun _ =>
          sl <- getSlices ;;
          deleteByIDs "telegraf" (length (sl_rollbackTelegrafs sl))
            (fun id => call (DeleteTelegrafConfig id))
            (fun i =>
               sl <- getSlices ;;
               p <- getPkg ;;
               ret (match sl_rollbackTelegrafs sl !! i with
                    | Some j =>
                        match mTelegrafs p !! j with
                        | Some t => telegraf_ID t
                        | None => 0%N
                        end
                    | None => 0%N
                    end)))).

(** **** Label mappings *)

Definition rollbackLabelMappings_one (errs : list string) (l : influxdb_LabelMapping)
    : M (list string) :=
  err <- call (DeleteLabelMapping l) ;;
  ret (match err with
       | Some _ =>
           errs ++ [ID_String (LabelMapping_LabelID l) +:+ ":"
                      +:+ ID_String (LabelMapping_ResourceID l)]
       | None => errs
       end).

Definition rollbackLabelMappings (mappings : list influxdb_LabelMapping) : M (option error) :=
  errs <- foldM rollbackLabelMappings_one mappings [] ;;
  ret (rollback_error "label_resource_id_pairs" "unable to delete label" errs).

Definition applyLabelMappings_createFn (labelMappings : list SummaryLabelMapping)
    (i : nat) (orgID userID : ID) : M (option applyErrBody) :=
  match labelMappings !! i with
  | None => ret None
  | Some mapping =>
      if slm_exists mapping || (slm_LabelID mapping =? 0)%N || (slm_ResourceID mapping =? 0)%N
      then ret None
      else
        let m := mkLabelMapping (slm_LabelID mapping) (slm_ResourceID mapping)
                   (slm_ResourceType mapping) in
        err <- call (CreateLabelMapping m) ;;
        match err with
        | Some e =>
            ret (Some (mkApplyErrBody
                         (slm_ResourceType mapping +:+ ":" +:+ ID_String (slm_ResourceID mapping)
                            +:+ ":" +:+ ID_String (slm_LabelID mapping))
                         (Error e)))
        | None => modifySlices (push_rollbackMappings m) ;; ret None
        end
  end.

Definition applyLabelMappings (labelMappings : list SummaryLabelMapping) : applier :=
  mkApplier
    (mkCreater (length labelMappings) (applyLabelMappings_createFn labelMappings))
    (mkRollbacker "label_mapping"
       (fun _ => sl <- getSlices ;; rollbackLabelMappings (sl_rollbackMappings sl))).

(** *** The rollback coordinator *)

(** The units of one applier.  The goroutines of a tier are taken in the
    order they are started; each unit runs from its first line to its last
    before the next starts.  This is one schedule of the goroutines; their
    interleaved runs are [tier_run] below, and [Apply_seq] shows that this
    schedule is among them. *)
Fixpoint runEntries (app : applier) (orgID userID : ID) (idxs : list nat)
    : M (list errMsg) :=
  match idxs with
  | [] => ret []
  | i :: rest =>
      emit (EvUnit (resource (app_rollbacker app)) i) ;;
      err <- creater_fn (app_creater app) i orgID userID ;;
      msgs <- runEntries app orgID userID rest ;;
      ret (match err with
           | Some e => mkErrMsg (resource (app_rollbacker app)) e :: msgs
           | None => msgs
           end)
  end.

(** The dispatch loop: the applier's rollbacker is appended to
    [r.rollbacks], then its entries run. *)
Fixpoint runAppliers (orgID userID : ID) (appliers : list applier)
    (rollbacks : list rollbacker) : M (list errMsg * list rollbacker) :=
  match appliers with
  | [] => ret ([], rollbacks)
  | app :: rest =>
      msgs <- runEntries app orgID userID (seq 0 (entries (app_creater app))) ;;
      r <- runAppliers orgID userID rest (rollbacks ++ [app_rollbacker app]) ;;
      ret (msgs ++ r.1, r.2)
  end.

Definition tier_apps (appliers : list applier) : list (string * nat) :=
  map (fun a => (resource (app_rollbacker a), entries (app_creater a))) appliers.

(** [runTilEnd]: all units finish ([wg.Wait()]) and the error stream is
    closed.  The value is the error and the coordinator's rollbacks. *)
Definition runTilEnd (fate : ctxFate) (orgID userID : ID) (appliers : list applier)
    (rollbacks : list rollbacker) : M (option error * list rollbacker) :=
  r <- runAppliers orgID userID appliers rollbacks ;;
  let err := errStream_close fate r.1 in
  emit (EvTierEnd (tier_apps appliers) (length r.1) (bool_decide (is_Some err))) ;;
  ret (err, r.2).

Fixpoint rollback_loop (rollbacks : list rollbacker) (orgID : ID) : M unit :=
  match rollbacks with
  | [] => ret tt
  | r :: rest =>
      emit (EvRollback (resource r)) ;;
      err <- rollbacker_fn r orgID ;;
      match err with
      | Some e => emit (EvLogError ("failed to delete " +:+ resource r) e)
      | None => ret tt
      end ;;
      rollback_loop rest orgID
  end.

(** [rollbackCoordinator.rollback]: nothing when [*err] is nil. *)
Definition rollback (rollbacks : list rollbacker) (err : option error) (orgID : ID)
    : M unit :=
  match err with
  | None => ret tt
  | Some _ => rollback_loop rollbacks orgID
  end.

(** *** Apply *)

(** [Apply], first part: validation, options and environment references.
    [Err] is an early return. *)
Definition Apply_validate (opts : list ApplyOptFn) : M (result ApplyOpt) :=
  p <- getPkg ;;
  bindR
    (if isParsed p then ret (Ok tt)
     else
       modifyPkg (fun p => (Validate p).1) ;;
       match (Validate p).2 with
       | Some err => ret (Err (influxdb_Error EUnprocessableEntity EmptyString (Some err)))
       | None => ret (Ok tt)
       end)
    (fun _ =>
       match apply_opts opts ApplyOpt_zero with
       | Err err => ret (Err (internalErr_ err))
       | Ok opt =>
           p <- getPkg ;;
           modifyPkg (fun p => (applyEnvRefs (EnvRefs opt) p).1) ;;
           match (applyEnvRefs (EnvRefs opt) p).2 with
           | Some err =>
               ret (Err (influxdb_Error EUnprocessableEntity EmptyString (Some err)))
           | None => ret (Ok opt)
           end
       end).

(** [Apply], second part: a package not yet verified gets the dry run, which
    is called with the org, the user and the package, and no option. *)
Definition Apply_verify (orgID userID : ID) : M (result unit) :=
  p <- getPkg ;;
  if isVerified p then ret (Ok tt)
  else
    r <- DryRun orgID userID [] ;;
    match r.2 with
    | Some err => ret (Err err)
    | None => ret (Ok tt)
    end.

(** [Apply] up to the creation of the coordinator. *)
Definition Apply_prepare (orgID userID : ID) (opts : list ApplyOptFn)
    : M (result ApplyOpt) :=
  bindR (Apply_validate opts) (fun opt =>
  bindR (Apply_verify orgID userID) (fun _ => ret (Ok opt))).

(** The loop over the first three groups. *)
Fixpoint runGroups (fate : nat → ctxFate) (k : nat) (orgID userID : ID)
    (groups : list (list applier)) (rollbacks : list rollbacker)
    : M (option error * list rollbacker) :=
  match groups with
  | [] => ret (None, rollbacks)
  | group :: rest =>
      r <- runTilEnd (fate k) orgID userID group rollbacks ;;
      match r.1 with
      | Some err => ret (internalErr (Some err), r.2)
      | None => runGroups fate (S k) orgID userID rest r.2
      end
  end.

(** [Apply] from the creation of the coordinator to its [return]s.  The
    value is the pair returned together with the coordinator's rollbacks;
    [fate k] is what becomes of the context during the k-th [runTilEnd]. *)
Definition Apply_body (fate : nat → ctxFate) (orgID userID : ID) (opt : ApplyOpt)
    : M ((Summary * option error) * list rollbacker) :=
  modifySlices (fun _ => Slices_empty) ;;
  p <- getPkg ;;
  let appliers :=
    [ [ applySecrets (MissingSecrets opt) ];
      [ applyLabels (mLabels p) ];
      [ applyVariables (mVariables p);
        applyBuckets (mBuckets p);
        applyChecks (mChecks p);
        applyDashboards (mDashboards p);
        applyNotificationEndpoints (mNotificationEndpoints p);
        applyTasks (mTasks p);
        applyTelegrafs (mTelegrafs p) ] ] in
  r <- runGroups fate 0 orgID userID appliers [] ;;
  match r.1 with
  | Some err => ret ((Summary_zero, Some err), r.2)
  | None =>
      g <- applyNotificationRulesGenerator orgID ;;
      match g with
      | Err err => ret ((Summary_zero, Some err), r.2)
      | Ok app =>
          r3 <- runTilEnd (fate 3) orgID userID [app] r.2 ;;
          match r3.1 with
          | Some err => ret ((Summary_zero, Some err), r3.2)
          | None =>
              p <- getPkg ;;
              r4 <- runTilEnd (fate 4) orgID userID
                      [applyLabelMappings (labelMappings p)] r3.2 ;;
              match r4.1 with
              | Some err => ret ((Summary_zero, internalErr (Some err)), r4.2)
              | None =>
                  modifyPkg (pkg_applySecrets (MissingSecrets opt)) ;;
                  p <- getPkg ;;
                  ret ((pkg_Summary p, None), r4.2)
              end
          end
      end
  end.

(** The body together with the deferred
    [coordinator.rollback(s.log, &e, orgID)], which runs once the body has
    set the named result [e]. *)
Definition Apply_run (fate : nat → ctxFate) (orgID userID : ID) (opt : ApplyOpt)
    : M (Summary * option error) :=
  b <- Apply_body fate orgID userID opt ;;
  rollback b.2 b.1.2 orgID ;;
  ret b.1.

Definition Apply (fate : nat → ctxFate) (orgID userID : ID) (opts : list ApplyOptFn)
    : M (Summary * option error) :=
  r <- Apply_prepare orgID userID opts ;;
  match r with
  | Err err => ret (Summary_zero, Some err)
  | Ok opt => Apply_run fate orgID userID opt
  end.

(** What each rollback closure returns when the list is replayed from [s]:
    the closures run in list order, each from the state its predecessor
    left. *)
Fixpoint rollback_outcomes (rollbacks : list rollbacker) (orgID : ID) (s : St)
    : list (string * option error) :=
  match rollbacks with
  | [] => []
  | r :: rest =>
      let x := rollbacker_fn r orgID s in
      (resource r, val x) :: rollback_outcomes rest orgID (st x)
  end.

End Service.

Arguments mkRes {W A} _ _ _.
Arguments val {W A} _.
Arguments st {W A} _.
Arguments evs {W A} _.

Notation "x <- m ;; k" := (bind m (fun x => k))
  (at level 100, m at next level, right associativity) : M_scope.
Notation "m ;; k" := (bind m (fun _ => k))
  (at level 100, right associativity) : M_scope.

(** ** Orders the diffs are sorted by *)

(** Left to right, [less] never holds backwards. *)
Definition sorted_by {A} (less : A → A → bool) : list A → Prop :=
  Sorted (fun a b => less b a = false).

(** Ascending by name: no entry is followed by one of a smaller name. *)
Definition name_le {L N} (a b : DiffEntry L N) : Prop :=
  String.leb (Diff_Name a) (Diff_Name b) = true.

(** Ascending by resource type, then resource name, then label name. *)
Definition labelMapping_le (a b : DiffLabelMapping) : Prop :=
  String.ltb (DLM_ResType a) (DLM_ResType b) = true
  ∨ (DLM_ResType a = DLM_ResType b
     ∧ (String.ltb (DLM_ResName a) (DLM_ResName b) = true
        ∨ (DLM_ResName a = DLM_ResName b
           ∧ String.leb (DLM_LabelName a) (DLM_LabelName b) = true))).

(** The diff lists that the dry run sorts are in ascending order. *)
Definition diff_sorted (d : Diff) : Prop :=
  Sorted name_le (Buckets d) ∧ Sorted name_le (Checks d) ∧ Sorted name_le (Labels d)
  ∧ Sorted name_le (Variables d) ∧ Sorted name_le (NotificationEndpoints d)
  ∧ Sorted labelMapping_le (LabelMappings d).

(** The event of a per-name find call for [name] that yields no live
    counterpart: any error for a bucket or a check; any error or an empty
    answer for a label. *)
Definition bucket_lookup_failed (name : string) (e : Event) : Prop :=
  match e with
  | EvCall (FindBucketByName _ n) r => n = name ∧ is_Err r = true
  | _ => False
  end.

Definition check_lookup_failed (name : string) (e : Event) : Prop :=
  match e with
  | EvCall (FindCheck n _) r => n = name ∧ is_Err r = true
  | _ => False
  end.

Definition label_lookup_failed (name : string) (e : Event) : Prop :=
  match e with
  | EvCall (FindLabels n _ _) r =>
      n = name ∧ match r with Err _ | Ok [] => True | Ok (_ :: _) => False end
  | _ => False
  end.

(** A rule whose endpoint name is neither the name of a live endpoint nor
    the package name of an endpoint the package declares. *)
Definition unresolved (live : list influxdb_NotificationEndpoint)
    (declared : list notificationEndpoint) (r : notificationRule) : bool :=
  bool_decide (rule_endpointName r ∉ map Endpoint_GetName live)
  && bool_decide (rule_endpointName r ∉ map ep_pkgName declared).

(** The scheduling marks of a trace, in order. *)
Definition marks (l : list Event) : list Event :=
  omap (fun e => if is_mark e then Some e else None) l.

(** The lines logged at error level. *)
Definition log_event (e : Event) : option (string * error) :=
  match e with EvLogError msg err => Some (msg, err) | _ => None end.

(** The units of a tier, applier by applier, entry by entry. *)
Definition units (apps : list (string * nat)) : list Event :=
  flat_map (fun a => map (EvUnit a.1) (seq 0 a.2)) apps.

(** The appliers of the k-th tier: secrets (one unit of work, or none when
    no secret is supplied), labels, the seven primary kinds, notification
    rules, label mappings. *)
Definition tier_shape (k : nat) (apps : list (string * nat)) : Prop :=
  match k with
  | 0 => apps = [("secrets", 1)] ∨ apps = [(EmptyString, 0)]
  | 1 => ∃ n, apps = [("label", n)]
  | 2 => ∃ a b c d e f g,
           apps = [("variable", a); ("bucket", b); ("check", c); ("dashboard", d);
                   ("notification_endpoints", e); ("tasks", f); ("telegrafs", g)]
  | 3 => ∃ n, apps = [("notification_rules", n)]
  | 4 => ∃ n, apps = [("label_mapping", n)]
  | _ => False
  end.

(** The marks of an apply from tier [k] on, with the rollbackers [rec]
    recorded so far; the flag tells whether the apply succeeds.  A tier runs
    all its units and then ends.  If it ends without error the next tier
    follows (with a live context, only when no unit reported an error).  If
    it ends with an error, some unit reported one, no further tier runs, and
    every rollbacker recorded up to and including this tier is invoked.  The
    apply may also stop between the primaries and the rules, when the rule
    references do not resolve. *)
Inductive tiered (fate : nat → ctxFate)
    : nat → list string → list Event → bool → Prop :=
| tiered_done rec : tiered fate 5 rec [] true
| tiered_next k apps rec rest ok nerrs :
    tier_shape k apps →
    (fate k = CtxLive → nerrs = 0) →
    tiered fate (S k) (rec ++ map fst apps) rest ok →
    tiered fate k rec (units apps ++ EvTierEnd apps nerrs false :: rest) ok
| tiered_abort k apps rec nerrs :
    tier_shape k apps →
    0 < nerrs →
    tiered fate k rec
      (units apps ++ EvTierEnd apps nerrs true :: map EvRollback (rec ++ map fst apps))
      false
| tiered_unresolved rec :
    tiered fate 3 rec (map EvRollback rec) false.

(** A stretch of the trace that holds downstream calls only. *)
Definition is_call (e : Event) : Prop :=
  match e with EvCall _ _ => True | _ => False end.

Definition calls_only (l : list Event) : Prop := Forall is_call l.

(** An applier whose units and rollback closure leave only downstream
    calls in the trace. *)
Definition quiet {W} (a : @applier W) : Prop :=
  (∀ i o u s, calls_only (evs (creater_fn (app_creater a) i o u s)))
  ∧ (∀ o s, calls_only (evs (rollbacker_fn (app_rollbacker a) o s))).

(** The events from the first rollback closure on. *)
Fixpoint rollback_part (l : list Event) : list Event :=
  match l with
  | [] => []
  | EvRollback r :: rest => EvRollback r :: rest
  | _ :: rest => rollback_part rest
  end.

Definition bucket_update (e : Event) : option (ID * BucketUpdate) :=
  match e with EvCall (UpdateBucket id upd) _ => Some (id, upd) | _ => None end.

Definition variable_update (e : Event) : option (ID * VariableUpdate) :=
  match e with EvCall (UpdateVariable id upd) _ => Some (id, upd) | _ => None end.

(** The calls to the secret service, without their responses. *)
Definition secret_call (e : Event) : option Call :=
  match e with
  | EvCall (GetSecretKeys o) _ => Some (GetSecretKeys o)
  | EvCall (PutSecrets o m) _ => Some (PutSecrets o m)
  | EvCall (DeleteSecret o ks) _ => Some (DeleteSecret o ks)
  | _ => None
  end.

(** A unit that issues exactly one downstream call, a create or an update. *)
Definition one_write (l : list Event) : Prop :=
  ∃ c r, l = [EvCall c r] ∧ is_write c = true.

(** ** Tiers *)

(** The tier of a unit of work, by the resource name its applier carries:
    secrets, then labels, then the primary resources, then notification
    rules, then label mappings. *)
Definition tier_of (resource : string) : nat :=
  if String.eqb resource "secrets" then 0
  else if String.eqb resource "label" then 1
  else if String.eqb resource "notification_rules" then 3
  else if String.eqb resource "label_mapping" then 4
  else 2.

Definition unit_tier (e : Event) : option nat :=
  match e with EvUnit r _ => Some (tier_of r) | _ => None end.

(** The resource names of the rollbackers, tier by tier, in the order the
    tiers hand them to the coordinator; the first is the name the secrets
    applier carries. *)
Definition tier_resources (secrets : string) : list (list string) :=
  [ [secrets]; ["label"];
    ["variable"; "bucket"; "check"; "dashboard"; "notification_endpoints"; "tasks";
     "telegrafs"];
    ["notification_rules"]; ["label_mapping"] ].

(** The line the rollback logs for a closure that fails. *)
Definition rollback_log (x : string * option error) : option (string * error) :=
  match x.2 with
  | Some e => Some ("failed to delete " +:+ x.1, e)
  | None => None
  end.

(** ** A small platform for worked scenarios

    A concrete choice of the outside declarations and an in-memory platform,
    used to run the service on the scenarios of the specification. *)
Module Scenario.

(** [ID()]: the live id once the resource is known to exist, else the id
    slot; [shouldApply]: a resource that exists is applied only when the
    package changes it. *)
Definition decls : Decls := {|
  Summary := list (string * ID);
  Summary_zero := [];
  pkg_Summary p :=
    map (fun b => (bkt_name b,
                   match bkt_existing b with Some e => Bucket_ID e | None => bkt_id b end))
      (mBuckets p);
  Validate p :=
    (mkPkg true (isVerified p) (mBuckets p) (mChecks p) (mDashboards p) (mLabels p)
       (mNotificationEndpoints p) (mNotificationRules p) (mTasks p) (mTelegrafs p)
       (mVariables p) (mSecrets p), None);
  IsParseErr e := match e with foreignError _ _ => true | _ => false end;
  applyEnvRefs _ p := (p, None);
  pkg_applySecrets _ p := p;
  labelMappings _ := [];
  mappers _ := [];
  label_setMapping _ _ l := l;
  influxdb_Error_Error _ m inner := match inner with Some i => i | None => m end;
  bucket_ID b := match bkt_existing b with Some e => Bucket_ID e | None => bkt_id b end;
  bucket_shouldApply b :=
    match bkt_existing b with
    | None => true
    | Some e => negb (String.eqb (bkt_Description b) (Bucket_Description e))
    end;
  RP rules := match rules with (_, secs) :: _ => (secs * 1000000000)%Z | [] => 0%Z end;
  check_ID c := match chk_existing c with Some e => Check_GetID e | None => chk_id c end;
  check_summarize c := mkCheck (chk_id c) (chk_name c) (chk_def c);
  check_Status c := chk_status c;
  dashboard_ID d := dash_id d;
  chart_properties c := chart_def c;
  label_ID l := match lbl_existing l with Some e => Label_ID e | None => lbl_id l end;
  label_shouldApply l :=
    match lbl_existing l with
    | None => true
    | Some e => negb (String.eqb (lbl_name l) (Label_Name e))
    end;
  label_properties l := {[ "color" := lbl_Color l ]};
  toInfluxLabel l := mkLabel 0%N (lbl_OrgID l) (lbl_name l) {[ "color" := lbl_Color l ]};
  endpoint_ID e := match ep_existing e with Some x => Endpoint_GetID x | None => ep_id e end;
  endpoint_summarize e := mkEndpoint (ep_id e) (ep_name e) (ep_kind e) [];
  rule_ID r := rule_id r;
  toInfluxRule r := mkRule (rule_id r) (rule_name r) (rule_endpointID r) (rule_def r);
  rule_Status _ := "active";
  task_ID t := task_id t;
  task_flux t := task_query t;
  task_Status _ := "active";
  telegraf_ID t := Telegraf_ID (tele_config t);
  telegraf_summarize t := tele_config t;
  variable_ID v := match var_existing v with Some e => Variable_ID e | None => var_id v end;
  variable_shouldApply v :=
    match var_existing v with
    | None => true
    | Some e => negb (String.eqb (var_Description v) (Variable_Description e))
    end;
  influxVarArgs v := Some (mkVariableArguments "constant" [var_args v]);
  TaskSystemType := "system";
  ID_String i := match i with 0%N => "0" | _ => "id" end |}.

(** The platform: the live buckets and endpoints, the next id to hand out,
    and the calls that are made to fail. *)
Record World := mkWorld {
  w_buckets : list influxdb_Bucket;
  w_endpoints : list influxdb_NotificationEndpoint;
  w_next : ID;
  w_fail : Call → bool }.

Definition boom : error := errorString "unavailable".
Definition not_found : error := influxdb_Error ENotFound "not found" None.

(** The answer of a call that fails. *)
Definition failure (c : Call) : Resp c :=
  match c return Resp c with
  | FindBucketByName _ _ | CreateBucket _ | UpdateBucket _ _
  | FindCheck _ _ | CreateCheck _ _ | UpdateCheck _ _
  | CreateDashboard _
  | FindLabels _ _ _ | FindResourceLabels _ _
  | CreateLabel _ | UpdateLabel _ _
  | FindNotificationEndpoints _
  | CreateNotificationEndpoint _ _ | UpdateNotificationEndpoint _ _ _
  | CreateNotificationRule _ _
  | GetSecretKeys _
  | CreateTask _
  | CreateTelegrafConfig _ _
  | FindVariables _ _
  | CreateVariable _ | UpdateVariable _ _ => Err boom
  | DeleteBucket _ | DeleteCheck _ | DeleteDashboard _ | DeleteLabel _
  | CreateLabelMapping _ | DeleteLabelMapping _ | DeleteNotificationEndpoint _
  | DeleteNotificationRule _ | PutSecrets _ _ | DeleteSecret _ _ | DeleteTask _
  | DeleteTelegrafConfig _ | DeleteVariable _ => Some boom
  end.

Definition bump (w : World) : World :=
  mkWorld (w_buckets w) (w_endpoints w) (w_next w + 1)%N (w_fail w).

Definition find_bucket (name : string) (w : World) : option influxdb_Bucket :=
  List.find (fun b => String.eqb (Bucket_Name b) name) (w_buckets w).

Definition update_bucket (id : ID) (upd : BucketUpdate) (b : influxdb_Bucket)
    : influxdb_Bucket :=
  if (Bucket_ID b =? id)%N then
    mkBucket (Bucket_ID b) (Bucket_OrgID b) (Bucket_Name b)
      (default (Bucket_Description b) (BucketUpdate_Description upd))
      (default (Bucket_RetentionPeriod b) (BucketUpdate_RetentionPeriod upd))
  else b.

(** The answer of a call that succeeds, and the platform after it.  Finds
    look the name up; creates hand out the next id; buckets are kept. *)
Definition answer (c : Call) (w : World) : Resp c * World :=
  match c return Resp c * World with
  | FindBucketByName _ name =>
      (match find_bucket name w with Some b => Ok b | None => Err not_found end, w)
  | CreateBucket b =>
      let b' := mkBucket (w_next w) (Bucket_OrgID b) (Bucket_Name b) (Bucket_Description b)
                  (Bucket_RetentionPeriod b) in
      (Ok b', mkWorld (w_buckets w ++ [b']) (w_endpoints w) (w_next w + 1)%N (w_fail w))
  | UpdateBucket id upd =>
      match List.find (fun b => (Bucket_ID b =? id)%N) (w_buckets w) with
      | Some b =>
          (Ok (update_bucket id upd b),
           mkWorld (map (update_bucket id upd) (w_buckets w)) (w_endpoints w) (w_next w)
             (w_fail w))
      | None => (Err not_found, w)
      end
  | DeleteBucket id =>
      (None,
       mkWorld (filter (fun b => Bucket_ID b ≠ id) (w_buckets w)) (w_endpoints w) (w_next w)
         (w_fail w))
  | FindCheck _ _ => (Err not_found, w)
  | CreateCheck c _ =>
      (Ok (mkCheck (w_next w) (Check_Name (CheckCreate_Check c))
             (Check_def (CheckCreate_Check c))), bump w)
  | UpdateCheck _ c => (Ok (CheckCreate_Check c), w)
  | CreateDashboard d =>
      (Ok (mkDashboard (w_next w) (Dashboard_OrganizationID d) (Dashboard_Name d)
             (Dashboard_Description d) (Dashboard_Cells d)), bump w)
  | FindLabels _ _ _ | FindResourceLabels _ _ => (Ok [], w)
  | CreateLabel l =>
      (Ok (mkLabel (w_next w) (Label_OrgID l) (Label_Name l) (Label_Properties l)), bump w)
  | UpdateLabel id upd => (Ok (mkLabel id 0%N EmptyString (LabelUpdate_Properties upd)), w)
  | FindNotificationEndpoints _ => (Ok (w_endpoints w), w)
  | CreateNotificationEndpoint e _ =>
      let e' := mkEndpoint (w_next w) (Endpoint_GetName e) (Endpoint_Type e)
                  (Endpoint_SecretFields e) in
      (Ok e', mkWorld (w_buckets w) (w_endpoints w ++ [e']) (w_next w + 1)%N (w_fail w))
  | UpdateNotificationEndpoint _ e _ => (Ok e, w)
  | CreateNotificationRule r _ =>
      (Ok (mkRule (w_next w) (Rule_Name (RuleCreate_NotificationRule r))
             (Rule_EndpointID (RuleCreate_NotificationRule r))
             (Rule_def (RuleCreate_NotificationRule r))), bump w)
  | GetSecretKeys _ => (Ok [], w)
  | CreateTask _ => (Ok (mkTask (w_next w)), bump w)
  | CreateTelegrafConfig cfg _ =>
      (Ok (mkTelegrafConfig (w_next w) (Telegraf_OrgID cfg) (Telegraf_Name cfg)
             (Telegraf_Config cfg)), bump w)
  | FindVariables _ _ => (Ok [], w)
  | CreateVariable v =>
      (Ok (mkVariable (w_next w) (Variable_OrganizationID v) (Variable_Name v)
             (Variable_Description v) (Variable_Arguments v)), bump w)
  | UpdateVariable id upd =>
      (Ok (mkVariable id 0%N EmptyString (VariableUpdate_Description upd)
             (VariableUpdate_Arguments upd)), w)
  | DeleteCheck _ | DeleteDashboard _ | DeleteLabel _
  | CreateLabelMapping _ | DeleteLabelMapping _
  | DeleteNotificationRule _ | PutSecrets _ _ | DeleteSecret _ _ | DeleteTask _
  | DeleteTelegrafConfig _ | DeleteVariable _ => (None, w)
  | DeleteNotificationEndpoint id =>
      (None,
       mkWorld (w_buckets w) (filter (fun e => Endpoint_GetID e ≠ id) (w_endpoints w))
         (w_next w) (w_fail w))
  end.

Definition svc (c : Call) (w : World) : Resp c * World :=
  if w_fail w c then (failure c, w) else answer c w.

Definition no_failure : Call → bool := fun _ => false.

(** An empty, parsed, unverified package. *)
Definition pkg0 : Pkg := mkPkg true false [] [] [] [] [] [] [] [] [] ∅.

Definition orgID : ID := 9%N.
Definition userID : ID := 1%N.

(** The context stays live through every tier. *)
Definition live : nat → ctxFate := fun _ => CtxLive.

Definition start (w : World) (p : Pkg) : @St World := mkSt w p Slices_empty.

End Scenario.

(** *** The scenarios *)
Module Scenarios.
Import Scenario.

(** S2: the org holds bucket b1 with description "old" and no retention;
    the package declares b1 with description "new" and one hour of
    retention, and a rule whose creation fails after the primaries ran. *)
Definition s2_live_b1 : influxdb_Bucket := mkBucket 1%N orgID "b1" "old" 0%Z.

Definition s2_b1 : bucket :=
  mkPkgBucket 0%N 0%N "new" "b1" "b1" [("expire", 3600%Z)] None [].

Definition s2_e1 : notificationEndpoint :=
  mkPkgEndpoint 0%N 0%N "e1" "e1" "slack" None EmptyString EmptyString EmptyString
    EmptyString [].

Definition s2_r1 : notificationRule :=
  mkPkgRule 0%N 0%N "r1" "e1" 0%N EmptyString "every 1h" [].

Definition s2_pkg : Pkg := mkPkg true false [s2_b1] [] [] [] [s2_e1] [s2_r1] [] [] [] ∅.

Definition fail_rules (c : Call) : bool :=
  match c with CreateNotificationRule _ _ => true | _ => false end.

Definition s2_world : World := mkWorld [s2_live_b1] [] 100%N fail_rules.

(** S6: the package references the secret slack-token, which the org does
    not hold; the caller supplies it at apply; the rule still fails. *)
Definition s6_pkg : Pkg :=
  mkPkg true false [] [] [] [] [s2_e1] [s2_r1] [] [] [] {[ "slack-token" := false ]}.

Definition s6_secrets : gmap string string := {[ "slack-token" := "xoxb" ]}.

Definition s6_world : World := mkWorld [] [] 100%N fail_rules.

(** A bucket that exists unchanged on the platform: nothing to apply. *)
Definition same_b1 : bucket :=
  mkPkgBucket 0%N 0%N "old" "b1" "b1" [] (Some s2_live_b1) [].

Definition same_pkg : Pkg := mkPkg true true [same_b1] [] [] [] [] [] [] [] [] ∅.

(** S4: the package declares bucket b2 and a rule that names endpoint e1;
    no endpoint e1 is live or declared. *)
Definition s4_b2 : bucket :=
  mkPkgBucket 0%N 0%N "fresh" "b2" "b2" [] None [].

Definition s4_pkg : Pkg := mkPkg true false [s4_b2] [] [] [] [] [s2_r1] [] [] [] ∅.

Definition s4_world : World := mkWorld [s2_live_b1] [] 100%N no_failure.

(** The same org when every find-by-name call for a bucket breaks down. *)
Definition fail_find_bucket (c : Call) : bool :=
  match c with FindBucketByName _ _ => true | _ => false end.

Definition s4_world_down : World := mkWorld [s2_live_b1] [] 100%N fail_find_bucket.

End Scenarios.

(** ** Kinds of downstream calls *)

(** The calls that only read: the finds and the listing of secret keys. *)
Definition is_lookup (c : Call) : bool :=
  match c with
  | FindBucketByName _ _ | FindCheck _ _ | FindLabels _ _ _ | FindResourceLabels _ _
  | FindNotificationEndpoints _ | GetSecretKeys _ | FindVariables _ _ => true
  | _ => false
  end.

(** The calls that remove. *)
Definition is_delete (c : Call) : bool :=
  match c with
  | DeleteBucket _ | DeleteCheck _ | DeleteDashboard _ | DeleteLabel _
  | DeleteLabelMapping _ | DeleteNotificationEndpoint _ | DeleteNotificationRule _
  | DeleteSecret _ _ | DeleteTask _ | DeleteTelegrafConfig _ | DeleteVariable _ => true
  | _ => false
  end.

(** The calls that create. *)
Definition is_create (c : Call) : bool :=
  match c with
  | CreateBucket _ | CreateCheck _ _ | CreateDashboard _ | CreateLabel _
  | CreateLabelMapping _ | CreateNotificationEndpoint _ _ | CreateNotificationRule _ _
  | PutSecrets _ _ | CreateTask _ | CreateTelegrafConfig _ _ | CreateVariable _ => true
  | _ => false
  end.

(** The downstream calls of a trace, without their responses. *)
Definition call_of (e : Event) : option Call :=
  match e with EvCall c _ => Some c | _ => None end.

(** Every downstream call of a trace satisfies [P]. *)
Definition calls_sat (P : Call → bool) (l : list Event) : Prop :=
  Forall (fun e => match e with EvCall c _ => P c = true | _ => True end) l.

(** The calls that change a resource that is there. *)
Definition is_update (c : Call) : bool := is_write c && negb (is_create c).

(** The calls to the secret service. *)
Definition is_secret (c : Call) : bool :=
  match c with
  | GetSecretKeys _ | PutSecrets _ _ | DeleteSecret _ _ => true
  | _ => false
  end.

(** What the tiers of a resource other than the secrets may call, and what
    their rollback closures may call. *)
Definition tier_call (c : Call) : bool := is_write c && negb (is_secret c).
Definition undo_call (c : Call) : bool :=
  (is_delete c || is_update c) && negb (is_secret c).

(** An applier whose units make only calls that satisfy [P] and whose
    rollback closure makes only calls that satisfy [Q]. *)
Definition calls_kind {W} (P Q : Call → bool) (a : @applier W) : Prop :=
  (∀ i o u s, calls_sat P (evs (creater_fn (app_creater a) i o u s)))
  ∧ (∀ o s, calls_sat Q (evs (rollbacker_fn (app_rollbacker a) o s))).

(** ** More scenarios *)
Module MoreScenarios.
Import Scenario.

(** An endpoint e1 that is live on the platform as a slack endpoint and
    that the package declares anew. *)
Definition live_e1 : influxdb_NotificationEndpoint := mkEndpoint 7%N "e1" "slack" [].

Definition held_e1 : notificationEndpoint :=
  mkPkgEndpoint 0%N 0%N "e1" "e1" "pagerduty" (Some live_e1) EmptyString EmptyString
    EmptyString EmptyString [].

Definition held_pkg : Pkg := mkPkg true true [] [] [] [] [held_e1] [] [] [] [] ∅.

(** A label mapping that the platform holds already. *)
Definition held_mapping : SummaryLabelMapping := mkSummaryLabelMapping true 3%N "buckets" 4%N.

(** The platform of a scenario when the org holds the secret keys [ks]. *)
Definition svc_keys (ks : list string) (c : Call) (w : World) : Resp c * World :=
  match c return Resp c * World with
  | GetSecretKeys _ => (Ok ks, w)
  | c' => svc c' w
  end.

(** A package with one bucket, one check and one label, none of them on
    the platform, and the platform when every find-by-name call breaks
    down. *)
Definition s8_c1 : check := mkPkgCheck 0%N 0%N "active" "c1" "deadman" None [].

Definition s8_l1 : label := mkPkgLabel 0%N 0%N "l1" "l1" "red" EmptyString None [].

Definition s8_pkg : Pkg :=
  mkPkg true false [Scenarios.s4_b2] [s8_c1] [] [s8_l1] [] [] [] [] [] ∅.

Definition fail_finds (c : Call) : bool :=
  match c with
  | FindBucketByName _ _ | FindCheck _ _ | FindLabels _ _ _ => true
  | _ => false
  end.

Definition s8_world : World := mkWorld [Scenarios.s2_live_b1] [] 100%N no_failure.

Definition s8_world_down : World := mkWorld [Scenarios.s2_live_b1] [] 100%N fail_finds.




End MoreScenarios.

(** * The tiers and their goroutines

    [rollbackCoordinator.runTilEnd] starts one goroutine for every unit of
    work of a tier, at most [applyReqLimit] of them in flight, and waits
    for all of them ([wg.Wait()]) before it closes the error stream.  Here
    the goroutines of a tier are interleaved: the code of a unit is cut
    into the steps between which another goroutine may run, and a run of a
    tier is any sequence of starts, steps and returns the coordinator
    allows. *)

Section Goroutines.
Context {W : Type} (svc : ∀ c : Call, W → Resp c * W) `{D : Decls}.
Local Open Scope M_scope.

(** The code of a unit of work that is still to run.  A step is one
    critical section ([mutex.Do]) or one downstream call, together with the
    code around it that touches only the goroutine's own variables; it
    yields the code that is left. *)
Inductive Proc :=
| PRet (r : option applyErrBody)
| PStep (m : @M W Proc).

(** The steps of a unit taken one after the other, with no other goroutine
    in between. *)
Fixpoint proc_run (p : Proc) : @M W (option applyErrBody) :=
  match p with
  | PRet r => ret r
  | PStep m =>
      fun s =>
        match m s with
        | mkRes p' s' e =>
            let y := proc_run p' s' in
            mkRes (val y) (st y) (e ++ evs y)
        end
  end.

(** *** The units of work, step by step

    Each unit is the [createFn] of its applier with the points marked at
    which the goroutine leaves a critical section or waits for a
    downstream call. *)

Definition applyBuckets_unit (i : nat) (orgID userID : ID) : Proc :=
  PStep
    (modifyPkg (fun p => set_mBuckets (alter (bucket_set_OrgID orgID) i (mBuckets p)) p) ;;
     p <- getPkg ;;
     match mBuckets p !! i with
     | None => ret (PRet None)
     | Some b =>
         if negb (bucket_shouldApply b) then ret (PRet None)
         else
           ret (PStep
             (r <- applyBucket svc b ;;
              match r with
              | Err err => ret (PRet (Some (mkApplyErrBody (bkt_pkgName b) (Error err))))
              | Ok influxBucket =>
                  ret (PStep
                    (modifyPkg (fun p =>
                       set_mBuckets
                         (alter (bucket_set_id (Bucket_ID influxBucket)) i (mBuckets p)) p) ;;
                     modifySlices (push_rollbackBuckets i) ;;
                     ret (PRet None)))
              end))
     end).

Definition applyChecks_unit (i : nat) (orgID userID : ID) : Proc :=
  PStep
    (modifyPkg (fun p => set_mChecks (alter (check_set_orgID orgID) i (mChecks p)) p) ;;
     p <- getPkg ;;
     match mChecks p !! i with
     | None => ret (PRet None)
     | Some c =>
         ret (PStep
           (r <- applyCheck svc c userID ;;
            match r with
            | Err err => ret (PRet (Some (mkApplyErrBody (chk_name c) (Error err))))
            | Ok influxBucket =>
                ret (PStep
                  (modifyPkg (fun p =>
                     set_mChecks
                       (alter (check_set_id (Check_GetID influxBucket)) i (mChecks p)) p) ;;
                   modifySlices (push_rollbackChecks i) ;;
                   ret (PRet None)))
            end))
     end).

Definition applyDashboards_unit (i : nat) (orgID userID : ID) : Proc :=
  PStep
    (modifyPkg (fun p =>
       set_mDashboards (alter (dashboard_set_OrgID orgID) i (mDashboards p)) p) ;;
     p <- getPkg ;;
     match mDashboards p !! i with
     | None => ret (PRet None)
     | Some d =>
         ret (PStep
           (r <- applyDashboard svc d ;;
            match r with
            | Err err => ret (PRet (Some (mkApplyErrBody (dash_name d) (Error err))))
            | Ok influxBucket =>
                ret (PStep
                  (modifyPkg (fun p =>
                     set_mDashboards
                       (alter (dashboard_set_id (Dashboard_ID influxBucket)) i
                          (mDashboards p)) p) ;;
                   modifySlices (push_rollbackDashboards i) ;;
                   ret (PRet None)))
            end))
     end).

Definition applyLabels_unit (i : nat) (orgID userID : ID) : Proc :=
  PStep
    (modifyPkg (fun p => set_mLabels (alter (label_set_OrgID orgID) i (mLabels p)) p) ;;
     p <- getPkg ;;
     match mLabels p !! i with
     | None => ret (PRet None)
     | Some l =>
         if negb (label_shouldApply l) then ret (PRet None)
         else
           ret (PStep
             (r <- applyLabel svc l ;;
              match r with
              | Err err => ret (PRet (Some (mkApplyErrBody (lbl_pkgName l) (Error err))))
              | Ok influxLabel =>
                  ret (PStep
                    (modifyPkg (fun p =>
                       set_mLabels
                         (alter (label_set_id (Label_ID influxLabel)) i (mLabels p)) p) ;;
                     modifySlices (push_rollBackLabels i) ;;
                     ret (PRet None)))
              end))
     end).

Definition applyVariables_unit (i : nat) (orgID userID : ID) : Proc :=
  PStep
    (modifyPkg (fun p =>
       set_mVariables (alter (variable_set_OrgID orgID) i (mVariables p)) p) ;;
     p <- getPkg ;;
     match mVariables p !! i with
     | None => ret (PRet None)
     | Some v =>
         if negb (variable_shouldApply v) then ret (PRet None)
         else
           ret (PStep
             (r <- applyVariable svc v ;;
              match r with
              | Err err => ret (PRet (Some (mkApplyErrBody (var_name v) (Error err))))
              | Ok influxVar =>
                  ret (PStep
                    (modifyPkg (fun p =>
                       set_mVariables
                         (alter (variable_set_id (Variable_ID influxVar)) i
                            (mVariables p)) p) ;;
                     modifySlices (push_rollBackVars i) ;;
                     ret (PRet None)))
              end))
     end).

Definition applyNotificationEndpoints_unit (i : nat) (orgID userID : ID) : Proc :=
  PStep
    (modifyPkg (fun p =>
       set_mNotificationEndpoints
         (alter (endpoint_set_OrgID orgID) i (mNotificationEndpoints p)) p) ;;
     p <- getPkg ;;
     match mNotificationEndpoints p !! i with
     | None => ret (PRet None)
     | Some endpoint =>
         ret (PStep
           (r <- applyNotificationEndpoint svc endpoint userID ;;
            match r with
            | Err err => ret (PRet (Some (mkApplyErrBody (ep_name endpoint) (Error err))))
            | Ok influxEndpoint =>
                ret (PStep
                  (modifyPkg (fun p =>
                     set_mNotificationEndpoints
                       (alter
                          (fun e =>
                             fold_left backfill_secret (Endpoint_SecretFields influxEndpoint)
                               (endpoint_set_id (Endpoint_GetID influxEndpoint) e))
                          i (mNotificationEndpoints p)) p) ;;
                   modifySlices (push_rollbackEndpoints i) ;;
                   ret (PRet None)))
            end))
     end).

Definition applyNotificationRules_unit (i : nat) (orgID userID : ID) : Proc :=
  PStep
    (modifyPkg (fun p =>
       set_mNotificationRules (alter (rule_set_orgID orgID) i (mNotificationRules p)) p) ;;
     p <- getPkg ;;
     match mNotificationRules p !! i with
     | None => ret (PRet None)
     | Some rule =>
         ret (PStep
           (r <- applyNotificationRule svc rule userID ;;
            match r with
            | Err err => ret (PRet (Some (mkApplyErrBody (rule_name rule) (Error err))))
            | Ok influxRule =>
                ret (PStep
                  (modifyPkg (fun p =>
                     set_mNotificationRules
                       (alter (rule_set_id (Rule_GetID influxRule)) i
                          (mNotificationRules p)) p) ;;
                   modifySlices (push_rollbackRules i) ;;
                   ret (PRet None)))
            end))
     end).

(** The unit of the secrets has no critical section before its call. *)
Definition applySecrets_unit (secrets : gmap string string) (i : nat)
    (orgID userID : ID) : Proc :=
  PStep
    (err <- call svc (PutSecrets orgID secrets) ;;
     match err with
     | Some e => ret (PRet (Some (mkApplyErrBody "secrets" (Error e))))
     | None =>
         ret (PStep
           (modifySlices (push_rollbackSecrets (map fst (map_to_list secrets))) ;;
            ret (PRet None)))
     end).

Definition applyTasks_unit (i : nat) (orgID userID : ID) : Proc :=
  PStep
    (modifyPkg (fun p => set_mTasks (alter (task_set_orgID orgID) i (mTasks p)) p) ;;
     p <- getPkg ;;
     match mTasks p !! i with
     | None => ret (PRet None)
     | Some t =>
         ret (PStep
           (r <- call svc (CreateTask
                             (mkTaskCreate TaskSystemType (task_flux t) userID
                                (task_description t) (task_Status t) (task_orgID t))) ;;
            match r with
            | Err err => ret (PRet (Some (mkApplyErrBody (task_name t) (Error err))))
            | Ok newTask =>
                ret (PStep
                  (modifyPkg (fun p =>
                     set_mTasks (alter (task_set_id (Task_ID newTask)) i (mTasks p)) p) ;;
                   modifySlices (push_rollbackTasks (task_set_id (Task_ID newTask) t)) ;;
                   ret (PRet None)))
            end))
     end).

Definition applyTelegrafs_unit (i : nat) (orgID userID : ID) : Proc :=
  PStep
    (modifyPkg (fun p =>
       set_mTelegrafs
         (alter (fun t => telegraf_set_config (TelegrafConfig_set_OrgID orgID (tele_config t)) t)
            i (mTelegrafs p)) p) ;;
     p <- getPkg ;;
     match mTelegrafs p !! i with
     | None => ret (PRet None)
     | Some t =>
         let cfg := telegraf_summarize t in
         ret (PStep
           (r <- call svc (CreateTelegrafConfig cfg userID) ;;
            match r with
            | Err err => ret (PRet (Some (mkApplyErrBody (Telegraf_Name cfg) (Error err))))
            | Ok cfg' =>
                ret (PStep
                  (modifyPkg (fun p =>
                     set_mTelegrafs (alter (telegraf_set_config cfg') i (mTelegrafs p)) p) ;;
                   modifySlices (push_rollbackTelegrafs i) ;;
                   ret (PRet None)))
            end))
     end).

(** The unit of a label mapping reads the mapping from the slice the
    applier was given and returns at once when there is nothing to create. *)
Definition applyLabelMappings_unit (labelMappings : list SummaryLabelMapping)
    (i : nat) (orgID userID : ID) : Proc :=
  match labelMappings !! i with
  | None => PRet None
  | Some mapping =>
      if slm_exists mapping || (slm_LabelID mapping =? 0)%N || (slm_ResourceID mapping =? 0)%N
      then PRet None
      else
        let m := mkLabelMapping (slm_LabelID mapping) (slm_ResourceID mapping)
                   (slm_ResourceType mapping) in
        PStep
          (err <- call svc (CreateLabelMapping m) ;;
           match err with
           | Some e =>
               ret (PRet (Some (mkApplyErrBody
                                  (slm_ResourceType mapping +:+ ":"
                                     +:+ ID_String (slm_ResourceID mapping)
                                     +:+ ":" +:+ ID_String (slm_LabelID mapping))
                                  (Error e))))
           | None =>
               ret (PStep (modifySlices (push_rollbackMappings m) ;; ret (PRet None)))
           end)
  end.

(** *** The coordinator *)

(** An applier with the code of its units given step by step; the number
    of units and the rollback closure are those of the applier. *)
Record capplier := mkCApplier {
  c_entries : nat;
  c_unit : nat → ID → ID → Proc;
  c_rollbacker : @rollbacker W }.

Definition with_units (a : @applier W) (unit : nat → ID → ID → Proc) : capplier :=
  mkCApplier (entries (app_creater a)) unit (app_rollbacker a).

(** A goroutine of a tier: the resource name of its applier, the index of
    its unit and the code it has left to run. *)
Record goroutine := mkGo { go_resource : string; go_index : nat; go_code : Proc }.

(** The goroutines of a tier in the order [runTilEnd] starts them: applier
    by applier, index by index. *)
Definition goroutines (orgID userID : ID) (appliers : list capplier) : list goroutine :=
  flat_map
    (fun a =>
       map (fun i => mkGo (resource (c_rollbacker a)) i (c_unit a i orgID userID))
         (seq 0 (c_entries a)))
    appliers.


Definition ctier_apps (appliers : list capplier) : list (string * nat) :=
  map (fun a => (resource (c_rollbacker a), c_entries a)) appliers.

(** What a run leaves behind: the events of the coordinator and of the
    sequential code, the events of a unit at work, and the return of each
    goroutine with whether its unit handed back an error. *)
Inductive CEvent :=
| CEv (e : Event)
| CWork (resource : string) (i : nat) (e : Event)
| CUnitEnd (resource : string) (i : nat) (failed : bool).

(** The goroutines of one [runTilEnd].  [todo] are the units the loop has
    still to start, [running] the goroutines in flight, [msgs] the messages
    handed to the error stream so far.  The loop starts the next unit when
    the semaphore has a free slot ([r.sem <- struct{}{}]); a goroutine in
    flight takes its next step; a goroutine whose unit has returned adds
    its error to the stream, if any, and frees its slot ([wg.Done()],
    [<-r.sem]); [wg.Wait()] returns when no unit is left to start and no
    goroutine is in flight. *)
Inductive tier_run (limit : nat)
    : list goroutine → list goroutine → list errMsg → @St W
      → list CEvent → list errMsg → @St W → Prop :=
| tier_wait msgs s :
    tier_run limit [] [] msgs s [] msgs s
| tier_go g todo running msgs s tr msgs' s' :
    length running < limit →
    tier_run limit todo (running ++ [g]) msgs s tr msgs' s' →
    tier_run limit (g :: todo) running msgs s
      (CEv (EvUnit (go_resource g) (go_index g)) :: tr) msgs' s'
| tier_step j g m todo running msgs s tr msgs' s' :
    running !! j = Some g →
    go_code g = PStep m →
    tier_run limit todo
      (<[j := mkGo (go_resource g) (go_index g) (val (m s))]> running)
      msgs (st (m s)) tr msgs' s' →
    tier_run limit todo running msgs s
      (map (CWork (go_resource g) (go_index g)) (evs (m s)) ++ tr) msgs' s'
| tier_return j g r todo running msgs s tr msgs' s' :
    running !! j = Some g →
    go_code g = PRet r →
    tier_run limit todo (delete j running)
      (msgs ++ match r with
               | Some e => [mkErrMsg (go_resource g) e]
               | None => []
               end)
      s tr msgs' s' →
    tier_run limit todo running msgs s
      (CUnitEnd (go_resource g) (go_index g) (bool_decide (is_Some r)) :: tr) msgs' s'.

(** *** Code with more than one outcome

    A computation relates the state it starts from to each value, final
    state and trace it may end with. *)
Definition RM (A : Type) : Type := @St W → A → @St W → list CEvent → Prop.

Definition rret {A} (a : A) : RM A :=
  fun s a' s' tr => a' = a ∧ s' = s ∧ tr = [].

Definition rbind {A B} (m : RM A) (k : A → RM B) : RM B :=
  fun s b s2 tr => ∃ a s1 t1 t2, m s a s1 t1 ∧ k a s1 b s2 t2 ∧ tr = t1 ++ t2.

(** Sequential code has one outcome. *)
Definition lift {A} (m : @M W A) : RM A :=
  fun s a s' tr => a = val (m s) ∧ s' = st (m s) ∧ tr = map CEv (evs (m s)).

(** [runTilEnd] with its goroutines: any run of them, then the error
    stream is closed. *)
Definition runTilEnd_c (limit : nat) (fate : ctxFate) (orgID userID : ID)
    (appliers : list capplier) (rollbacks : list (@rollbacker W))
    : RM (option error * list (@rollbacker W)) :=
  fun s r s' tr =>
    ∃ tr0 msgs,
      tier_run limit (goroutines orgID userID appliers) [] [] s tr0 msgs s'
      ∧ r = (errStream_close fate msgs, rollbacks ++ map c_rollbacker appliers)
      ∧ tr = tr0 ++ [CEv (EvTierEnd (ctier_apps appliers) (length msgs)
                            (bool_decide (is_Some (errStream_close fate msgs))))].

Fixpoint runGroups_c (limit : nat) (fate : nat → ctxFate) (k : nat) (orgID userID : ID)
    (groups : list (list capplier)) (rollbacks : list (@rollbacker W))
    : RM (option error * list (@rollbacker W)) :=
  match groups with
  | [] => rret (None, rollbacks)
  | group :: rest =>
      rbind (runTilEnd_c limit (fate k) orgID userID group rollbacks) (fun r =>
      match r.1 with
      | Some err => rret (internalErr (Some err), r.2)
      | None => runGroups_c limit fate (S k) orgID userID rest r.2
      end)
  end.

(** [Apply] from the creation of the coordinator to its [return]s, with
    the goroutines of its tiers. *)
Definition Apply_body_c (limit : nat) (fate : nat → ctxFate) (orgID userID : ID)
    (opt : ApplyOpt) : RM ((Summary * option error) * list (@rollbacker W)) :=
  rbind (lift (modifySlices (fun _ => Slices_empty))) (fun _ =>
  rbind (lift getPkg) (fun p =>
  let appliers :=
    [ [ with_units (applySecrets svc (MissingSecrets opt))
          (applySecrets_unit (MissingSecrets opt)) ];
      [ with_units (applyLabels svc (mLabels p)) applyLabels_unit ];
      [ with_units (applyVariables svc (mVariables p)) applyVariables_unit;
        with_units (applyBuckets svc (mBuckets p)) applyBuckets_unit;
        with_units (applyChecks svc (mChecks p)) applyChecks_unit;
        with_units (applyDashboards svc (mDashboards p)) applyDashboards_unit;
        with_units (applyNotificationEndpoints svc (mNotificationEndpoints p))
          applyNotificationEndpoints_unit;
        with_units (applyTasks svc (mTasks p)) applyTasks_unit;
        with_units (applyTelegrafs svc (mTelegrafs p)) applyTelegrafs_unit ] ] in
  rbind (runGroups_c limit fate 0 orgID userID appliers []) (fun r =>
  match r.1 with
  | Some err => rret ((Summary_zero, Some err), r.2)
  | None =>
      rbind (lift (applyNotificationRulesGenerator svc orgID)) (fun g =>
      match g with
      | Err err => rret ((Summary_zero, Some err), r.2)
      | Ok app =>
          rbind (runTilEnd_c limit (fate 3) orgID userID
                   [with_units app applyNotificationRules_unit] r.2) (fun r3 =>
          match r3.1 with
          | Some err => rret ((Summary_zero, Some err), r3.2)
          | None =>
              rbind (lift getPkg) (fun p =>
              rbind (runTilEnd_c limit (fate 4) orgID userID
                       [with_units (applyLabelMappings svc (labelMappings p))
                          (applyLabelMappings_unit (labelMappings p))] r3.2) (fun r4 =>
              match r4.1 with
              | Some err => rret ((Summary_zero, internalErr (Some err)), r4.2)
              | None =>
                  rbind (lift (modifyPkg (pkg_applySecrets (MissingSecrets opt)))) (fun _ =>
                  rbind (lift getPkg) (fun p =>
                  rret ((pkg_Summary p, None), r4.2)))
              end))
          end)
      end)
  end))).

(** The body together with the deferred rollback. *)
Definition Apply_run_c (limit : nat) (fate : nat → ctxFate) (orgID userID : ID)
    (opt : ApplyOpt) : RM (Summary * option error) :=
  rbind (Apply_body_c limit fate orgID userID opt) (fun b =>
  rbind (lift (rollback b.2 b.1.2 orgID)) (fun _ =>
  rret b.1)).

(** [Apply], with [limit] the service's [applyReqLimit]. *)
Definition Apply_c (limit : nat) (fate : nat → ctxFate) (orgID userID : ID)
    (opts : list ApplyOptFn) : RM (Summary * option error) :=
  rbind (lift (Apply_prepare svc orgID userID opts)) (fun r =>
  match r with
  | Err err => rret (Summary_zero, Some err)
  | Ok opt => Apply_run_c limit fate orgID userID opt
  end).

End Goroutines.

Arguments PRet {W} r.
Arguments CEv e.

(** ** The shape of a run of the tiers *)

(** The trace without the goroutines' returns: what the code with the
    units run one after the other leaves. *)
Definition strip (e : CEvent) : option Event :=
  match e with
  | CEv e | CWork _ _ e => Some e
  | CUnitEnd _ _ _ => None
  end.


Definition unit_start (e : CEvent) : option (string * nat) :=
  match e with CEv (EvUnit r i) => Some (r, i) | _ => None end.


Definition unit_end (e : CEvent) : option (string * nat * bool) :=
  match e with CUnitEnd r i failed => Some (r, i, failed) | _ => None end.




(** The sizes of the resource lists of a package. *)
Definition pkg_sizes (p : Pkg) : list nat :=
  [ length (mBuckets p); length (mChecks p); length (mDashboards p); length (mLabels p);
    length (mNotificationEndpoints p); length (mNotificationRules p); length (mTasks p);
    length (mTelegrafs p); length (mVariables p) ].



(** A unit whose steps leave only downstream calls in the trace and keep
    the sizes of the package's lists. *)
Inductive proc_ok {W} : @Proc W → Prop :=
| proc_ok_ret r : proc_ok (PRet r)
| proc_ok_step m :
    (∀ s, calls_only (evs (m s))
          ∧ pkg_sizes (pkg (st (m s))) = pkg_sizes (pkg s)
          ∧ proc_ok (val (m s))) →
    proc_ok (PStep m).


(** An applier with goroutines whose units, taken step by step with no
    other goroutine in between, do what the units of [a] do. *)
Definition runs_as {W} (c : @capplier W) (a : @applier W) : Prop :=
  c_entries c = entries (app_creater a)
  ∧ c_rollbacker c = app_rollbacker a
  ∧ (∀ i o u, proc_ok (c_unit c i o u))
  ∧ (∀ i o u s, i < c_entries c →
       proc_run (c_unit c i o u) s = creater_fn (app_creater a) i o u s).

(** The sequential code [m] is one of the runs of [rm]: from every state
    some run of [rm] ends with the value and the state of [m] and leaves,
    the returns of the goroutines apart, the events of [m]. *)
Definition seq_run {W A} (rm : @RM W A) (m : @M W A) : Prop :=
  ∀ s, ∃ tr, rm s (val (m s)) (st (m s)) tr ∧ omap strip tr = evs (m s).

(** * Properties *)

(** ** Strings in byte order *)

Lemma string_ltb_asym (a b : string) : String.ltb a b = true → String.ltb b a = false.
Proof.
  unfold String.ltb. rewrite (String.compare_antisym b a).
  destruct (String.compare a b); cbn; congruence.
Qed.

Lemma string_ltb_leb (a b : string) : String.ltb b a = false ↔ String.leb a b = true.
Proof.
  unfold String.ltb, String.leb. rewrite (String.compare_antisym b a).
  destruct (String.compare a b); cbn; split; congruence.
Qed.

Lemma string_ltb_tricho (a b : string) :
  String.ltb a b = false → String.ltb b a = false → a = b.
Proof.
  unfold String.ltb. intros H1 H2. apply String.compare_eq_iff.
  rewrite (String.compare_antisym b a) in H2.
  destruct (String.compare a b); cbn in *; congruence.
Qed.

Lemma string_ltb_irrefl (a : string) : String.ltb a a = false.
Proof.
  destruct (String.ltb a a) eqn:E; [|done].
  by rewrite (string_ltb_asym _ _ E) in E.
Qed.

(** ** [sort.Slice] sorts *)

Section sort_facts.
Context {A : Type} (less : A → A → bool).
Hypothesis less_asym : ∀ a b, less a b = true → less b a = false.

Lemma sort_insert_HdRel x y l :
  less x y = false →
  HdRel (fun a b => less b a = false) y l →
  HdRel (fun a b => less b a = false) y (sort_insert less x l).
Proof.
  intros Hxy Hl. destruct l as [|z l]; cbn.
  - by constructor.
  - destruct (less z x); constructor; [by inversion Hl | done].
Qed.

Lemma sort_insert_sorted x l : sorted_by less l → sorted_by less (sort_insert less x l).
Proof.
  unfold sorted_by. induction l as [|y l IH]; cbn; intros Hs.
  - repeat constructor.
  - inversion Hs as [|? ? Hs' Hhd]; subst.
    destruct (less y x) eqn:Hyx.
    + constructor; [by apply IH|]. apply sort_insert_HdRel; [by apply less_asym | done].
    + constructor; [done|]. by constructor.
Qed.

Lemma sort_Slice_sorted l : sorted_by less (sort_Slice less l).
Proof.
  induction l as [|x l IH]; cbn; [constructor|]. by apply sort_insert_sorted.
Qed.

Lemma sort_insert_perm x l : sort_insert less x l ≡ₚ x :: l.
Proof using Type.
  induction l as [|y l IH]; cbn; [done|].
  destruct (less y x); [|done]. rewrite IH. apply Permutation_swap.
Qed.

Lemma sort_Slice_perm l : sort_Slice less l ≡ₚ l.
Proof using Type.
  induction l as [|x l IH]; cbn; [done|]. by rewrite sort_insert_perm, IH.
Qed.
End sort_facts.

Lemma Sorted_weaken {A} (R R' : A → A → Prop) (l : list A) :
  (∀ a b, R a b → R' a b) → Sorted R l → Sorted R' l.
Proof.
  intros HR. induction 1 as [|x l Hs IH Hhd]; constructor; [done|].
  destruct Hhd; constructor; auto.
Qed.

Lemma diffs_of_map_sorted {L N} (m : gmap string (DiffEntry L N)) :
  Sorted name_le (@diffs_of_map L N m).
Proof.
  unfold diffs_of_map.
  eapply Sorted_weaken; [| apply sort_Slice_sorted; intros a b; apply string_ltb_asym].
  intros a b Hab. unfold name_le. by apply string_ltb_leb.
Qed.

Lemma labelMapping_less_asym (a b : DiffLabelMapping) :
  labelMapping_less a b = true → labelMapping_less b a = false.
Proof.
  unfold labelMapping_less.
  destruct (String.ltb (DLM_ResType a) (DLM_ResType b)) eqn:T1.
  { by rewrite (string_ltb_asym _ _ T1). }
  destruct (String.ltb (DLM_ResType b) (DLM_ResType a)) eqn:T2; [done|].
  destruct (String.ltb (DLM_ResName a) (DLM_ResName b)) eqn:N1.
  { by rewrite (string_ltb_asym _ _ N1). }
  destruct (String.ltb (DLM_ResName b) (DLM_ResName a)) eqn:N2; [done|].
  apply string_ltb_asym.
Qed.

Lemma labelMapping_less_le (a b : DiffLabelMapping) :
  labelMapping_less b a = false → labelMapping_le a b.
Proof.
  unfold labelMapping_less, labelMapping_le.
  destruct (String.ltb (DLM_ResType b) (DLM_ResType a)) eqn:T2; [done|].
  destruct (String.ltb (DLM_ResType a) (DLM_ResType b)) eqn:T1; [by left|].
  destruct (String.ltb (DLM_ResName b) (DLM_ResName a)) eqn:N2; [done|].
  destruct (String.ltb (DLM_ResName a) (DLM_ResName b)) eqn:N1.
  { intros _. right. split; [by apply string_ltb_tricho | by left]. }
  intros L. right. split; [by apply string_ltb_tricho|].
  right. split; [by apply string_ltb_tricho | by apply string_ltb_leb].
Qed.

Lemma labelMappings_sorted (l : list DiffLabelMapping) :
  Sorted labelMapping_le (sort_Slice labelMapping_less l).
Proof.
  eapply Sorted_weaken; [| apply sort_Slice_sorted, labelMapping_less_asym].
  intros a b. apply labelMapping_less_le.
Qed.

Section Facts.
Context {W : Type} (svc : ∀ c : Call, W → Resp c * W) `{D : Decls}.
Implicit Types (s : @St W).

(** ** The monad's equations *)

Lemma bind_evs {A B} (m : M A) (k : A → M B) s :
  evs (bind m k s) = evs (m s) ++ evs (k (val (m s)) (st (m s))).
Proof. reflexivity. Qed.

Lemma bind_val {A B} (m : M A) (k : A → M B) s :
  val (bind m k s) = val (k (val (m s)) (st (m s))).
Proof. reflexivity. Qed.

Lemma bind_st {A B} (m : M A) (k : A → M B) s :
  st (bind m k s) = st (k (val (m s)) (st (m s))).
Proof. reflexivity. Qed.

(** ** Units of work and the [shouldApply] gate *)

Lemma applyBuckets_createFn_skip s i orgID userID b :
  mBuckets (pkg s) !! i = Some b →
  bucket_shouldApply (bucket_set_OrgID orgID b) = false →
  let r := applyBuckets_createFn svc i orgID userID s in
  evs r = [] ∧ val r = None
  ∧ bkt_id <$> mBuckets (pkg (st r)) !! i = Some (bkt_id b)
  ∧ slices (st r) = slices s.
Proof.
  intros Hb Hgate. unfold applyBuckets_createFn. cbn.
  rewrite list_lookup_alter_eq, Hb. cbn. rewrite Hgate. cbn.
  rewrite list_lookup_alter_eq, Hb. done.
Qed.

Lemma applyLabels_createFn_skip s i orgID userID l :
  mLabels (pkg s) !! i = Some l →
  label_shouldApply (label_set_OrgID orgID l) = false →
  let r := applyLabels_createFn svc i orgID userID s in
  evs r = [] ∧ val r = None
  ∧ lbl_id <$> mLabels (pkg (st r)) !! i = Some (lbl_id l)
  ∧ slices (st r) = slices s.
Proof.
  intros Hl Hgate. unfold applyLabels_createFn. cbn.
  rewrite list_lookup_alter_eq, Hl. cbn. rewrite Hgate. cbn.
  rewrite list_lookup_alter_eq, Hl. done.
Qed.

Lemma applyVariables_createFn_skip s i orgID userID v :
  mVariables (pkg s) !! i = Some v →
  variable_shouldApply (variable_set_OrgID orgID v) = false →
  let r := applyVariables_createFn svc i orgID userID s in
  evs r = [] ∧ val r = None
  ∧ var_id <$> mVariables (pkg (st r)) !! i = Some (var_id v)
  ∧ slices (st r) = slices s.
Proof.
  intros Hv Hgate. unfold applyVariables_createFn. cbn.
  rewrite list_lookup_alter_eq, Hv. cbn. rewrite Hgate. cbn.
  rewrite list_lookup_alter_eq, Hv. done.
Qed.

(** Case on the oracle's answer to the call in the goal and exhibit it. *)
Ltac one_write_tac :=
  match goal with |- context [svc ?c ?w] => destruct (svc c w) as [[?|?] ?] end;
  cbn;
  match goal with
  | |- ∃ c r, [EvCall ?c0 ?r0] = _ ∧ _ => exists c0, r0; split; reflexivity
  end.

Lemma applyChecks_createFn_writes s i orgID userID c :
  mChecks (pkg s) !! i = Some c →
  one_write (evs (applyChecks_createFn svc i orgID userID s)).
Proof.
  intros Hc. unfold applyChecks_createFn, one_write. cbn.
  rewrite list_lookup_alter_eq, Hc. cbn. unfold applyCheck.
  destruct (chk_existing (check_set_orgID orgID c)); cbn;
    one_write_tac.
Qed.

Lemma applyDashboards_createFn_writes s i orgID userID d :
  mDashboards (pkg s) !! i = Some d →
  one_write (evs (applyDashboards_createFn svc i orgID userID s)).
Proof.
  intros Hd. unfold applyDashboards_createFn, one_write. cbn.
  rewrite list_lookup_alter_eq, Hd. cbn.
  one_write_tac.
Qed.

Lemma applyNotificationEndpoints_createFn_writes s i orgID userID e :
  mNotificationEndpoints (pkg s) !! i = Some e →
  one_write (evs (applyNotificationEndpoints_createFn svc i orgID userID s)).
Proof.
  intros He. unfold applyNotificationEndpoints_createFn, one_write. cbn.
  rewrite list_lookup_alter_eq, He. cbn. unfold applyNotificationEndpoint.
  destruct (ep_existing (endpoint_set_OrgID orgID e)); cbn;
    one_write_tac.
Qed.

Lemma applyTasks_createFn_writes s i orgID userID t :
  mTasks (pkg s) !! i = Some t →
  one_write (evs (applyTasks_createFn svc i orgID userID s)).
Proof.
  intros Ht. unfold applyTasks_createFn, one_write. cbn.
  rewrite list_lookup_alter_eq, Ht. cbn.
  one_write_tac.
Qed.

Lemma applyTelegrafs_createFn_writes s i orgID userID t :
  mTelegrafs (pkg s) !! i = Some t →
  one_write (evs (applyTelegrafs_createFn svc i orgID userID s)).
Proof.
  intros Ht. unfold applyTelegrafs_createFn, one_write. cbn.
  rewrite list_lookup_alter_eq, Ht. cbn.
  one_write_tac.
Qed.

(** C10.  A bucket, label or variable whose [shouldApply()] is false (on the
    copy the unit takes after stamping the org id) gets no downstream call at
    all, keeps its id slot, and leaves every rollback slice as it was.  A
    check, dashboard, endpoint, task or telegraf is gated by no such
    predicate: its unit always issues exactly one create or update call. *)
Theorem C10_shouldApply_gate :
  (∀ s i orgID userID b,
     mBuckets (pkg s) !! i = Some b →
     bucket_shouldApply (bucket_set_OrgID orgID b) = false →
     let r := applyBuckets_createFn svc i orgID userID s in
     evs r = [] ∧ val r = None
     ∧ bkt_id <$> mBuckets (pkg (st r)) !! i = Some (bkt_id b)
     ∧ slices (st r) = slices s)
  ∧ (∀ s i orgID userID l,
     mLabels (pkg s) !! i = Some l →
     label_shouldApply (label_set_OrgID orgID l) = false →
     let r := applyLabels_createFn svc i orgID userID s in
     evs r = [] ∧ val r = None
     ∧ lbl_id <$> mLabels (pkg (st r)) !! i = Some (lbl_id l)
     ∧ slices (st r) = slices s)
  ∧ (∀ s i orgID userID v,
     mVariables (pkg s) !! i = Some v →
     variable_shouldApply (variable_set_OrgID orgID v) = false →
     let r := applyVariables_createFn svc i orgID userID s in
     evs r = [] ∧ val r = None
     ∧ var_id <$> mVariables (pkg (st r)) !! i = Some (var_id v)
     ∧ slices (st r) = slices s)
  ∧ (∀ s i orgID userID c,
     mChecks (pkg s) !! i = Some c →
     one_write (evs (applyChecks_createFn svc i orgID userID s)))
  ∧ (∀ s i orgID userID d,
     mDashboards (pkg s) !! i = Some d →
     one_write (evs (applyDashboards_createFn svc i orgID userID s)))
  ∧ (∀ s i orgID userID e,
     mNotificationEndpoints (pkg s) !! i = Some e →
     one_write (evs (applyNotificationEndpoints_createFn svc i orgID userID s)))
  ∧ (∀ s i orgID userID t,
     mTasks (pkg s) !! i = Some t →
     one_write (evs (applyTasks_createFn svc i orgID userID s)))
  ∧ (∀ s i orgID userID t,
     mTelegrafs (pkg s) !! i = Some t →
     one_write (evs (applyTelegrafs_createFn svc i orgID userID s))).
Proof.
  repeat split_and; intros.
  - by apply applyBuckets_createFn_skip.
  - by apply applyLabels_createFn_skip.
  - by apply applyVariables_createFn_skip.
  - by eapply applyChecks_createFn_writes.
  - by eapply applyDashboards_createFn_writes.
  - by eapply applyNotificationEndpoints_createFn_writes.
  - by eapply applyTasks_createFn_writes.
  - by eapply applyTelegrafs_createFn_writes.
Qed.

(** ** The dry run's diff lists are sorted *)

Lemma bindR_Ok {A B} (m : M (result A)) (k : A → M (result B)) s b :
  val (bindR m k s) = Ok b →
  ∃ a, val (m s) = Ok a ∧ val (k a (st (m s))) = Ok b.
Proof.
  unfold bindR. rewrite bind_val. destruct (val (m s)) as [a|e]; [eauto|done].
Qed.

Lemma dryRunByName_sorted {R L} get put name setExisting
    (find : R → M (option L)) newDiff s :
  Sorted name_le (val (dryRunByName get put name setExisting find newDiff s)).
Proof. apply diffs_of_map_sorted. Qed.

Lemma dryRunNotificationEndpoints_sorted orgID s l :
  val (dryRunNotificationEndpoints svc orgID s) = Ok l → Sorted name_le l.
Proof.
  unfold dryRunNotificationEndpoints. rewrite bind_val.
  destruct (val (call svc (FindNotificationEndpoints orgID) s)); [|done].
  intros [= <-]. apply diffs_of_map_sorted.
Qed.

Lemma dryRunLabelMappings_sorted s l :
  val (dryRunLabelMappings svc s) = Ok l → Sorted labelMapping_le l.
Proof.
  unfold dryRunLabelMappings. rewrite bind_val.
  intros (diffs & _ & [= <-])%bindR_Ok. apply labelMappings_sorted.
Qed.

Lemma bind_val_inv {A B C} (m : M A) (k : A → M B) s (P : B → C) v :
  P (val (bind m k s)) = v → ∃ s0 s', P (val (k (val (m s0)) s')) = v.
Proof. rewrite bind_val. eauto. Qed.

Lemma DryRun_primary_sorted orgID s d :
  val (DryRun_primary svc orgID s) = Ok d →
  diff_sorted d.
Proof.
  unfold DryRun_primary. intros (_ & _ & H)%bindR_Ok.
  revert H. generalize (st (dryRunSecrets svc orgID s)). intros s1 H.
  apply (bind_val_inv _ _ _ id) in H as (sb & s2 & H).
  apply (bind_val_inv _ _ _ id) in H as (sc & s3 & H).
  apply (bind_val_inv _ _ _ id) in H as (sd & s4 & H).
  apply (bind_val_inv _ _ _ id) in H as (sl & s5 & H).
  apply (bind_val_inv _ _ _ id) in H as (st' & s6 & H).
  apply (bind_val_inv _ _ _ id) in H as (sg & s7 & H).
  apply (bind_val_inv _ _ _ id) in H as (sv & s8 & H).
  unfold id in H. apply bindR_Ok in H as (eps & Heps & H).
  apply dryRunNotificationEndpoints_sorted in Heps.
  injection H as <-.
  repeat split; cbn [Buckets Checks Labels Variables NotificationEndpoints LabelMappings];
    first [apply dryRunByName_sorted | done | constructor].
Qed.

Lemma DryRun_run_sorted orgID opts s d pe :
  val (DryRun_run svc orgID opts s) = Ok (d, pe) → diff_sorted d.
Proof.
  unfold DryRun_run.
  intros (pe' & _ & H)%bindR_Ok.
  apply bindR_Ok in H as (d1 & Hd1 & H).
  apply bindR_Ok in H as (d2 & Hd2 & H).
  apply bindR_Ok in H as (d3 & Hd3 & [= <- _]).
  apply DryRun_primary_sorted in Hd1 as (Hb & Hc & Hl & Hv & He & _).
  unfold DryRun_rules in Hd2. apply bindR_Ok in Hd2 as (rules & _ & [= <-]).
  unfold DryRun_labelMappings in Hd3. apply bindR_Ok in Hd3 as (lms & Hlms & [= <-]).
  apply dryRunLabelMappings_sorted in Hlms.
  by repeat split.
Qed.

(** C9.  Whatever [DryRun] returns, the diff lists of buckets, checks,
    labels, variables and notification endpoints ascend by name, and the
    label-mapping diffs ascend by resource type, then resource name, then
    label name. *)
Theorem C9_diffs_sorted orgID userID opts s :
  diff_sorted (val (DryRun svc orgID userID opts s)).1.2.
Proof.
  unfold DryRun. rewrite !bind_val.
  destruct (val (DryRun_run svc orgID opts _)) as [[d pe]|e] eqn:Hrun.
  - apply DryRun_run_sorted in Hrun. exact Hrun.
  - repeat split; constructor.
Qed.

(** ** The dry-run loop over a named kind *)

Section dryRunByName_facts.
Context {R L : Type}.
Context (get : Pkg → list R) (put : list R → Pkg → Pkg).
Context (name : R → string) (setExisting : option L → R → R).
Context (find : R → @M W (option L)) (newDiff : R → option L → DiffEntry L R).
(** The lookup is one call whose answer is decoded; [missed n] recognises the
    event of a lookup for the name [n] that yields no live counterpart. *)
Context (lookup : R → Call) (decode : ∀ r, Resp (lookup r) → option L).
Context (missed : string → Event → Prop).
Hypothesis get_put : ∀ l p, get (put l p) = l.
Hypothesis name_setExisting : ∀ o r, name (setExisting o r) = name r.
Hypothesis find_eq : ∀ r s,
  find r s = bind (call svc (lookup r)) (fun resp => ret (decode r resp)) s.
Hypothesis missed_lookup : ∀ n r resp,
  missed n (EvCall (lookup r) resp) → n = name r ∧ decode r resp = None.

Abbreviation step := (dryRunByName_step get put name setExisting find newDiff).
Abbreviation names s := (map name (get (pkg s))).

Lemma step_None m i s :
  get (pkg s) !! i = None → step m i s = mkRes m s [].
Proof. intros H. unfold dryRunByName_step, bind. cbn. by rewrite H. Qed.

Lemma step_evs m i s x :
  get (pkg s) !! i = Some x →
  evs (step m i s) = [EvCall (lookup x) (svc (lookup x) (world s)).1].
Proof.
  intros H. unfold dryRunByName_step. cbn. rewrite H. cbn.
  rewrite find_eq. cbn. by destruct (decode x _).
Qed.

Lemma step_missed m i s x :
  get (pkg s) !! i = Some x →
  decode x (svc (lookup x) (world s)).1 = None →
  val (step m i s) = <[name x := newDiff x None]> m
  ∧ pkg (st (step m i s)) = pkg s.
Proof.
  intros H Hd. unfold dryRunByName_step. cbn. rewrite H. cbn.
  rewrite find_eq. cbn. by rewrite Hd.
Qed.

Lemma step_frame m i s :
  (∀ j, j ≠ i → get (pkg (st (step m i s))) !! j = get (pkg s) !! j)
  ∧ names (st (step m i s)) = names s
  ∧ (∀ k, names s !! i ≠ Some k → val (step m i s) !! k = m !! k).
Proof.
  destruct (get (pkg s) !! i) as [x|] eqn:H.
  2: { rewrite (step_None _ _ _ H). done. }
  assert (Hn : names s !! i = Some (name x)) by (by rewrite list_lookup_fmap, H).
  unfold dryRunByName_step. cbn. rewrite H. cbn. rewrite find_eq. cbn.
  destruct (decode x _) as [l|]; cbn.
  - rewrite get_put. split_and!.
    + intros j Hj. by rewrite list_lookup_insert_ne.
    + rewrite list_fmap_insert, name_setExisting.
      apply list_insert_id. done.
    + intros k Hk. rewrite lookup_insert_ne; [done|]. congruence.
  - split_and!; [done..|]. intros k Hk. rewrite lookup_insert_ne; [done|]. congruence.
Qed.

Lemma fold_frame idxs : ∀ m s,
  let r := foldM step idxs m s in
  (∀ j, j ∉ idxs → get (pkg (st r)) !! j = get (pkg s) !! j)
  ∧ names (st r) = names s
  ∧ (∀ k, (∀ j, j ∈ idxs → names s !! j ≠ Some k) → val r !! k = m !! k).
Proof.
  induction idxs as [|i idxs IH]; intros m s; cbn zeta; [done|].
  cbn [foldM]. rewrite !bind_st, !bind_val.
  destruct (step_frame m i s) as (Hg & Hn & Hm).
  destruct (IH (val (step m i s)) (st (step m i s))) as (Hg' & Hn' & Hm').
  split_and!.
  - intros j Hj. rewrite Hg', Hg; [done|..]; set_solver.
  - by rewrite Hn', Hn.
  - intros k Hk. rewrite Hm', Hm; [done|..].
    + apply Hk. set_solver.
    + intros j Hj. rewrite Hn. apply Hk. set_solver.
Qed.

Lemma fold_missed_origin idxs n : ∀ m s,
  Exists (missed n) (evs (foldM step idxs m s)) →
  ∃ j, j ∈ idxs ∧ names s !! j = Some n.
Proof.
  induction idxs as [|i idxs IH]; intros m s; cbn [foldM].
  - by intros ?%Exists_nil.
  - rewrite bind_evs. intros [H|H]%Exists_app.
    + destruct (get (pkg s) !! i) as [x|] eqn:Hx.
      2: { rewrite (step_None _ _ _ Hx) in H. by apply Exists_nil in H. }
      rewrite (step_evs _ _ _ _ Hx) in H. apply Exists_cons in H as [H|H].
      2: { by apply Exists_nil in H. }
      apply missed_lookup in H as [-> _].
      exists i. split; [set_solver|]. by rewrite list_lookup_fmap, Hx.
    + apply IH in H as (j & Hj & Hn). exists j. split; [set_solver|].
      by rewrite <- (proj1 (proj2 (step_frame m i s))).
Qed.

Lemma fold_missed idxs : ∀ m s i x,
  NoDup idxs →
  (∀ j k n, j ∈ idxs → k ∈ idxs →
            names s !! j = Some n → names s !! k = Some n → j = k) →
  i ∈ idxs →
  get (pkg s) !! i = Some x →
  Exists (missed (name x)) (evs (foldM step idxs m s)) →
  val (foldM step idxs m s) !! name x = Some (newDiff x None)
  ∧ get (pkg (st (foldM step idxs m s))) !! i = Some x.
Proof.
  induction idxs as [|j idxs IH]; intros m s i x Hnd Hinj Hi Hx; cbn [foldM].
  { by intros ?%Exists_nil. }
  rewrite bind_evs, bind_val, bind_st.
  apply NoDup_cons in Hnd as [Hj Hnd].
  assert (Hxn : names s !! i = Some (name x)) by (by rewrite list_lookup_fmap, Hx).
  destruct (step_frame m j s) as (Hg & Hn & Hm).
  destruct (fold_frame idxs (val (step m j s)) (st (step m j s))) as (Hg' & Hn' & Hm').
  intros [H|H]%Exists_app.
  - destruct (get (pkg s) !! j) as [xj|] eqn:Hxj.
    2: { rewrite (step_None _ _ _ Hxj) in H. by apply Exists_nil in H. }
    rewrite (step_evs _ _ _ _ Hxj) in H. apply Exists_cons in H as [H|H].
    2: { by apply Exists_nil in H. }
    apply missed_lookup in H as [Hname Hdec].
    assert (i = j) as ->.
    { apply (Hinj i j (name x)); [done | set_solver | done |].
      by rewrite list_lookup_fmap, Hxj, Hname. }
    assert (xj = x) as -> by congruence.
    destruct (step_missed m j s x Hxj Hdec) as [Hv Hp].
    split.
    + rewrite Hm'.
      * by rewrite Hv, lookup_insert_eq.
      * intros k Hk Hkn. rewrite Hn in Hkn.
        assert (k = j) by (apply (Hinj k j (name x)); [set_solver.. | done | done]).
        congruence.
    + by rewrite Hg', Hp.
  - assert (i ≠ j) as Hij.
    { intros ->. apply fold_missed_origin in H as (k & Hk & Hkn).
      rewrite Hn in Hkn.
      assert (k = j) by (apply (Hinj k j (name x)); [set_solver.. | done | done]).
      congruence. }
    apply IH; [done | | set_solver | by rewrite Hg | done].
    intros a b n Ha Hb. rewrite Hn. apply Hinj; set_solver.
Qed.

(** A failed or empty lookup for a resource of unique name leaves a diff
    entry without live counterpart in the result and the resource as it
    was. *)
Lemma dryRunByName_missed s i x :
  NoDup (names s) →
  get (pkg s) !! i = Some x →
  Exists (missed (name x))
    (evs (dryRunByName get put name setExisting find newDiff s)) →
  let r := dryRunByName get put name setExisting find newDiff s in
  newDiff x None ∈ val r ∧ get (pkg (st r)) !! i = Some x.
Proof.
  intros Hnd Hx Hex. unfold dryRunByName in *. cbn in *.
  rewrite app_nil_r in Hex.
  destruct (fold_missed (seq 0 (length (get (pkg s)))) ∅ s i x) as [Hv Hg]; try done.
  - apply NoDup_seq.
  - intros j k n _ _ Hj Hk. by eapply NoDup_lookup.
  - apply elem_of_seq. apply lookup_lt_Some in Hx. lia.
  - split; [|done]. unfold diffs_of_map. rewrite sort_Slice_perm.
    apply list_elem_of_fmap. exists (name x, newDiff x None). split; [done|].
    by apply elem_of_map_to_list.
Qed.
End dryRunByName_facts.

(** C8.  In the dry run of buckets, checks and labels, when the find call
    for a resource of unique name fails, with a not-found error or any
    other, (for a label: also when it answers with no label,) the returned
    list holds the diff entry of that name with no live counterpart and
    [IsNew], and the resource is left as it was: its [existing] slot is not
    written. *)
Theorem C8_lookup_failure_is_new :
  (∀ s orgID i b,
     NoDup (map bkt_name (mBuckets (pkg s))) →
     mBuckets (pkg s) !! i = Some b →
     Exists (bucket_lookup_failed (bkt_name b)) (evs (dryRunBuckets svc orgID s)) →
     let r := dryRunBuckets svc orgID s in
     ∃ d, d ∈ val r ∧ Diff_Name d = bkt_name b ∧ Diff_Old d = None ∧ IsNew d = true
          ∧ bkt_existing <$> mBuckets (pkg (st r)) !! i = Some (bkt_existing b))
  ∧ (∀ s orgID i c,
     NoDup (map chk_name (mChecks (pkg s))) →
     mChecks (pkg s) !! i = Some c →
     Exists (check_lookup_failed (chk_name c)) (evs (dryRunChecks svc orgID s)) →
     let r := dryRunChecks svc orgID s in
     ∃ d, d ∈ val r ∧ Diff_Name d = chk_name c ∧ Diff_Old d = None ∧ IsNew d = true
          ∧ chk_existing <$> mChecks (pkg (st r)) !! i = Some (chk_existing c))
  ∧ (∀ s orgID i l,
     NoDup (map lbl_name (mLabels (pkg s))) →
     mLabels (pkg s) !! i = Some l →
     Exists (label_lookup_failed (lbl_name l)) (evs (dryRunLabels svc orgID s)) →
     let r := dryRunLabels svc orgID s in
     ∃ d, d ∈ val r ∧ Diff_Name d = lbl_name l ∧ Diff_Old d = None ∧ IsNew d = true
          ∧ lbl_existing <$> mLabels (pkg (st r)) !! i = Some (lbl_existing l)).
Proof.
  split_and!.
  - intros s orgID i b Hnd Hb Hex r.
    destruct (dryRunByName_missed mBuckets set_mBuckets bkt_name bucket_set_existing
                (findBucket svc orgID) newDiffBucket
                (fun b => FindBucketByName orgID (bkt_name b))
                (fun _ r => match r with Ok e => Some e | Err _ => None end)
                bucket_lookup_failed) with s i b as [Hin Hg]; try done.
    + intros n x resp [<- Herr]. split; [done|]. by destruct resp.
    + exists (newDiffBucket b None). subst r. unfold dryRunBuckets. by rewrite Hg.
  - intros s orgID i c Hnd Hc Hex r.
    destruct (dryRunByName_missed mChecks set_mChecks chk_name check_set_existing
                (findCheck svc orgID) newDiffCheck
                (fun c => FindCheck (chk_name c) orgID)
                (fun _ r => match r with Ok e => Some e | Err _ => None end)
                check_lookup_failed) with s i c as [Hin Hg]; try done.
    + intros n x resp [<- Herr]. split; [done|]. by destruct resp.
    + exists (newDiffCheck c None). subst r. unfold dryRunChecks. by rewrite Hg.
  - intros s orgID i l Hnd Hl Hex r.
    destruct (dryRunByName_missed mLabels set_mLabels lbl_name label_set_existing
                (findLabel svc orgID) newDiffLabel
                (fun l => FindLabels (lbl_name l) (Some orgID) 1)
                (fun _ r => match r with Ok (e :: _) => Some e | Ok [] | Err _ => None end)
                label_lookup_failed) with s i l as [Hin Hg]; try done.
    + intros n x resp [<- Hemp]. split; [done|]. by destruct resp as [[|]|].
    + exists (newDiffLabel l None). subst r. unfold dryRunLabels. by rewrite Hg.
Qed.

(** ** What the pieces leave in the trace

    The dry run, the units of work, the rollback closures and the reference
    resolver leave downstream calls in the trace and nothing else. *)

Lemma foldM_calls_only {A B} (f : B → A → M B) l :
  (∀ b a s, calls_only (evs (f b a s))) → ∀ b s, calls_only (evs (foldM f l b s)).
Proof.
  intros Hf. induction l as [|x l IH]; intros b s; cbn [foldM].
  - constructor.
  - rewrite bind_evs. apply Forall_app. split; [apply Hf | apply IH].
Qed.

Ltac calls_tac :=
  repeat match goal with
  | |- calls_only _ => unfold calls_only
  | |- Forall is_call [] => constructor
  | |- Forall is_call (_ ++ _) => apply Forall_app; split
  | |- Forall is_call (_ :: _) => constructor; [exact I|]
  | |- Forall is_call (evs (bind _ _ _)) => rewrite bind_evs
  | |- Forall is_call (evs (ret _ _)) => constructor
  | |- Forall is_call (evs (getPkg _)) => constructor
  | |- Forall is_call (evs (getSlices _)) => constructor
  | |- Forall is_call (evs (modifyPkg _ _)) => constructor
  | |- Forall is_call (evs (modifySlices _ _)) => constructor
  | |- Forall is_call (evs (call _ _ _)) => constructor; [exact I | constructor]
  | |- Forall is_call (evs (foldM _ _ _ _)) => apply foldM_calls_only; intros
  | |- Forall is_call (evs (bindR _ _ _)) => unfold bindR
  | |- Forall is_call (evs (match ?x with _ => _ end _)) => destruct x
  | |- Forall is_call (evs (if ?x then _ else _)) => destruct x
  | |- Forall is_call (evs ((if ?x then _ else _) _)) => destruct x
  end.

Lemma dryRunByName_calls_only {R L} get put name setExisting
    (find : R → M (option L)) newDiff :
  (∀ r s, calls_only (evs (find r s))) →
  ∀ s, calls_only (evs (dryRunByName get put name setExisting find newDiff s)).
Proof.
  intros Hfind s. unfold dryRunByName. calls_tac.
  unfold dryRunByName_step. calls_tac. apply Hfind.
Qed.

Lemma dryRunSecrets_calls_only o s : calls_only (evs (dryRunSecrets svc o s)).
Proof. unfold dryRunSecrets. calls_tac. Qed.

Lemma dryRunBuckets_calls_only o s : calls_only (evs (dryRunBuckets svc o s)).
Proof. apply dryRunByName_calls_only. intros. unfold findBucket. calls_tac. Qed.

Lemma dryRunChecks_calls_only o s : calls_only (evs (dryRunChecks svc o s)).
Proof. apply dryRunByName_calls_only. intros. unfold findCheck. calls_tac. Qed.

Lemma dryRunLabels_calls_only o s : calls_only (evs (dryRunLabels svc o s)).
Proof. apply dryRunByName_calls_only. intros. unfold findLabel. calls_tac. Qed.

Lemma dryRunVariables_calls_only o s : calls_only (evs (dryRunVariables svc o s)).
Proof. apply dryRunByName_calls_only. intros. unfold findVariable. calls_tac. Qed.

Lemma dryRunNotificationEndpoints_calls_only o s :
  calls_only (evs (dryRunNotificationEndpoints svc o s)).
Proof.
  unfold dryRunNotificationEndpoints. calls_tac.
  unfold dryRunNotificationEndpoints_step. calls_tac.
Qed.

Lemma dryRunNotificationRules_calls_only o s :
  calls_only (evs (dryRunNotificationRules svc o s)).
Proof. unfold dryRunNotificationRules. calls_tac. Qed.

Lemma mappingFn_calls_only la d i n b s : calls_only (evs (mappingFn la d i n b s)).
Proof. unfold mappingFn. calls_tac. Qed.

Lemma dryRunResourceLabelMapping_calls_only la d s :
  calls_only (evs (dryRunResourceLabelMapping svc la d s)).
Proof.
  unfold dryRunResourceLabelMapping. calls_tac; apply mappingFn_calls_only.
Qed.

Lemma dryRunLabelMappings_loop_calls_only las : ∀ d s,
  calls_only (evs (dryRunLabelMappings_loop svc las d s)).
Proof.
  induction las as [|la las IH]; intros d s; cbn [dryRunLabelMappings_loop].
  - calls_tac.
  - rewrite bind_evs. apply Forall_app. split.
    + apply dryRunResourceLabelMapping_calls_only.
    + destruct (val _); [apply IH | calls_tac].
Qed.

Lemma dryRunLabelMappings_calls_only s : calls_only (evs (dryRunLabelMappings svc s)).
Proof.
  unfold dryRunLabelMappings. calls_tac; apply dryRunLabelMappings_loop_calls_only.
Qed.

Lemma DryRun_prepare_calls_only opts s : calls_only (evs (DryRun_prepare opts s)).
Proof. unfold DryRun_prepare. calls_tac. Qed.

Lemma DryRun_primary_calls_only o s : calls_only (evs (DryRun_primary svc o s)).
Proof.
  unfold DryRun_primary. calls_tac;
    first [ apply dryRunSecrets_calls_only | apply dryRunBuckets_calls_only
          | apply dryRunChecks_calls_only | apply dryRunLabels_calls_only
          | apply dryRunVariables_calls_only
          | apply dryRunNotificationEndpoints_calls_only
          | unfold dryRunDashboards, dryRunTasks, dryRunTelegraf; calls_tac ].
Qed.

Lemma DryRun_run_calls_only o opts s : calls_only (evs (DryRun_run svc o opts s)).
Proof.
  unfold DryRun_run. calls_tac; unfold DryRun_rules, DryRun_labelMappings; calls_tac;
    first [ apply DryRun_prepare_calls_only | apply DryRun_primary_calls_only
          | apply dryRunNotificationRules_calls_only
          | apply dryRunLabelMappings_calls_only ].
Qed.

Lemma deleteByIDs_calls_only resource n
    (deleteFn : ID → M (option error)) (iterFn : nat → M ID) :
  (∀ id s, calls_only (evs (deleteFn id s))) →
  (∀ i s, calls_only (evs (iterFn i s))) →
  ∀ s, calls_only (evs (deleteByIDs resource n deleteFn iterFn s)).
Proof.
  intros Hd Hi s. unfold deleteByIDs. rewrite bind_evs. apply Forall_app. split.
  2: { calls_tac. }
  generalize (@nil string) (seq 0 n) s. intros errs idxs. revert errs.
  induction idxs as [|i idxs IH]; intros errs s'; cbn [deleteByIDs_loop].
  - calls_tac.
  - rewrite !bind_evs. repeat (apply Forall_app; split); [apply Hi | apply Hd | apply IH].
Qed.

Lemma applyBuckets_quiet l : quiet (applyBuckets svc l).
Proof.
  unfold quiet, applyBuckets; cbn [app_creater app_rollbacker creater_fn rollbacker_fn];
    split; intros.
  - unfold applyBuckets_createFn. calls_tac. unfold applyBucket. calls_tac.
  - calls_tac. unfold rollbackBuckets. calls_tac. unfold rollbackBuckets_one. calls_tac.
Qed.

Lemma applyChecks_quiet l : quiet (applyChecks svc l).
Proof.
  unfold quiet, applyChecks; cbn [app_creater app_rollbacker creater_fn rollbacker_fn];
    split; intros.
  - unfold applyChecks_createFn. calls_tac. unfold applyCheck. calls_tac.
  - calls_tac. unfold rollbackChecks. calls_tac. unfold rollbackChecks_one. calls_tac.
Qed.

Lemma applyDashboards_quiet l : quiet (applyDashboards svc l).
Proof.
  unfold quiet, applyDashboards; cbn [app_creater app_rollbacker creater_fn rollbacker_fn];
    split; intros.
  - unfold applyDashboards_createFn. calls_tac. unfold applyDashboard. calls_tac.
  - calls_tac. apply deleteByIDs_calls_only; intros; calls_tac.
Qed.

Lemma applyLabels_quiet l : quiet (applyLabels svc l).
Proof.
  unfold quiet, applyLabels; cbn [app_creater app_rollbacker creater_fn rollbacker_fn];
    split; intros.
  - unfold applyLabels_createFn. calls_tac. unfold applyLabel. calls_tac.
  - calls_tac. unfold rollbackLabels. calls_tac. unfold rollbackLabels_one. calls_tac.
Qed.

Lemma applyVariables_quiet l : quiet (applyVariables svc l).
Proof.
  unfold quiet, applyVariables; cbn [app_creater app_rollbacker creater_fn rollbacker_fn];
    split; intros.
  - unfold applyVariables_createFn. calls_tac. unfold applyVariable. calls_tac.
  - calls_tac. unfold rollbackVariables. calls_tac. unfold rollbackVariables_one. calls_tac.
Qed.

Lemma applyNotificationEndpoints_quiet l : quiet (applyNotificationEndpoints svc l).
Proof.
  unfold quiet, applyNotificationEndpoints; cbn [app_creater app_rollbacker creater_fn rollbacker_fn];
    split; intros.
  - unfold applyNotificationEndpoints_createFn. calls_tac.
    unfold applyNotificationEndpoint. calls_tac.
  - calls_tac. unfold rollbackNotificationEndpoints. calls_tac.
    unfold rollbackNotificationEndpoints_one. calls_tac.
Qed.

Lemma applyNotificationRules_quiet l : quiet (applyNotificationRules svc l).
Proof.
  unfold quiet, applyNotificationRules; cbn [app_creater app_rollbacker creater_fn rollbacker_fn];
    split; intros.
  - unfold applyNotificationRules_createFn. calls_tac.
    unfold applyNotificationRule. calls_tac.
  - calls_tac. unfold rollbackNotificationRules. calls_tac.
    unfold rollbackNotificationRules_one. calls_tac.
Qed.

Lemma applySecrets_quiet m : quiet (applySecrets svc m).
Proof.
  unfold quiet, applySecrets. destruct (decide _);
    cbn [app_creater app_rollbacker creater_fn rollbacker_fn creater_zero];
    split; intros; calls_tac.
  unfold applySecrets_createFn. calls_tac.
Qed.

Lemma applyTasks_quiet l : quiet (applyTasks svc l).
Proof.
  unfold quiet, applyTasks; cbn [app_creater app_rollbacker creater_fn rollbacker_fn];
    split; intros.
  - unfold applyTasks_createFn. calls_tac.
  - calls_tac. apply deleteByIDs_calls_only; intros; calls_tac.
Qed.

Lemma applyTelegrafs_quiet l : quiet (applyTelegrafs svc l).
Proof.
  unfold quiet, applyTelegrafs; cbn [app_creater app_rollbacker creater_fn rollbacker_fn];
    split; intros.
  - unfold applyTelegrafs_createFn. calls_tac.
  - calls_tac. apply deleteByIDs_calls_only; intros; calls_tac.
Qed.

Lemma applyLabelMappings_quiet l : quiet (applyLabelMappings svc l).
Proof.
  unfold quiet, applyLabelMappings; cbn [app_creater app_rollbacker creater_fn rollbacker_fn];
    split; intros.
  - unfold applyLabelMappings_createFn. calls_tac.
  - calls_tac. unfold rollbackLabelMappings. calls_tac.
    unfold rollbackLabelMappings_one. calls_tac.
Qed.

Lemma applyNotificationRulesGenerator_calls_only o s :
  calls_only (evs (applyNotificationRulesGenerator svc o s)).
Proof.
  unfold applyNotificationRulesGenerator. calls_tac. unfold resolve_rule. calls_tac.
Qed.

Lemma applyNotificationRulesGenerator_Ok o s app :
  val (applyNotificationRulesGenerator svc o s) = Ok app →
  ∃ l, app = applyNotificationRules svc l.
Proof.
  unfold applyNotificationRulesGenerator. rewrite bind_val.
  destruct (val (call svc _ s)); [|done].
  rewrite !bind_val. destruct (applyErrs_toError _ _ _); [done|].
  rewrite bind_val. intros [= <-]. eauto.
Qed.

(** ** The verified flag and the early returns of the dry run *)

Lemma bindR_val_Ok {A B} (m : M (result A)) (k : A → M (result B)) s a :
  val (m s) = Ok a → val (bindR m k s) = val (k a (st (m s))).
Proof. intros H. unfold bindR. by rewrite bind_val, H. Qed.

Lemma bindR_val_Err {A B} (m : M (result A)) (k : A → M (result B)) s e :
  val (m s) = Err e → val (bindR m k s) = Err e.
Proof. intros H. unfold bindR. by rewrite bind_val, H. Qed.

Lemma DryRun_val_Err orgID userID opts s e :
  val (DryRun_run svc orgID opts s) = Err e →
  val (DryRun svc orgID userID opts s) = (Summary_zero, Diff_zero, Some e).
Proof.
  intros H. unfold DryRun. rewrite !bind_val.
  change (st (emit (EvDryRun orgID userID opts) s)) with s. by rewrite H.
Qed.

(** *** The dry run and the verified flag *)

Lemma keeps_bind {A B} (m : M A) (k : A → M B) s :
  (∀ a s', isVerified (pkg (st (k a s'))) = isVerified (pkg s')) →
  isVerified (pkg (st (m s))) = isVerified (pkg s) →
  isVerified (pkg (st (bind m k s))) = isVerified (pkg s).
Proof. intros Hk Hm. rewrite bind_st, Hk. exact Hm. Qed.

Lemma foldM_keeps {A B} (f : B → A → M B) l :
  (∀ b a s, isVerified (pkg (st (f b a s))) = isVerified (pkg s)) →
  ∀ b s, isVerified (pkg (st (foldM f l b s))) = isVerified (pkg s).
Proof.
  intros Hf. induction l as [|x l IH]; intros b s; cbn [foldM]; [done|].
  apply keeps_bind; [intros; apply IH | apply Hf].
Qed.

Ltac keeps_tac :=
  repeat match goal with
  | |- isVerified (pkg (st (bind _ _ _))) = _ => apply keeps_bind; [intros|]
  | |- isVerified (pkg (st (bindR _ _ _))) = _ => unfold bindR
  | |- isVerified (pkg (st (ret _ _))) = _ => reflexivity
  | |- isVerified (pkg (st (getPkg _))) = _ => reflexivity
  | |- isVerified (pkg (st (getSlices _))) = _ => reflexivity
  | |- isVerified (pkg (st (modifySlices _ _))) = _ => reflexivity
  | |- isVerified (pkg (st (call _ _ _))) = _ => reflexivity
  | |- isVerified (pkg (st (modifyPkg _ _))) = _ => reflexivity
  | |- isVerified (pkg (st (foldM _ _ _ _))) = _ => apply foldM_keeps; intros
  | |- isVerified (pkg (st (match ?x with _ => _ end _))) = _ => destruct x
  | |- isVerified (pkg (st (if ?x then _ else _))) = _ => destruct x
  | |- isVerified (pkg (st ((if ?x then _ else _) _))) = _ => destruct x
  end.

Lemma dryRunByName_keeps {R L} get put name setExisting
    (find : R → M (option L)) newDiff :
  (∀ l p, isVerified (put l p) = isVerified p) →
  (∀ r s, isVerified (pkg (st (find r s))) = isVerified (pkg s)) →
  ∀ s, isVerified (pkg (st (dryRunByName get put name setExisting find newDiff s)))
       = isVerified (pkg s).
Proof.
  intros Hput Hfind s. unfold dryRunByName. keeps_tac.
  unfold dryRunByName_step. keeps_tac; try apply Hfind. cbn. apply Hput.
Qed.

Lemma DryRun_primary_keeps o s :
  isVerified (pkg (st (DryRun_primary svc o s))) = isVerified (pkg s).
Proof.
  unfold DryRun_primary. keeps_tac;
    first [ apply dryRunByName_keeps; [reflexivity | intros];
            unfold findBucket, findCheck, findLabel, findVariable; keeps_tac
          | unfold dryRunSecrets, dryRunDashboards, dryRunTasks, dryRunTelegraf,
              dryRunNotificationEndpoints; keeps_tac;
            unfold dryRunNotificationEndpoints_step; keeps_tac ].
Qed.

Lemma dryRunLabelMappings_loop_keeps las : ∀ d s,
  isVerified (pkg (st (dryRunLabelMappings_loop svc las d s))) = isVerified (pkg s).
Proof.
  induction las as [|la las IH]; intros d s; cbn [dryRunLabelMappings_loop].
  - reflexivity.
  - apply keeps_bind.
    + intros [x|e] s'; [apply IH | reflexivity].
    + unfold dryRunResourceLabelMapping. keeps_tac; unfold mappingFn; keeps_tac.
Qed.

Lemma DryRun_rules_keeps o d s :
  isVerified (pkg (st (DryRun_rules svc o d s))) = isVerified (pkg s).
Proof. unfold DryRun_rules, dryRunNotificationRules. keeps_tac. Qed.

Lemma DryRun_labelMappings_keeps d s :
  isVerified (pkg (st (DryRun_labelMappings svc d s))) = isVerified (pkg s).
Proof.
  unfold DryRun_labelMappings, dryRunLabelMappings. keeps_tac.
  apply dryRunLabelMappings_loop_keeps.
Qed.

Lemma DryRun_prepare_keeps opts s :
  (∀ p, isVerified (Validate p).1 = isVerified p) →
  (∀ refs p, isVerified (applyEnvRefs refs p).1 = isVerified p) →
  isVerified (pkg (st (DryRun_prepare opts s))) = isVerified (pkg s).
Proof.
  intros HV HE. unfold DryRun_prepare. keeps_tac; cbn; auto.
Qed.

(** Up to the last lines of [DryRun] nothing writes the flag, provided
    validation and the substitution of environment references (which are
    not part of this file's sources) leave it alone. *)
Lemma DryRun_run_keeps o opts s :
  (∀ p, isVerified (Validate p).1 = isVerified p) →
  (∀ refs p, isVerified (applyEnvRefs refs p).1 = isVerified p) →
  isVerified (pkg (st (DryRun_run svc o opts s))) = isVerified (pkg s).
Proof.
  intros HV HE. unfold DryRun_run. keeps_tac;
    first [ by apply DryRun_prepare_keeps | apply DryRun_primary_keeps
          | apply DryRun_rules_keeps | apply DryRun_labelMappings_keeps ].
Qed.

(** C4, as the code has it.  When [DryRun] runs to its last lines it sets
    [isVerified] and returns the summary and the diff, together with the
    parse error if validation or the environment references produced one.
    On each early return it hands back [Summary{}], [Diff{}] and the error,
    and the flag is what it was before the call: no stage of the dry run
    writes it (validation and the substitution of environment references
    are outside these sources and are assumed to leave it alone). *)
Theorem C4_verified_on_completion orgID userID opts s :
  (∀ p, isVerified (Validate p).1 = isVerified p) →
  (∀ refs p, isVerified (applyEnvRefs refs p).1 = isVerified p) →
  let r := DryRun svc orgID userID opts s in
  match val (DryRun_run svc orgID opts s) with
  | Ok (diff, parseErr) =>
      isVerified (pkg (st r)) = true
      ∧ val r = (pkg_Summary (pkg (st r)), diff, parseErr)
  | Err e =>
      isVerified (pkg (st r)) = isVerified (pkg s)
      ∧ val r = (Summary_zero, Diff_zero, Some e)
  end.
Proof.
  intros HV HE. cbv zeta. unfold DryRun. rewrite !bind_val, !bind_st.
  change (st (emit (EvDryRun orgID userID opts) s)) with s.
  pose proof (DryRun_run_keeps orgID opts s HV HE) as Hk.
  destruct (val (DryRun_run svc orgID opts s)) as [[diff parseErr]|e]; [done|].
  split; [exact Hk | done].
Qed.

Lemma endpoints_by_name_None (es : list influxdb_NotificationEndpoint) n :
  endpoints_by_name es !! n = None ↔ n ∉ map Endpoint_GetName es.
Proof.
  unfold endpoints_by_name.
  assert (∀ m : gmap string influxdb_NotificationEndpoint,
            fold_left (fun m e => <[Endpoint_GetName e := e]> m) es m !! n = None
            ↔ m !! n = None ∧ n ∉ map Endpoint_GetName es) as H.
  { induction es as [|e es IH]; intros m; cbn.
    - set_solver.
    - rewrite IH, lookup_insert_None. set_solver. }
  rewrite H, lookup_empty. tauto.
Qed.

Lemma pkg_endpoints_by_pkgName_None (es : list notificationEndpoint) n :
  pkg_endpoints_by_pkgName es !! n = None ↔ n ∉ map ep_pkgName es.
Proof.
  unfold pkg_endpoints_by_pkgName.
  assert (∀ m : gmap string influxdb_NotificationEndpoint,
            fold_left (fun m e => <[ep_pkgName e := endpoint_summarize e]> m) es m !! n = None
            ↔ m !! n = None ∧ n ∉ map ep_pkgName es) as H.
  { induction es as [|e es IH]; intros m; cbn.
    - set_solver.
    - rewrite IH, lookup_insert_None. set_solver. }
  rewrite H, lookup_empty. tauto.
Qed.

Lemma dryRunNotificationRules_loop_unresolved live declared rules r : ∀ diffs,
  List.find (unresolved live declared) rules = Some r →
  dryRunNotificationRules_loop (endpoints_by_name live)
    (pkg_endpoints_by_pkgName declared) rules diffs = Err (missing_endpoint_err r).
Proof.
  induction rules as [|x rules IH]; intros diffs; cbn; [done|].
  unfold unresolved at 1.
  destruct (endpoints_by_name live !! rule_endpointName x) as [e|] eqn:He.
  - rewrite bool_decide_eq_false_2; [cbn; apply IH|].
    intros Hn. apply endpoints_by_name_None in Hn. congruence.
  - rewrite bool_decide_eq_true_2 by (by apply endpoints_by_name_None). cbn.
    destruct (pkg_endpoints_by_pkgName declared !! rule_endpointName x) as [e|] eqn:Hp.
    + rewrite bool_decide_eq_false_2; [apply IH|].
      intros Hn. apply pkg_endpoints_by_pkgName_None in Hn. congruence.
    + rewrite bool_decide_eq_true_2 by (by apply pkg_endpoints_by_pkgName_None).
      by intros [= ->].
Qed.

(** C6, as the code has it.  When the dry run gets as far as the rules (its
    validation and its lookups up to the endpoints succeed) and the rule [r]
    is the first, in the package's order, whose endpoint name is neither
    live nor declared, [DryRun] returns the unprocessable-entity error that
    names the endpoint and the rule, with [Summary{}] and [Diff{}]: nothing
    of the diff computed so far is handed back. *)
Theorem C6_missing_endpoint_aborts orgID userID opts s pe d live r :
  val (DryRun_prepare opts s) = Ok pe →
  let s1 := st (DryRun_prepare opts s) in
  val (DryRun_primary svc orgID s1) = Ok d →
  let s2 := st (DryRun_primary svc orgID s1) in
  (svc (FindNotificationEndpoints orgID) (world s2)).1 = Ok live →
  List.find (unresolved live (mNotificationEndpoints (pkg s2)))
    (mNotificationRules (pkg s2)) = Some r →
  val (DryRun svc orgID userID opts s)
  = (Summary_zero, Diff_zero,
     Some (influxdb_Error EUnprocessableEntity EmptyString
             (Some (errorString
                ("failed to find notification endpoint " +:+ quote (rule_endpointName r)
                   +:+ " dependency for notification rule " +:+ quote (rule_name r)))))).
Proof.
  intros Hpe s1 Hd s2 Hlive Hfind.
  apply DryRun_val_Err. unfold DryRun_run.
  rewrite (bindR_val_Ok _ _ _ _ Hpe). fold s1.
  rewrite (bindR_val_Ok _ _ _ _ Hd). fold s2.
  apply bindR_val_Err. unfold DryRun_rules. apply bindR_val_Err.
  unfold dryRunNotificationRules. rewrite bind_val.
  change (val (call svc (FindNotificationEndpoints orgID) s2))
    with (svc (FindNotificationEndpoints orgID) (world s2)).1.
  rewrite Hlive, bind_val.
  exact (dryRunNotificationRules_loop_unresolved _ _ _ _ _ Hfind).
Qed.

(** ** Scheduling marks *)

Lemma marks_app l1 l2 : marks (l1 ++ l2) = marks l1 ++ marks l2.
Proof. apply omap_app. Qed.

Lemma calls_only_omap {B} (f : Event → option B) l :
  (∀ c r, f (EvCall c r) = None) → calls_only l → omap f l = [].
Proof.
  intros Hf. induction 1 as [|e l He Hl IH]; [done|].
  destruct e; try done. cbn. by rewrite Hf.
Qed.

Lemma calls_only_marks l : calls_only l → marks l = [].
Proof. by apply calls_only_omap. Qed.

Lemma runEntries_marks (app : @applier W) o u idxs : ∀ s,
  (∀ i o u s, calls_only (evs (creater_fn (app_creater app) i o u s))) →
  marks (evs (runEntries app o u idxs s))
  = map (EvUnit (resource (app_rollbacker app))) idxs.
Proof.
  induction idxs as [|i idxs IH]; intros s Hq; cbn [runEntries]; [reflexivity|].
  rewrite !bind_evs, !marks_app, (IH _ Hq).
  rewrite (calls_only_marks _ (Hq _ _ _ _)).
  cbn [evs ret emit marks omap is_mark List.app]. by rewrite app_nil_r.
Qed.

Lemma runAppliers_marks o u (apps : list (@applier W)) : ∀ rb s,
  Forall quiet apps →
  marks (evs (runAppliers o u apps rb s)) = units (tier_apps apps)
  ∧ (val (runAppliers o u apps rb s)).2 = rb ++ map app_rollbacker apps.
Proof.
  induction apps as [|app apps IH]; intros rb s Hq; cbn [runAppliers].
  - split; [reflexivity|]. cbn. by rewrite app_nil_r.
  - apply Forall_cons in Hq as [[Hc _] Hq].
    rewrite !bind_evs, !bind_val, !marks_app.
    destruct (IH (rb ++ [app_rollbacker app])
                (st (runEntries app o u (seq 0 (entries (app_creater app))) s)) Hq)
      as [Hm Hv].
    rewrite Hm, (runEntries_marks _ _ _ _ _ Hc). split.
    + cbn. by rewrite app_nil_r.
    + cbn [val ret snd]. rewrite Hv, <- app_assoc. done.
Qed.

Lemma errStream_group_empty msgs : errStream_group msgs = ∅ → msgs = [].
Proof.
  unfold errStream_group. destruct msgs as [|x msgs _] using rev_ind; [done|].
  rewrite fold_left_app. cbn. intros H. by apply insert_non_empty in H.
Qed.

Lemma errStream_join_None m : errStream_join m = None → m = ∅.
Proof.
  unfold errStream_join. destruct (map_to_list m) eqn:E; [|done].
  intros _. by apply map_to_list_empty_iff.
Qed.

Lemma errStream_join_Some e : errStream_join ∅ = Some e → False.
Proof. unfold errStream_join. by rewrite map_to_list_empty. Qed.

Lemma keep_delivered_nil delivered msgs : ∀ k,
  msgs = [] → keep_delivered delivered k msgs = [].
Proof. by intros k ->. Qed.

(** The stream closes with an error only if some unit reported one; with a
    live context it closes without error only if none did. *)
Lemma errStream_close_Some fate msgs e :
  errStream_close fate msgs = Some e → 0 < length msgs.
Proof.
  destruct msgs as [|x msgs]; [|cbn; lia].
  destruct fate; cbn; try done; intros H; by apply errStream_join_Some in H.
Qed.

Lemma errStream_close_live_None msgs :
  errStream_close CtxLive msgs = None → length msgs = 0.
Proof.
  cbn. intros H%errStream_join_None%errStream_group_empty. by subst.
Qed.

Lemma runTilEnd_marks fate o u (apps : list (@applier W)) rb s :
  Forall quiet apps →
  let r := runTilEnd fate o u apps rb s in
  ∃ nerrs,
    marks (evs r)
    = units (tier_apps apps)
      ++ [EvTierEnd (tier_apps apps) nerrs (bool_decide (is_Some (val r).1))]
    ∧ (val r).2 = rb ++ map app_rollbacker apps
    ∧ (is_Some (val r).1 → 0 < nerrs)
    ∧ (fate = CtxLive → (val r).1 = None → nerrs = 0).
Proof.
  intros Hq r. subst r. unfold runTilEnd.
  destruct (runAppliers_marks o u apps rb s Hq) as [Hm Hv].
  exists (length (val (runAppliers o u apps rb s)).1).
  rewrite !bind_evs, !bind_val, !marks_app, Hm. cbn [val ret fst snd].
  split_and!; [done | done | |].
  - intros [e He]. by eapply errStream_close_Some.
  - intros -> He. by apply errStream_close_live_None.
Qed.


Lemma tier_apps_resources (apps : list (@applier W)) :
  map fst (tier_apps apps) = map resource (map app_rollbacker apps).
Proof. unfold tier_apps. rewrite !map_map. done. Qed.

(** One tier, seen from the marks: either it ends with an error and the
    rollbacks recorded so far follow, or it ends without one and whatever
    the later tiers do follows. *)
Lemma runTilEnd_tiered fate k o u (apps : list (@applier W)) rb s :
  Forall quiet apps →
  tier_shape k (tier_apps apps) →
  let r := runTilEnd (fate k) o u apps rb s in
  (val r).2 = rb ++ map app_rollbacker apps
  ∧ match (val r).1 with
    | Some _ =>
        tiered fate k (map resource rb)
          (marks (evs r) ++ map EvRollback (map resource (val r).2)) false
    | None =>
        ∀ rest ok,
          tiered fate (S k) (map resource (val r).2) rest ok →
          tiered fate k (map resource rb) (marks (evs r) ++ rest) ok
    end.
Proof.
  intros Hq Hsh r.
  destruct (runTilEnd_marks (fate k) o u apps rb s Hq) as (n & Hm & Hv & Hs & Hl).
  fold r in Hm, Hv, Hs, Hl. split; [done|].
  rewrite Hm, Hv, map_app, <- tier_apps_resources.
  destruct (val r).1 as [e|].
  - rewrite <- app_assoc. apply tiered_abort; [done|]. by apply Hs.
  - intros rest ok Hrest. rewrite <- app_assoc. eapply tiered_next; eauto.
Qed.

Lemma quiet_rollbackers (apps : list (@applier W)) :
  Forall quiet apps →
  Forall (fun r => ∀ o s, calls_only (evs (rollbacker_fn r o s))) (map app_rollbacker apps).
Proof.
  intros H. apply Forall_map. eapply Forall_impl; [exact H|]. by intros a [_ Ha].
Qed.

Lemma runGroups_tiered fate o u (groups : list (list (@applier W))) : ∀ k rb s,
  Forall (Forall quiet) groups →
  (∀ i g, groups !! i = Some g → tier_shape (i + k) (tier_apps g)) →
  Forall (fun r => ∀ o s, calls_only (evs (rollbacker_fn r o s))) rb →
  let r := runGroups fate k o u groups rb s in
  Forall (fun r => ∀ o s, calls_only (evs (rollbacker_fn r o s))) (val r).2
  ∧ (∃ j : nat, (j ≤ length groups)%nat
        ∧ (val r).2 = rb ++ concat (map (map app_rollbacker) (take j groups))
        ∧ ((val r).1 = None → j = length groups))
  ∧ match (val r).1 with
    | Some _ =>
        tiered fate k (map resource rb)
          (marks (evs r) ++ map EvRollback (map resource (val r).2)) false
    | None =>
        ∀ rest ok,
          tiered fate (length groups + k) (map resource (val r).2) rest ok →
          tiered fate k (map resource rb) (marks (evs r) ++ rest) ok
    end.
Proof.
  induction groups as [|g groups IH]; intros k rb s Hq Hsh Hrb; cbn [runGroups].
  - split; [done|]. split.
    { exists 0. cbn. by rewrite app_nil_r. }
    intros rest ok H. exact H.
  - apply Forall_cons in Hq as [Hg Hq].
    destruct (runTilEnd_tiered fate k o u g rb s Hg (Hsh 0 g eq_refl)) as [Hv Ht].
    cbv zeta. rewrite bind_evs, bind_val, ?bind_st.
    set (r := runTilEnd (fate k) o u g rb s) in *.
    destruct (val r).1 as [e|] eqn:E.
    + cbn [val ret evs fst snd]. rewrite marks_app, app_nil_r. split; [|split; [|done]].
      * rewrite Hv. apply Forall_app. split; [done|]. by apply quiet_rollbackers.
      * exists 1. cbn [length take map concat]. rewrite Hv, !app_nil_r.
        split_and!; [lia | done | done].
    + assert (Hrb' : Forall (fun r => ∀ o s, calls_only (evs (rollbacker_fn r o s)))
                       (val r).2).
      { rewrite Hv. apply Forall_app. split; [done|]. by apply quiet_rollbackers. }
      assert (Hsh' : ∀ i g', groups !! i = Some g' → tier_shape (i + S k) (tier_apps g')).
      { intros i g' Hi. rewrite Nat.add_succ_r. exact (Hsh (S i) g' Hi). }
      destruct (IH (S k) (val r).2 (st r) Hq Hsh' Hrb') as (HF & (j & Hj & Hjv & Hjn) & Hrest).
      split; [done|]. split.
      { exists (S j). cbn [length take map concat].
        split_and!; [lia | by rewrite Hjv, Hv, <- app_assoc | intros HN; f_equal; by apply Hjn]. }
      rewrite marks_app.
      destruct (val (runGroups fate (S k) o u groups (val r).2 (st r))).1.
      * rewrite <- app_assoc. by apply Ht.
      * intros rest ok H. rewrite <- app_assoc. apply Ht, Hrest.
        cbn [length] in H. by rewrite Nat.add_succ_r.
Qed.

Lemma applySecrets_shape m : tier_shape 0 (tier_apps [applySecrets svc m]).
Proof. unfold applySecrets. destruct (decide _); cbn; auto. Qed.

(** The body of the apply, seen from the marks, and the rollbackers it
    leaves in the coordinator. *)
Lemma Apply_body_tiered fate o u opt s :
  let b := Apply_body svc fate o u opt s in
  Forall (fun r => ∀ o s, calls_only (evs (rollbacker_fn r o s))) (val b).2
  ∧ (∃ j, map resource (val b).2
          = concat (take j (tier_resources
                              (resource (app_rollbacker
                                           (applySecrets svc (MissingSecrets opt)))))))
  ∧ match (val b).1.2 with
    | Some _ =>
        tiered fate 0 [] (marks (evs b) ++ map EvRollback (map resource (val b).2)) false
    | None => tiered fate 0 [] (marks (evs b)) true
    end.
Proof.
  cbv zeta. unfold Apply_body.
  rewrite !bind_evs, !bind_val, ?bind_st.
  change (evs (modifySlices _ s)) with (@nil Event).
  change (evs (getPkg _)) with (@nil Event).
  cbn [List.app].
  set (s0 := st (getPkg (st (modifySlices (λ _ : Slices, Slices_empty) s)))).
  set (p := val (getPkg (st (modifySlices (λ _ : Slices, Slices_empty) s)))).
  match goal with |- context [runGroups fate 0 o u ?gs [] s0] => set (groups := gs) end.
  assert (Hq : Forall (Forall quiet) groups).
  { repeat first [apply Forall_nil_2 | apply Forall_cons_2];
      auto using applySecrets_quiet, applyLabels_quiet, applyVariables_quiet,
        applyBuckets_quiet, applyChecks_quiet, applyDashboards_quiet,
        applyNotificationEndpoints_quiet, applyTasks_quiet, applyTelegrafs_quiet. }
  assert (Hsh : ∀ i g, groups !! i = Some g → tier_shape (i + 0) (tier_apps g)).
  { intros [|[|[|i]]] g; cbn; intros [= <-].
    - apply applySecrets_shape.
    - cbn. eauto.
    - cbn. do 7 eexists. reflexivity. }
  destruct (runGroups_tiered fate o u groups 0 [] s0 Hq Hsh (Forall_nil_2 _))
    as (HF & (j & Hj & Hjv & Hjn) & H012).
  set (r := runGroups fate 0 o u groups [] s0) in *. clearbody r. clear Hq Hsh.
  destruct (val r).1 as [e|] eqn:E.
  { cbn [val ret evs fst snd]. rewrite app_nil_r. split; [done|]. split; [|done].
    exists j. rewrite Hjv. cbn [length groups] in Hj.
    destruct j as [|[|[|[|j]]]]; [reflexivity .. | lia]. }
  cbn [length Nat.add] in H012.
  assert (Hr : map resource (val r).2
               = concat (take 3 (tier_resources
                                   (resource (app_rollbacker
                                                (applySecrets svc (MissingSecrets opt))))))).
  { rewrite Hjv, (Hjn eq_refl). reflexivity. }
  clear j Hj Hjv Hjn.
  rewrite !bind_evs, !bind_val, ?bind_st.
  pose proof (applyNotificationRulesGenerator_calls_only o (st r)) as Hgen.
  pose proof (applyNotificationRulesGenerator_Ok o (st r)) as HgenOk.
  set (g := applyNotificationRulesGenerator svc o (st r)) in *. clearbody g.
  destruct (val g) as [app|e] eqn:Eg.
  2: { cbn [val ret evs fst snd]. split; [done|]. split; [by exists 3|].
       rewrite app_nil_r, marks_app, (calls_only_marks _ Hgen), app_nil_r.
       apply (H012 _ false). apply tiered_unresolved. }
  destruct (HgenOk app eq_refl) as [rules ->].
  assert (Hq3 : Forall quiet [applyNotificationRules svc rules]).
  { repeat first [apply Forall_nil_2 | apply Forall_cons_2].
    apply applyNotificationRules_quiet. }
  assert (Hsh3 : tier_shape 3 (tier_apps [applyNotificationRules svc rules])).
  { cbn. eauto. }
  destruct (runTilEnd_tiered fate 3 o u _ (val r).2 (st g) Hq3 Hsh3) as [Hv3 H3].
  rewrite !bind_evs, !bind_val, ?bind_st.
  set (r3 := runTilEnd (fate 3) o u [applyNotificationRules svc rules] (val r).2 (st g)) in *.
  assert (HF3 : Forall (fun r => ∀ o s, calls_only (evs (rollbacker_fn r o s))) (val r3).2).
  { rewrite Hv3. apply Forall_app. split; [done|]. by apply quiet_rollbackers. }
  assert (Hr3 : map resource (val r3).2
                = concat (take 4 (tier_resources
                                    (resource (app_rollbacker
                                                 (applySecrets svc (MissingSecrets opt))))))).
  { rewrite Hv3, map_app, Hr. reflexivity. }
  clearbody r3. clear Hq3 Hsh3.
  rewrite !marks_app, (calls_only_marks _ Hgen). cbn [List.app].
  destruct (val r3).1 as [e|] eqn:E3.
  { cbn [val ret evs fst snd]. split; [done|]. split; [by exists 4|].
    rewrite app_nil_r, <- app_assoc. by apply H012. }
  rewrite !bind_evs, !bind_val, ?bind_st.
  change (evs (getPkg _)) with (@nil Event). cbn [List.app].
  set (s4 := st (getPkg (st r3))). set (p4 := val (getPkg (st r3))).
  assert (Hq4 : Forall quiet [applyLabelMappings svc (labelMappings p4)]).
  { repeat first [apply Forall_nil_2 | apply Forall_cons_2].
    apply applyLabelMappings_quiet. }
  assert (Hsh4 : tier_shape 4 (tier_apps [applyLabelMappings svc (labelMappings p4)])).
  { cbn. eauto. }
  destruct (runTilEnd_tiered fate 4 o u _ (val r3).2 s4 Hq4 Hsh4) as [Hv4 H4].
  set (r4 := runTilEnd (fate 4) o u [applyLabelMappings svc (labelMappings p4)]
               (val r3).2 s4) in *.
  assert (HF4 : Forall (fun r => ∀ o s, calls_only (evs (rollbacker_fn r o s))) (val r4).2).
  { rewrite Hv4. apply Forall_app. split; [done|]. by apply quiet_rollbackers. }
  assert (Hr4 : map resource (val r4).2
                = concat (take 5 (tier_resources
                                    (resource (app_rollbacker
                                                 (applySecrets svc (MissingSecrets opt))))))).
  { rewrite Hv4, map_app, Hr3. reflexivity. }
  clearbody r4. clear Hq4 Hsh4.
  rewrite !marks_app.
  destruct (val r4).1 as [e|] eqn:E4.
  { cbn [val ret evs fst snd internalErr]. split; [done|]. split; [by exists 5|].
    rewrite app_nil_r, <- !app_assoc. by apply H012, H3. }
  rewrite !bind_evs, !bind_val, ?bind_st.
  cbn [val ret evs fst snd]. split; [done|]. split; [by exists 5|].
  change (evs (modifyPkg _ _)) with (@nil Event).
  change (evs (getPkg _)) with (@nil Event).
  cbn [List.app marks omap]. rewrite !app_nil_r.
  apply H012, H3. rewrite <- (app_nil_r (marks (evs r4))). apply H4. constructor.
Qed.

(** ** What the body and the rollback leave in the trace *)

Section filters.
Context {B : Type} (f : Event → option B).
Hypothesis f_call : ∀ c r, f (EvCall c r) = None.
Hypothesis f_unit : ∀ r i, f (EvUnit r i) = None.
Hypothesis f_tier : ∀ a n b, f (EvTierEnd a n b) = None.

Lemma runEntries_omap (app : @applier W) o u idxs : ∀ s,
  (∀ i o u s, calls_only (evs (creater_fn (app_creater app) i o u s))) →
  omap f (evs (runEntries app o u idxs s)) = [].
Proof.
  induction idxs as [|i idxs IH]; intros s Hq; cbn [runEntries]; [reflexivity|].
  rewrite !bind_evs, !omap_app, (IH _ Hq).
  rewrite (calls_only_omap f _ f_call (Hq _ _ _ _)).
  simpl. by rewrite f_unit.
Qed.

Lemma runAppliers_omap o u (apps : list (@applier W)) : ∀ rb s,
  Forall quiet apps → omap f (evs (runAppliers o u apps rb s)) = [].
Proof.
  induction apps as [|app apps IH]; intros rb s Hq; cbn [runAppliers]; [reflexivity|].
  apply Forall_cons in Hq as [[Hc _] Hq].
  rewrite !bind_evs, !omap_app, (IH _ _ Hq), (runEntries_omap _ _ _ _ _ Hc).
  reflexivity.
Qed.

Lemma runTilEnd_omap fate o u (apps : list (@applier W)) rb s :
  Forall quiet apps → omap f (evs (runTilEnd fate o u apps rb s)) = [].
Proof.
  intros Hq. unfold runTilEnd.
  rewrite !bind_evs, !omap_app, (runAppliers_omap _ _ _ _ _ Hq).
  simpl. by rewrite f_tier.
Qed.

Lemma runGroups_omap fate o u (groups : list (list (@applier W))) : ∀ k rb s,
  Forall (Forall quiet) groups → omap f (evs (runGroups fate k o u groups rb s)) = [].
Proof.
  induction groups as [|g groups IH]; intros k rb s Hq; cbn [runGroups]; [reflexivity|].
  apply Forall_cons in Hq as [Hg Hq].
  rewrite bind_evs, omap_app, (runTilEnd_omap _ _ _ _ _ _ Hg).
  destruct (val (runTilEnd (fate k) o u g rb s)).1; [reflexivity|].
  by rewrite (IH _ _ _ Hq).
Qed.

Lemma Apply_body_omap fate o u opt s :
  omap f (evs (Apply_body svc fate o u opt s)) = [].
Proof.
  unfold Apply_body. rewrite !bind_evs, !omap_app.
  change (evs (modifySlices _ s)) with (@nil Event).
  change (evs (getPkg _)) with (@nil Event).
  cbn [List.app omap]. rewrite ?bind_val, ?bind_st.
  rewrite runGroups_omap.
  2: { repeat first [apply Forall_nil_2 | apply Forall_cons_2];
         auto using applySecrets_quiet, applyLabels_quiet, applyVariables_quiet,
           applyBuckets_quiet, applyChecks_quiet, applyDashboards_quiet,
           applyNotificationEndpoints_quiet, applyTasks_quiet, applyTelegrafs_quiet. }
  match goal with |- context [runGroups ?a ?b ?c ?d ?e ?g ?h] =>
    generalize (runGroups a b c d e g h) end.
  intros r. destruct (val r).1; [reflexivity|].
  rewrite bind_evs, omap_app,
    (calls_only_omap f _ f_call (applyNotificationRulesGenerator_calls_only _ _)).
  pose proof (applyNotificationRulesGenerator_Ok o (st r)) as HgenOk.
  rewrite ?bind_val, ?bind_st.
  generalize dependent (applyNotificationRulesGenerator svc o (st r)). intros g HgenOk.
  destruct (val g) as [app|e]; [|reflexivity].
  destruct (HgenOk app eq_refl) as [rules ->].
  rewrite bind_evs, omap_app, runTilEnd_omap.
  2: { repeat first [apply Forall_nil_2 | apply Forall_cons_2].
       apply applyNotificationRules_quiet. }
  rewrite ?bind_val, ?bind_st.
  match goal with |- context [runTilEnd ?a ?b ?c ?d ?e ?g] =>
    generalize (runTilEnd a b c d e g) end.
  intros r3. destruct (val r3).1; [reflexivity|].
  rewrite !bind_evs, !omap_app, runTilEnd_omap.
  2: { repeat first [apply Forall_nil_2 | apply Forall_cons_2].
       apply applyLabelMappings_quiet. }
  change (evs (getPkg _)) with (@nil Event).
  rewrite ?bind_val, ?bind_st.
  match goal with |- context [runTilEnd ?a ?b ?c ?d ?e ?g] =>
    generalize (runTilEnd a b c d e g) end.
  intros r4. destruct (val r4).1; [reflexivity|].
  rewrite !bind_evs. reflexivity.
Qed.

End filters.

Lemma rollback_loop_resources (rs : list (@rollbacker W)) o : ∀ s,
  Forall (fun r => ∀ o s, calls_only (evs (rollbacker_fn r o s))) rs →
  omap rollback_resource (evs (rollback_loop rs o s)) = map resource rs.
Proof.
  induction rs as [|r rs IH]; intros s Hq; cbn [rollback_loop]; [reflexivity|].
  apply Forall_cons in Hq as [Hr Hq].
  rewrite !bind_evs, !omap_app, (IH _ Hq).
  rewrite (calls_only_omap rollback_resource _ (fun _ _ => eq_refl) (Hr _ _)).
  destruct (val (rollbacker_fn r o _)); done.
Qed.

Lemma rollback_loop_logs (rs : list (@rollbacker W)) o : ∀ s,
  Forall (fun r => ∀ o s, calls_only (evs (rollbacker_fn r o s))) rs →
  omap log_event (evs (rollback_loop rs o s))
  = omap rollback_log (rollback_outcomes rs o s).
Proof.
  induction rs as [|r rs IH]; intros s Hq; cbn [rollback_loop rollback_outcomes];
    [reflexivity|].
  pose proof Hq as [Hr Hq']%Forall_cons.
  rewrite !bind_evs, !omap_app.
  rewrite (calls_only_omap log_event _ (fun _ _ => eq_refl) (Hr _ _)).
  change (st (emit (EvRollback (resource r)) s)) with s.
  change (omap rollback_log (?x :: ?l)) with
    (match rollback_log x with Some y => y :: omap rollback_log l | None => omap rollback_log l end).
  unfold rollback_log at 1. cbn [fst snd].
  destruct (val (rollbacker_fn r o s)) as [e|].
  - change (st (emit ?e ?s')) with s'. rewrite (IH _ Hq'). reflexivity.
  - change (st (ret ?e ?s')) with s'. rewrite (IH _ Hq'). reflexivity.
Qed.

Lemma rollback_loop_dryRuns (rs : list (@rollbacker W)) o : ∀ s,
  Forall (fun r => ∀ o s, calls_only (evs (rollbacker_fn r o s))) rs →
  omap dryRun_event (evs (rollback_loop rs o s)) = [].
Proof.
  induction rs as [|r rs IH]; intros s Hq; cbn [rollback_loop]; [reflexivity|].
  apply Forall_cons in Hq as [Hr Hq].
  rewrite !bind_evs, !omap_app, (IH _ Hq).
  rewrite (calls_only_omap dryRun_event _ (fun _ _ => eq_refl) (Hr _ _)).
  destruct (val (rollbacker_fn r o _)); done.
Qed.

(** ** The dry run inside the apply *)

Lemma Apply_validate_evs opts s : evs (Apply_validate opts s) = [].
Proof.
  unfold Apply_validate, bindR. rewrite !bind_evs.
  change (evs (getPkg s)) with (@nil Event). cbn [List.app].
  rewrite ?bind_val, ?bind_st.
  change (val (getPkg s)) with (pkg s). change (st (getPkg s)) with s.
  destruct (isParsed (pkg s)).
  - cbn [val ret st evs List.app]. destruct (apply_opts opts ApplyOpt_zero); [|done].
    rewrite !bind_evs. rewrite ?bind_val, ?bind_st.
    by destruct (applyEnvRefs _ _).2.
  - rewrite !bind_evs, ?bind_val, ?bind_st.
    destruct (Validate (pkg s)).2; [done|].
    cbn [val ret st evs List.app modifyPkg]. destruct (apply_opts opts ApplyOpt_zero); [|done].
    rewrite !bind_evs. rewrite ?bind_val, ?bind_st.
    by destruct (applyEnvRefs _ _).2.
Qed.

Lemma DryRun_evs o u opts s :
  ∃ l, evs (DryRun svc o u opts s) = EvDryRun o u opts :: l ∧ calls_only l.
Proof.
  unfold DryRun. rewrite !bind_evs. eexists. split; [reflexivity|].
  apply Forall_app. split; [apply DryRun_run_calls_only|].
  destruct (val _) as [[d pe]|e]; calls_tac.
Qed.

Lemma Apply_verify_evs o u s :
  if isVerified (pkg s) then evs (Apply_verify svc o u s) = []
  else ∃ l, evs (Apply_verify svc o u s) = EvDryRun o u [] :: l ∧ calls_only l.
Proof.
  unfold Apply_verify. rewrite bind_evs, ?bind_val, ?bind_st.
  change (evs (getPkg s)) with (@nil Event). change (val (getPkg s)) with (pkg s).
  change (st (getPkg s)) with s. cbn [List.app].
  destruct (isVerified (pkg s)); [done|].
  rewrite bind_evs. destruct (DryRun_evs o u [] s) as (l & -> & Hl).
  exists (l ++ evs ((let r := val (DryRun svc o u [] s) in
                     match r.2 with Some err => ret (Err err) | None => ret (Ok tt) end)
                      (st (DryRun svc o u [] s)))).
  split; [done|]. apply Forall_app. split; [done|].
  cbv zeta. destruct (val _).2; constructor.
Qed.

Lemma Apply_prepare_evs o u opts s :
  let v := Apply_validate opts s in
  let prep := Apply_prepare svc o u opts s in
  match val v with
  | Err e => evs prep = [] ∧ val prep = Err e
  | Ok _ =>
      if isVerified (pkg (st v)) then evs prep = []
      else ∃ l, evs prep = EvDryRun o u [] :: l ∧ calls_only l
  end.
Proof.
  cbv zeta. unfold Apply_prepare, bindR. rewrite !bind_evs, !bind_val, Apply_validate_evs.
  cbn [List.app]. destruct (val (Apply_validate opts s)) as [opt|e]; [|done].
  rewrite !bind_evs.
  pose proof (Apply_verify_evs o u (st (Apply_validate opts s))) as H.
  destruct (isVerified _).
  - rewrite H. by destruct (val _).
  - destruct H as (l & -> & Hl). eexists. split; [reflexivity|].
    apply Forall_app. split; [done|]. destruct (val _); constructor.
Qed.


Lemma Apply_run_dryRuns fate o u opt s :
  omap dryRun_event (evs (Apply_run svc fate o u opt s)) = [].
Proof.
  unfold Apply_run. rewrite !bind_evs, !omap_app.
  rewrite (Apply_body_omap dryRun_event) by done.
  destruct (Apply_body_tiered fate o u opt s) as (HF & _ & _).
  destruct (val (Apply_body svc fate o u opt s)).1.2 as [e|].
  - cbn [rollback]. by rewrite (rollback_loop_dryRuns _ _ _ HF).
  - done.
Qed.

(** C3, as the code has it.  An apply that fails validation, an option or
    the environment references leaves no event at all.  Past these, a
    package already verified gets no dry run; one not yet verified gets
    exactly one, first of all events, with the org, the user and the
    package, and with no option. *)
Theorem C3_dry_run_without_options fate orgID userID opts s :
  let r := Apply svc fate orgID userID opts s in
  let v := Apply_validate opts s in
  match val v with
  | Err _ => evs r = []
  | Ok _ =>
      if isVerified (pkg (st v)) then omap dryRun_event (evs r) = []
      else ∃ rest, evs r = EvDryRun orgID userID [] :: rest
                   ∧ omap dryRun_event rest = []
  end.
Proof.
  cbv zeta. unfold Apply. rewrite bind_evs, ?bind_val.
  pose proof (Apply_prepare_evs orgID userID opts s) as H. cbv zeta in H.
  destruct (val (Apply_validate opts s)) as [opt|e].
  2: { destruct H as [-> ->]. done. }
  assert (Hrest : omap dryRun_event
            (evs (match val (Apply_prepare svc orgID userID opts s) with
                  | Ok opt => Apply_run svc fate orgID userID opt
                  | Err err => ret (Summary_zero, Some err)
                  end (st (Apply_prepare svc orgID userID opts s)))) = []).
  { destruct (val (Apply_prepare svc orgID userID opts s)); [|done].
    apply Apply_run_dryRuns. }
  destruct (isVerified _).
  - by rewrite H.
  - destruct H as (l & -> & Hl). rewrite <- app_comm_cons.
    eexists. split; [reflexivity|].
    rewrite omap_app, Hrest, app_nil_r.
    by apply calls_only_omap.
Qed.

(** C5, as the code has it.  The rollbackers the coordinator holds are
    those of the tiers run so far, in tier order.  When the body of the
    apply sets an error they are invoked one after the other in that same
    order, first recorded first, each from the state its predecessor left;
    everyone is invoked whatever the others return, and each failure is
    logged.  When the body sets no error none is invoked. *)
Theorem C5_rollback_in_recorded_order fate orgID userID opt s :
  let b := Apply_body svc fate orgID userID opt s in
  let r := Apply_run svc fate orgID userID opt s in
  (∃ j, map resource (val b).2
        = concat (take j (tier_resources
                            (resource (app_rollbacker
                                         (applySecrets svc (MissingSecrets opt)))))))
  ∧ match (val b).1.2 with
    | None => omap rollback_resource (evs r) = [] ∧ omap log_event (evs r) = []
    | Some _ =>
        omap rollback_resource (evs r) = map resource (val b).2
        ∧ omap log_event (evs r)
          = omap rollback_log (rollback_outcomes (val b).2 orgID (st b))
    end.
Proof.
  cbv zeta. destruct (Apply_body_tiered fate orgID userID opt s) as (HF & Hj & _).
  split; [exact Hj|].
  unfold Apply_run. rewrite !bind_evs, !omap_app.
  rewrite (Apply_body_omap rollback_resource), (Apply_body_omap log_event) by done.
  destruct (val (Apply_body svc fate orgID userID opt s)).1.2 as [e|].
  - cbn [rollback List.app].
    rewrite (rollback_loop_resources _ _ _ HF), (rollback_loop_logs _ _ _ HF).
    cbn [evs ret omap]. by rewrite !app_nil_r.
  - done.
Qed.

(** ** Which calls the pieces make *)

Lemma foldM_sat (P : Call → bool) {A B} (f : B → A → M B) l :
  (∀ b a s, calls_sat P (evs (f b a s))) → ∀ b s, calls_sat P (evs (foldM f l b s)).
Proof.
  intros Hf. induction l as [|x l IH]; intros b s; cbn [foldM].
  - constructor.
  - rewrite bind_evs. apply Forall_app. split; [apply Hf | apply IH].
Qed.

Ltac sat_tac :=
  repeat match goal with
  | |- calls_sat _ _ => unfold calls_sat
  | |- Forall _ [] => constructor
  | |- Forall _ (_ ++ _) => apply Forall_app; split
  | |- Forall _ (evs (bind _ _ _)) => rewrite bind_evs
  | |- Forall _ (evs (ret _ _)) => constructor
  | |- Forall _ (evs (getPkg _)) => constructor
  | |- Forall _ (evs (getSlices _)) => constructor
  | |- Forall _ (evs (modifyPkg _ _)) => constructor
  | |- Forall _ (evs (modifySlices _ _)) => constructor
  | |- Forall _ (evs (emit _ _)) => constructor; [exact I | constructor]
  | |- Forall _ (evs (call _ _ _)) => constructor; [reflexivity | constructor]
  | |- Forall _ (evs (foldM _ _ _ _)) => apply foldM_sat; intros
  | |- Forall _ (evs (bindR _ _ _)) => unfold bindR
  | |- Forall _ (evs (match ?x with _ => _ end _)) => destruct x
  | |- Forall _ (evs (if ?x then _ else _)) => destruct x
  | |- Forall _ (evs ((if ?x then _ else _) _)) => destruct x
  end.

Lemma dryRunByName_sat (P : Call → bool) {R L} get put name setExisting
    (find : R → @M W (option L)) newDiff :
  (∀ r s, calls_sat P (evs (find r s))) →
  ∀ s, calls_sat P (evs (dryRunByName get put name setExisting find newDiff s)).
Proof.
  intros Hfind s. unfold dryRunByName. sat_tac.
  unfold dryRunByName_step. sat_tac. apply Hfind.
Qed.

Lemma dryRunLabelMappings_loop_lookups las : ∀ d s,
  calls_sat is_lookup (evs (dryRunLabelMappings_loop svc las d s)).
Proof.
  induction las as [|la las IH]; intros d s; cbn [dryRunLabelMappings_loop].
  - sat_tac.
  - rewrite bind_evs. apply Forall_app. split.
    + unfold dryRunResourceLabelMapping. sat_tac; unfold mappingFn; sat_tac.
    + destruct (val _); [apply IH | sat_tac].
Qed.

Lemma DryRun_run_lookups o opts s : calls_sat is_lookup (evs (DryRun_run svc o opts s)).
Proof.
  unfold DryRun_run, DryRun_prepare, DryRun_primary, DryRun_rules, DryRun_labelMappings.
  sat_tac;
    first [ apply dryRunByName_sat; intros;
            unfold findBucket, findCheck, findLabel, findVariable; sat_tac
          | unfold dryRunSecrets, dryRunDashboards, dryRunTasks, dryRunTelegraf,
              dryRunNotificationEndpoints, dryRunNotificationRules, dryRunLabelMappings;
            sat_tac;
            first [ apply dryRunLabelMappings_loop_lookups
                  | unfold dryRunNotificationEndpoints_step; sat_tac ] ].
Qed.

(** X1.  The dry run announces itself and then only looks up: every
    downstream call it makes is a find or the listing of the secret keys;
    it creates, updates and deletes nothing. *)
Theorem DryRun_only_looks_up orgID userID opts s :
  ∃ l, evs (DryRun svc orgID userID opts s) = EvDryRun orgID userID opts :: l
       ∧ calls_sat is_lookup l.
Proof.
  unfold DryRun. rewrite !bind_evs. eexists. split; [reflexivity|].
  apply Forall_app. split; [apply DryRun_run_lookups|].
  destruct (val _) as [[d pe]|e]; sat_tac.
Qed.

(** ** What the apply hands back *)

Lemma Apply_body_result fate o u opt s :
  let b := Apply_body svc fate o u opt s in
  match (val b).1.2 with
  | Some _ => (val b).1.1 = Summary_zero
  | None => (val b).1.1 = pkg_Summary (pkg (st b))
  end.
Proof.
  cbv zeta. unfold Apply_body. rewrite !bind_val, ?bind_st.
  match goal with |- context [runGroups ?a ?b ?c ?d ?e ?g ?h] =>
    generalize (runGroups a b c d e g h) end.
  intros r. destruct (val r).1; [reflexivity|].
  rewrite !bind_val, ?bind_st.
  generalize (applyNotificationRulesGenerator svc o (st r)). intros g.
  destruct (val g) as [app|e]; [|reflexivity].
  rewrite !bind_val, ?bind_st.
  match goal with |- context [runTilEnd ?a ?b ?c ?d ?e ?g] =>
    generalize (runTilEnd a b c d e g) end.
  intros r3. destruct (val r3).1; [reflexivity|].
  rewrite !bind_val, ?bind_st.
  match goal with |- context [runTilEnd ?a ?b ?c ?d ?e ?g] =>
    generalize (runTilEnd a b c d e g) end.
  intros r4. destruct (val r4).1; [reflexivity|].
  rewrite !bind_val, ?bind_st. reflexivity.
Qed.

(** X2.  Whatever happens, an apply that returns an error returns the
    empty summary with it; one that returns no error returns the summary
    of the package as the apply left it. *)
Theorem Apply_summary_or_error fate orgID userID opts s :
  let r := Apply svc fate orgID userID opts s in
  match (val r).2 with
  | Some _ => (val r).1 = Summary_zero
  | None => (val r).1 = pkg_Summary (pkg (st r))
  end.
Proof.
  cbv zeta. unfold Apply. rewrite bind_val, bind_st.
  generalize (Apply_prepare svc orgID userID opts s). intros prep.
  destruct (val prep) as [opt|e]; [|reflexivity].
  unfold Apply_run. rewrite !bind_val, !bind_st. cbn [val ret st].
  pose proof (Apply_body_result fate orgID userID opt (st prep)) as H. cbv zeta in H.
  destruct (val (Apply_body svc fate orgID userID opt (st prep))).1.2; [done|].
  exact H.
Qed.

(** ** The error stream *)

Lemma errStream_join_nil_iff m : errStream_join m = None ↔ m = ∅.
Proof.
  split; [apply errStream_join_None|]. intros ->.
  unfold errStream_join. by rewrite map_to_list_empty.
Qed.

Lemma errStream_group_nil_iff msgs : errStream_group msgs = ∅ ↔ msgs = [].
Proof. split; [apply errStream_group_empty | by intros ->]. Qed.

Lemma keep_delivered_nil_iff delivered msgs : ∀ k,
  keep_delivered delivered k msgs = []
  ↔ ∀ j, j < length msgs → delivered (k + j) = false.
Proof.
  induction msgs as [|m msgs IH]; intros k; cbn [keep_delivered length].
  - split; [intros _ j Hj; lia | done].
  - destruct (delivered k) eqn:E.
    + split; [done|]. intros H. specialize (H 0 ltac:(lia)).
      rewrite Nat.add_0_r in H. congruence.
    + rewrite IH. split.
      * intros H [|j] Hj; [by rewrite Nat.add_0_r|].
        rewrite Nat.add_succ_r. apply (H j). lia.
      * intros H j Hj. specialize (H (S j) ltac:(lia)).
        by rewrite Nat.add_succ_r in H.
Qed.

(** X3.  Closing the error stream of a tier yields no error exactly when
    no message reached the collector: with a live context, when no unit
    reported an error; when the collector saw the context done, always;
    when only producers saw it done, when every message was dropped. *)
Theorem errStream_close_nil_iff fate msgs :
  errStream_close fate msgs = None
  ↔ match fate with
    | CtxLive => msgs = []
    | CtxDoneSeen => True
    | CtxDoneRaced delivered => ∀ k, k < length msgs → delivered k = false
    end.
Proof.
  destruct fate as [| |delivered]; cbn [errStream_close].
  - by rewrite errStream_join_nil_iff, errStream_group_nil_iff.
  - done.
  - rewrite errStream_join_nil_iff, errStream_group_nil_iff.
    apply (keep_delivered_nil_iff delivered msgs 0).
Qed.

End Facts.

(** ** The scenarios, run *)

Import Scenario Scenarios.

(** C1, scenario S2.  The bucket b1 is live with description "old" and no
    retention.  After the rule tier fails, the rollback of the bucket sends
    one update, and it carries the package's description and retention
    ("new", one hour), the same payload the apply sent, not the live values
    captured by the dry run. *)
Theorem C1_bucket_rollback_sends_package_values :
  let r := Apply svc (D := decls) live orgID userID [] (start s2_world s2_pkg) in
  omap bucket_update (rollback_part (evs r))
    = [(1%N, mkBucketUpdate (Some "new") (Some 3600000000000%Z))]
  ∧ (Bucket_Description s2_live_b1, Bucket_RetentionPeriod s2_live_b1) = ("old", 0%Z)
  ∧ is_Some (val r).2.
Proof. vm_compute. repeat split; eauto. Qed.

(** C7, scenario S6.  The secrets tier writes the supplied key and the unit
    records it in its rollback slice; the rollback closure then calls
    [DeleteSecret] with the org id and no key at all. *)
Theorem C7_secret_rollback_names_no_key :
  let r := Apply svc (D := decls) live orgID userID [ApplyWithSecrets s6_secrets]
             (start s6_world s6_pkg) in
  omap secret_call (evs r)
    = [GetSecretKeys orgID; PutSecrets orgID s6_secrets; DeleteSecret orgID []]
  ∧ sl_rollbackSecrets (slices (st r)) = ["slack-token"]
  ∧ is_Some (val r).2.
Proof. vm_compute. repeat split; eauto. Qed.

(** C10 at work: a bucket that is live and unchanged is skipped. *)
Lemma C10_shouldApply_gate_witness :
  let r := applyBuckets_createFn svc (D := decls) 0 orgID userID
             (start s2_world same_pkg) in
  evs r = [] ∧ val r = None
  ∧ bkt_id <$> mBuckets (pkg (st r)) !! 0 = Some (bkt_id same_b1)
  ∧ slices (st r) = slices (start s2_world same_pkg).
Proof.
  apply (proj1 (C10_shouldApply_gate svc (D := decls))
           (start s2_world same_pkg) 0 orgID userID same_b1); reflexivity.
Defined.

(** C4 refuted as stated, scenario S4: the rule's endpoint is missing, the
    dry run returns its error, and the package is still unverified. *)
Lemma C4_counterexample :
  let r := DryRun svc (D := decls) orgID userID [] (start s4_world s4_pkg) in
  is_Some (val r).2 ∧ isVerified (pkg (st r)) = false.
Proof. vm_compute. split; eauto. Qed.

(** C4 at work on scenario S4: the dry run returns early with the error
    of the missing endpoint, and the package is as unverified as it was. *)
Lemma C4_verified_on_completion_witness :
  let s := start s4_world s4_pkg in
  let r := DryRun svc (D := decls) orgID userID [] s in
  isVerified (pkg (st r)) = isVerified (pkg s)
  ∧ val r = (Summary_zero, Diff_zero, Some (missing_endpoint_err s2_r1)).
Proof.
  pose proof (C4_verified_on_completion svc (D := decls) orgID userID []
                (start s4_world s4_pkg) (fun _ => eq_refl) (fun _ _ => eq_refl)) as H.
  vm_compute in H. vm_compute. exact H.
Defined.

(** C6 refuted as stated, scenario S4: the package declares bucket b2, yet
    the diff handed back with the error is [Diff{}] and holds no bucket
    entry, and the summary is empty. *)
Lemma C6_counterexample :
  let r := DryRun svc (D := decls) orgID userID [] (start s4_world s4_pkg) in
  is_Some (val r).2
  ∧ mBuckets s4_pkg = [s4_b2]
  ∧ Buckets (val r).1.2 = []
  ∧ (val r).1.2 = Diff_zero
  ∧ (val r).1.1 = [].
Proof. vm_compute. repeat split; eauto. Qed.

(** C6 at work on scenario S4. *)
Lemma C6_missing_endpoint_aborts_witness :
  val (DryRun svc (D := decls) orgID userID [] (start s4_world s4_pkg))
  = ([], Diff_zero,
     Some (influxdb_Error EUnprocessableEntity EmptyString
             (Some (errorString
                ("failed to find notification endpoint " +:+ quote "e1"
                   +:+ " dependency for notification rule " +:+ quote "r1"))))).
Proof.
  eapply (C6_missing_endpoint_aborts svc (D := decls) orgID userID []
            (start s4_world s4_pkg) None _ [] s2_r1); vm_compute; reflexivity.
Defined.

(** C8 at work on a package with a bucket, a check and a label that the
    platform does not hold: once when the lookups answer not-found (for
    the label: with no label), once when they break down. *)
Lemma C8_lookup_failure_is_new_witness :
  Forall (fun w : World =>
    let s := start w MoreScenarios.s8_pkg in
    (let r := dryRunBuckets svc orgID s in
     ∃ d, d ∈ val r ∧ Diff_Name d = "b2" ∧ Diff_Old d = None ∧ IsNew d = true
          ∧ bkt_existing <$> mBuckets (pkg (st r)) !! 0 = Some None)
    ∧ (let r := dryRunChecks svc orgID s in
     ∃ d, d ∈ val r ∧ Diff_Name d = "c1" ∧ Diff_Old d = None ∧ IsNew d = true
          ∧ chk_existing <$> mChecks (pkg (st r)) !! 0 = Some None)
    ∧ (let r := dryRunLabels svc orgID s in
     ∃ d, d ∈ val r ∧ Diff_Name d = "l1" ∧ Diff_Old d = None ∧ IsNew d = true
          ∧ lbl_existing <$> mLabels (pkg (st r)) !! 0 = Some None))
    [MoreScenarios.s8_world; MoreScenarios.s8_world_down].
Proof.
  pose proof (C8_lookup_failure_is_new svc) as (Hb & Hc & Hl).
  repeat apply Forall_cons_2; [| |apply Forall_nil_2]; split_and!.
  - apply (Hb (start MoreScenarios.s8_world MoreScenarios.s8_pkg) orgID 0 s4_b2);
      [repeat constructor; set_solver | reflexivity
      | vm_compute; constructor; split; reflexivity].
  - apply (Hc (start MoreScenarios.s8_world MoreScenarios.s8_pkg) orgID 0
             MoreScenarios.s8_c1);
      [repeat constructor; set_solver | reflexivity
      | vm_compute; constructor; split; reflexivity].
  - apply (Hl (start MoreScenarios.s8_world MoreScenarios.s8_pkg) orgID 0
             MoreScenarios.s8_l1);
      [repeat constructor; set_solver | reflexivity
      | vm_compute; constructor; split; reflexivity].
  - apply (Hb (start MoreScenarios.s8_world_down MoreScenarios.s8_pkg) orgID 0 s4_b2);
      [repeat constructor; set_solver | reflexivity
      | vm_compute; constructor; split; reflexivity].
  - apply (Hc (start MoreScenarios.s8_world_down MoreScenarios.s8_pkg) orgID 0
             MoreScenarios.s8_c1);
      [repeat constructor; set_solver | reflexivity
      | vm_compute; constructor; split; reflexivity].
  - apply (Hl (start MoreScenarios.s8_world_down MoreScenarios.s8_pkg) orgID 0
             MoreScenarios.s8_l1);
      [repeat constructor; set_solver | reflexivity
      | vm_compute; constructor; split; reflexivity].
Defined.

(** C8 refuted as stated.  A first dry run finds bucket b1 on the platform
    and fills its slot; a second dry run of the same package, when the
    bucket service has broken down, reports b1 as new with no live
    counterpart, and the slot still holds the bucket the first one found. *)
Lemma C8_counterexample :
  let r1 := dryRunBuckets svc orgID (start s2_world s2_pkg) in
  let r2 := dryRunBuckets svc orgID (start s4_world_down (pkg (st r1))) in
  bkt_existing <$> mBuckets s2_pkg !! 0 = Some None
  ∧ bkt_existing <$> mBuckets (pkg (st r1)) !! 0 = Some (Some s2_live_b1)
  ∧ (∃ d, d ∈ val r2 ∧ Diff_Name d = "b1" ∧ Diff_Old d = None ∧ IsNew d = true)
  ∧ bkt_existing <$> mBuckets (pkg (st r2)) !! 0 = Some (Some s2_live_b1).
Proof.
  vm_compute. split_and!; try reflexivity.
  eexists. split; [constructor|]. split_and!; reflexivity.
Qed.

(** C3 refuted as stated, scenario S6: the apply is given the option that
    supplies the secret, the package is not verified, and the one dry run
    inside the apply is invoked with no option at all. *)
Lemma C3_counterexample :
  let opts := [ApplyWithSecrets s6_secrets] in
  let r := Apply svc (D := decls) live orgID userID opts (start s6_world s6_pkg) in
  isVerified s6_pkg = false
  ∧ length opts = 1
  ∧ ∃ opts', omap dryRun_event (evs r) = [(orgID, userID, opts')] ∧ length opts' = 0.
Proof. vm_compute. repeat split. eexists. split; reflexivity. Qed.

(** C5 refuted as stated, scenario S6: the rule tier fails, and the
    rollbackers are invoked first recorded first, from the secrets of the
    first tier to the rules of the failing one, not in reverse. *)
Lemma C5_counterexample :
  let r := Apply svc (D := decls) live orgID userID [ApplyWithSecrets s6_secrets]
             (start s6_world s6_pkg) in
  let recorded :=
    ["secrets"; "label"; "variable"; "bucket"; "check"; "dashboard";
     "notification_endpoints"; "tasks"; "telegrafs"; "notification_rules"] in
  is_Some (val r).2
  ∧ omap rollback_resource (evs r) = recorded
  ∧ omap rollback_resource (evs r) ≠ rev recorded.
Proof. vm_compute. repeat split; eauto. discriminate. Qed.

(** * More of the applier *)

Section MoreFacts.
Context {W : Type} (svc : ∀ c : Call, W → Resp c * W) `{D : Decls}.
Implicit Types (s : @St W).

(** ** The calls of the tiers and of the rollback *)

Lemma calls_sat_mono (P P' : Call → bool) l :
  (∀ c, P c = true → P' c = true) → calls_sat P l → calls_sat P' l.
Proof.
  intros HP H. eapply Forall_impl; [exact H|]. intros [] He; auto.
Qed.

Lemma calls_sat_app (P : Call → bool) l1 l2 :
  calls_sat P (l1 ++ l2) ↔ calls_sat P l1 ∧ calls_sat P l2.
Proof. apply Forall_app. Qed.

Ltac kind_tac :=
  repeat match goal with
  | |- calls_sat _ _ => unfold calls_sat
  | |- Forall _ [] => constructor
  | |- Forall _ (_ ++ _) => apply Forall_app; split
  | |- Forall _ (evs (bind _ _ _)) => rewrite bind_evs
  | |- Forall _ (evs (ret _ _)) => constructor
  | |- Forall _ (evs (getPkg _)) => constructor
  | |- Forall _ (evs (getSlices _)) => constructor
  | |- Forall _ (evs (modifyPkg _ _)) => constructor
  | |- Forall _ (evs (modifySlices _ _)) => constructor
  | |- Forall _ (evs (emit _ _)) => constructor; [exact I | constructor]
  | |- Forall _ (evs (call _ _ _)) => constructor; [reflexivity | constructor]
  | |- Forall _ (evs (foldM _ _ _ _)) => apply foldM_sat; intros
  | |- Forall _ (evs (bindR _ _ _)) => unfold bindR
  | |- Forall _ (evs (match ?x with _ => _ end _)) => destruct x
  | |- Forall _ (evs (if ?x then _ else _)) => destruct x
  | |- Forall _ (evs ((if ?x then _ else _) _)) => destruct x
  end.

Lemma deleteByIDs_sat (P : Call → bool) resource n
    (deleteFn : ID → @M W (option error)) (iterFn : nat → @M W ID) :
  (∀ id s, calls_sat P (evs (deleteFn id s))) →
  (∀ i s, calls_sat P (evs (iterFn i s))) →
  ∀ s, calls_sat P (evs (deleteByIDs resource n deleteFn iterFn s)).
Proof.
  intros Hd Hi s. unfold deleteByIDs. rewrite bind_evs. apply Forall_app. split.
  2: { kind_tac. }
  generalize (@nil string) (seq 0 n) s. intros errs idxs. revert errs.
  induction idxs as [|i idxs IH]; intros errs s'; cbn [deleteByIDs_loop].
  - kind_tac.
  - rewrite !bind_evs. repeat (apply Forall_app; split); [apply Hi | apply Hd | apply IH].
Qed.

Ltac applier_tac :=
  cbn [app_creater app_rollbacker creater_fn rollbacker_fn]; split; intros;
  repeat first
    [ progress kind_tac
    | apply deleteByIDs_sat; intros
    | progress unfold applyBuckets_createFn, applyBucket, rollbackBuckets,
        rollbackBuckets_one, applyChecks_createFn, applyCheck, rollbackChecks,
        rollbackChecks_one, applyDashboards_createFn, applyDashboard,
        applyLabels_createFn, applyLabel, rollbackLabels, rollbackLabels_one,
        applyVariables_createFn, applyVariable, rollbackVariables, rollbackVariables_one,
        applyNotificationEndpoints_createFn, applyNotificationEndpoint,
        rollbackNotificationEndpoints, rollbackNotificationEndpoints_one,
        applyNotificationRules_createFn, applyNotificationRule,
        rollbackNotificationRules, rollbackNotificationRules_one,
        applyTasks_createFn, applyTelegrafs_createFn, applyLabelMappings_createFn,
        rollbackLabelMappings, rollbackLabelMappings_one ].

Lemma applyBuckets_kind l : calls_kind tier_call undo_call (applyBuckets svc l).
Proof. unfold calls_kind, applyBuckets. applier_tac. Qed.

Lemma applyChecks_kind l : calls_kind tier_call undo_call (applyChecks svc l).
Proof. unfold calls_kind, applyChecks. applier_tac. Qed.

Lemma applyDashboards_kind l : calls_kind tier_call undo_call (applyDashboards svc l).
Proof. unfold calls_kind, applyDashboards. applier_tac. Qed.

Lemma applyLabels_kind l : calls_kind tier_call undo_call (applyLabels svc l).
Proof. unfold calls_kind, applyLabels. applier_tac. Qed.

Lemma applyVariables_kind l : calls_kind tier_call undo_call (applyVariables svc l).
Proof. unfold calls_kind, applyVariables. applier_tac. Qed.

Lemma applyNotificationEndpoints_kind l :
  calls_kind tier_call undo_call (applyNotificationEndpoints svc l).
Proof. unfold calls_kind, applyNotificationEndpoints. applier_tac. Qed.

Lemma applyNotificationRules_kind l :
  calls_kind tier_call undo_call (applyNotificationRules svc l).
Proof. unfold calls_kind, applyNotificationRules. applier_tac. Qed.

Lemma applyTasks_kind l : calls_kind tier_call undo_call (applyTasks svc l).
Proof. unfold calls_kind, applyTasks. applier_tac. Qed.

Lemma applyTelegrafs_kind l : calls_kind tier_call undo_call (applyTelegrafs svc l).
Proof. unfold calls_kind, applyTelegrafs. applier_tac. Qed.

Lemma applyLabelMappings_kind l :
  calls_kind tier_call undo_call (applyLabelMappings svc l).
Proof. unfold calls_kind, applyLabelMappings. applier_tac. Qed.

Section kinds.
Context (P Q : Call → bool).

Lemma runEntries_sat (app : @applier W) o u idxs : ∀ s,
  (∀ i o u s, calls_sat P (evs (creater_fn (app_creater app) i o u s))) →
  calls_sat P (evs (runEntries app o u idxs s)).
Proof.
  induction idxs as [|i idxs IH]; intros s Hq; cbn [runEntries]; [constructor|].
  rewrite !bind_evs. repeat (apply Forall_app; split);
    [by repeat constructor | apply Hq | by apply IH | constructor].
Qed.

Lemma runAppliers_sat o u (apps : list (@applier W)) : ∀ rb s,
  Forall (calls_kind P Q) apps → calls_sat P (evs (runAppliers o u apps rb s)).
Proof.
  induction apps as [|app apps IH]; intros rb s Hq; cbn [runAppliers]; [constructor|].
  apply Forall_cons in Hq as [[Hc _] Hq].
  rewrite !bind_evs. repeat (apply Forall_app; split);
    [by apply runEntries_sat | by apply IH | constructor].
Qed.

Lemma runTilEnd_sat fate o u (apps : list (@applier W)) rb s :
  Forall (calls_kind P Q) apps →
  let r := runTilEnd fate o u apps rb s in
  calls_sat P (evs r) ∧ (val r).2 = rb ++ map app_rollbacker apps.
Proof.
  intros Hq. cbv zeta. unfold runTilEnd. rewrite !bind_evs, !bind_val. split.
  - repeat (apply Forall_app; split);
      [by apply runAppliers_sat | by repeat constructor | constructor].
  - cbn [val ret snd]. clear Hq. revert rb s.
    induction apps as [|app apps IH]; intros rb s; cbn [runAppliers].
    + cbn. by rewrite app_nil_r.
    + rewrite !bind_val. cbn [val ret snd]. rewrite IH, <- app_assoc. done.
Qed.

Lemma kind_rollbackers (apps : list (@applier W)) :
  Forall (calls_kind P Q) apps →
  Forall (fun r => ∀ o s, calls_sat Q (evs (rollbacker_fn r o s))) (map app_rollbacker apps).
Proof.
  intros H. apply Forall_map. eapply Forall_impl; [exact H|]. by intros a [_ Ha].
Qed.

Lemma runGroups_sat fate o u (groups : list (list (@applier W))) : ∀ k rb s,
  Forall (Forall (calls_kind P Q)) groups →
  Forall (fun r => ∀ o s, calls_sat Q (evs (rollbacker_fn r o s))) rb →
  let r := runGroups fate k o u groups rb s in
  calls_sat P (evs r)
  ∧ Forall (fun r => ∀ o s, calls_sat Q (evs (rollbacker_fn r o s))) (val r).2.
Proof.
  induction groups as [|g groups IH]; intros k rb s Hq Hrb; cbn [runGroups].
  - split; [constructor | done].
  - apply Forall_cons in Hq as [Hg Hq]. cbv zeta.
    destruct (runTilEnd_sat (fate k) o u g rb s Hg) as [He Hv].
    rewrite bind_evs, bind_val.
    assert (Hrb' : Forall (fun r => ∀ o s, calls_sat Q (evs (rollbacker_fn r o s)))
                     (val (runTilEnd (fate k) o u g rb s)).2).
    { rewrite Hv. apply Forall_app. split; [done|]. by apply kind_rollbackers. }
    destruct (val (runTilEnd (fate k) o u g rb s)).1.
    + split; [|done]. apply Forall_app. split; [done | constructor].
    + destruct (IH (S k) _ (st (runTilEnd (fate k) o u g rb s)) Hq Hrb') as [He' Hv'].
      split; [|done]. by apply Forall_app.
Qed.

Lemma rollback_loop_sat (rs : list (@rollbacker W)) o : ∀ s,
  Forall (fun r => ∀ o s, calls_sat Q (evs (rollbacker_fn r o s))) rs →
  calls_sat Q (evs (rollback_loop rs o s)).
Proof.
  induction rs as [|r rs IH]; intros s Hq; cbn [rollback_loop]; [constructor|].
  apply Forall_cons in Hq as [Hr Hq].
  rewrite !bind_evs. repeat (apply Forall_app; split);
    [by repeat constructor | apply Hr | | by apply IH].
  destruct (val _); by repeat constructor.
Qed.

(** The body of the apply makes calls of kind [P] and leaves rollbackers
    of kind [Q], when the secrets applier is of these kinds and they
    include the calls of the other appliers and of the rule resolver. *)
Lemma Apply_body_sat fate o u opt s :
  calls_kind P Q (applySecrets svc (MissingSecrets opt)) →
  (∀ c, tier_call c = true → P c = true) →
  (∀ c, undo_call c = true → Q c = true) →
  P (FindNotificationEndpoints o) = true →
  let b := Apply_body svc fate o u opt s in
  calls_sat P (evs b)
  ∧ Forall (fun r => ∀ o s, calls_sat Q (evs (rollbacker_fn r o s))) (val b).2.
Proof.
  intros HS HP HQ HF. cbv zeta.
  assert (Hk : ∀ a : @applier W, calls_kind tier_call undo_call a → calls_kind P Q a).
  { intros a [Ha1 Ha2]. split; intros.
    - eapply calls_sat_mono; [exact HP | apply Ha1].
    - eapply calls_sat_mono; [exact HQ | apply Ha2]. }
  unfold Apply_body. rewrite !bind_evs, !bind_val, ?bind_st.
  change (evs (modifySlices _ s)) with (@nil Event).
  change (evs (getPkg _)) with (@nil Event).
  cbn [List.app].
  match goal with |- context [runGroups fate 0 o u ?gs [] ?s0] =>
    assert (Hgs : Forall (Forall (calls_kind P Q)) gs);
      [ repeat first [apply Forall_nil_2 | apply Forall_cons_2];
        first [ exact HS
              | apply Hk;
                auto using applyLabels_kind, applyVariables_kind,
                  applyBuckets_kind, applyChecks_kind, applyDashboards_kind,
                  applyNotificationEndpoints_kind, applyTasks_kind, applyTelegrafs_kind ]
      | destruct (runGroups_sat fate o u gs 0 [] s0 Hgs (Forall_nil_2 _)) as [He Hv];
        clear Hgs; generalize dependent (runGroups fate 0 o u gs [] s0) ]
  end.
  intros r He Hv. destruct (val r).1.
  { split; [|done]. apply Forall_app. split; [done | constructor]. }
  rewrite !bind_evs, !bind_val, ?bind_st.
  assert (Hgen : calls_sat P (evs (applyNotificationRulesGenerator svc o (st r)))).
  { unfold applyNotificationRulesGenerator. rewrite bind_evs. apply Forall_app. split.
    - constructor; [exact HF | constructor].
    - destruct (val (call svc _ _)); [|constructor]. kind_tac. unfold resolve_rule. kind_tac. }
  pose proof (applyNotificationRulesGenerator_Ok svc o (st r)) as HgenOk.
  generalize dependent (applyNotificationRulesGenerator svc o (st r)). intros g Hgen HgenOk.
  destruct (val g) as [app|e].
  2: { split; [|done]. repeat (apply Forall_app; split); [done | done | constructor]. }
  destruct (HgenOk app eq_refl) as [rules ->].
  rewrite !bind_evs, !bind_val, ?bind_st.
  destruct (runTilEnd_sat (fate 3) o u [applyNotificationRules svc rules] (val r).2 (st g))
    as [He3 Hv3].
  { repeat first [apply Forall_nil_2 | apply Forall_cons_2].
    apply Hk, applyNotificationRules_kind. }
  assert (HF3 : Forall (fun r => ∀ o s, calls_sat Q (evs (rollbacker_fn r o s)))
                  (val (runTilEnd (fate 3) o u [applyNotificationRules svc rules]
                          (val r).2 (st g))).2).
  { rewrite Hv3. apply Forall_app. split; [done|].
    apply kind_rollbackers. repeat first [apply Forall_nil_2 | apply Forall_cons_2].
    apply Hk, applyNotificationRules_kind. }
  generalize dependent (runTilEnd (fate 3) o u [applyNotificationRules svc rules]
                          (val r).2 (st g)).
  intros r3 He3 _ HF3. destruct (val r3).1.
  { split; [|done]. repeat (apply Forall_app; split); [done | done | done | constructor]. }
  rewrite !bind_evs, !bind_val, ?bind_st.
  change (evs (getPkg _)) with (@nil Event). cbn [List.app].
  match goal with |- context [runTilEnd (fate 4) o u ?apps ?rb ?s4] =>
    destruct (runTilEnd_sat (fate 4) o u apps rb s4) as [He4 Hv4];
      [ repeat first [apply Forall_nil_2 | apply Forall_cons_2];
        apply Hk, applyLabelMappings_kind
      | assert (HF4 : Forall (fun r => ∀ o s, calls_sat Q (evs (rollbacker_fn r o s)))
                        (val (runTilEnd (fate 4) o u apps rb s4)).2);
        [ rewrite Hv4; apply Forall_app; split; [done|];
          apply kind_rollbackers; repeat first [apply Forall_nil_2 | apply Forall_cons_2];
          apply Hk, applyLabelMappings_kind
        | generalize dependent (runTilEnd (fate 4) o u apps rb s4) ] ]
  end.
  intros r4 He4 _ HF4. destruct (val r4).1.
  { split; [|done]. repeat (apply Forall_app; split); try done; constructor. }
  rewrite !bind_evs. split; [|done].
  repeat (apply Forall_app; split); try done; constructor.
Qed.

End kinds.

Lemma applySecrets_kind m :
  calls_kind (fun c => is_write c || is_lookup c) (fun c => is_delete c || is_update c)
    (applySecrets svc m).
Proof.
  unfold calls_kind, applySecrets. destruct (decide _);
    cbn [app_creater app_rollbacker creater_fn rollbacker_fn creater_zero];
    split; intros; kind_tac.
  unfold applySecrets_createFn. kind_tac.
Qed.

Lemma applySecrets_empty_kind (P Q : Call → bool) m :
  m = ∅ → calls_kind P Q (applySecrets svc m).
Proof.
  intros ->. unfold calls_kind, applySecrets.
  destruct (decide _) as [_|Hn]; [|by rewrite map_size_empty in Hn].
  cbn [app_creater app_rollbacker creater_fn rollbacker_fn creater_zero].
  split; intros; constructor.
Qed.

(** X4.  The trace of an apply past verification is the trace of its
    tiers followed by the trace of the rollback.  The tiers create, update
    and look up, and never delete; the rollback deletes and updates, and
    never creates or looks up; no rollback closure is invoked while the
    tiers run, and none at all when the apply returns no error. *)
Theorem Apply_tiers_then_rollback fate orgID userID opt s :
  let b := Apply_body svc fate orgID userID opt s in
  let r := Apply_run svc fate orgID userID opt s in
  ∃ undo,
    evs r = evs b ++ undo
    ∧ calls_sat (fun c => is_write c || is_lookup c) (evs b)
    ∧ omap rollback_resource (evs b) = []
    ∧ calls_sat (fun c => is_delete c || is_update c) undo
    ∧ match (val r).2 with None => undo = [] | Some _ => True end.
Proof.
  cbv zeta. unfold Apply_run.
  rewrite (bind_evs (Apply_body svc fate orgID userID opt)), (bind_evs (rollback _ _ _)).
  rewrite !bind_val. cbn [evs ret val].
  rewrite app_nil_r. eexists. split; [reflexivity|].
  destruct (Apply_body_sat (fun c => is_write c || is_lookup c)
              (fun c => is_delete c || is_update c) fate orgID userID opt s)
    as [Hb Hrb].
  { apply applySecrets_kind. }
  { intros c. unfold tier_call. destruct (is_write c); [done|]. by cbn. }
  { intros c. unfold undo_call. destruct (is_delete c || is_update c); [done|]. by cbn. }
  { reflexivity. }
  split; [exact Hb|]. split; [by apply Apply_body_omap|].
  destruct (val (Apply_body svc fate orgID userID opt s)).1.2.
  - split; [|done]. cbn [rollback]. by apply rollback_loop_sat.
  - split; [constructor | done].
Qed.

(** X5.  When the caller supplies no secret, an apply past verification
    makes no call to the secret service, neither in its tiers nor in its
    rollback. *)
Theorem Apply_run_without_secrets fate orgID userID opt s :
  MissingSecrets opt = ∅ →
  calls_sat (fun c => negb (is_secret c)) (evs (Apply_run svc fate orgID userID opt s)).
Proof.
  intros Hm. unfold Apply_run.
  rewrite (bind_evs (Apply_body svc fate orgID userID opt)), (bind_evs (rollback _ _ _)).
  destruct (Apply_body_sat (fun c => negb (is_secret c)) (fun c => negb (is_secret c))
              fate orgID userID opt s) as [Hb Hrb].
  { by apply applySecrets_empty_kind. }
  { intros c. unfold tier_call. by intros [_ H]%andb_prop. }
  { intros c. unfold undo_call. by intros [_ H]%andb_prop. }
  { reflexivity. }
  apply Forall_app. split; [exact Hb|]. apply Forall_app. split; [|constructor].
  destruct (val (Apply_body svc fate orgID userID opt s)).1.2.
  - cbn [rollback]. by apply rollback_loop_sat.
  - constructor.
Qed.

(** ** What the rollback closures send *)

Lemma call_pkg c s : pkg (st (call svc c s)) = pkg s.
Proof. reflexivity. Qed.

Lemma call_slices c s : slices (st (call svc c s)) = slices s.
Proof. reflexivity. Qed.

Lemma call_evs c s : omap call_of (evs (call svc c s)) = [c].
Proof. reflexivity. Qed.

Lemma rollbackVariables_one_calls errs i s :
  let r := rollbackVariables_one svc errs i s in
  pkg (st r) = pkg s ∧ slices (st r) = slices s
  ∧ omap call_of (evs r)
    = match mVariables (pkg s) !! i with
      | Some v =>
          [match var_existing v with
           | Some existing =>
               UpdateVariable (variable_ID v)
                 (mkVariableUpdate (Variable_Description existing)
                    (Variable_Arguments existing))
           | None => DeleteVariable (variable_ID v)
           end]
      | None => []
      end.
Proof.
  cbv zeta. unfold rollbackVariables_one. rewrite bind_evs, bind_st, ?bind_val.
  change (val (getPkg s)) with (pkg s). change (st (getPkg s)) with s.
  change (evs (getPkg s)) with (@nil Event). cbn [List.app].
  destruct (mVariables (pkg s) !! i) as [v|]; [|done].
  destruct (var_existing v) as [e|]; rewrite bind_evs, bind_st, omap_app; split_and!; reflexivity.
Qed.

(** X6.  The rollback closure of the variables goes through the variables
    the apply recorded, in the order it recorded them, and sends one call
    for each: for a variable that existed before the apply, an update that
    carries the description and the arguments of the live variable the dry
    run captured; for a variable the apply created, a delete. *)
Theorem rollbackVariables_restores l orgID s :
  omap call_of (evs (rollbacker_fn (app_rollbacker (applyVariables svc l)) orgID s))
  = omap (fun i =>
            match mVariables (pkg s) !! i with
            | Some v =>
                Some
                  match var_existing v with
                  | Some existing =>
                      UpdateVariable (variable_ID v)
                        (mkVariableUpdate (Variable_Description existing)
                           (Variable_Arguments existing))
                  | None => DeleteVariable (variable_ID v)
                  end
            | None => None
            end)
      (sl_rollBackVars (slices s)).
Proof.
  cbn [applyVariables app_rollbacker rollbacker_fn]. rewrite bind_evs.
  change (evs (getSlices s)) with (@nil Event).
  change (val (getSlices s)) with (slices s). change (st (getSlices s)) with s.
  cbn [List.app]. unfold rollbackVariables. rewrite bind_evs, omap_app.
  cbn [evs ret omap]. rewrite app_nil_r.
  generalize (@nil string) (sl_rollBackVars (slices s)). intros errs idxs.
  revert errs s. induction idxs as [|i idxs IH]; intros errs s; cbn [foldM]; [done|].
  rewrite bind_evs, omap_app.
  destruct (rollbackVariables_one_calls errs i s) as (Hp & _ & ->).
  rewrite IH, Hp. change (omap ?f (i :: idxs)) with
    (match f i with Some y => y :: omap f idxs | None => omap f idxs end).
  cbv beta. by destruct (mVariables (pkg s) !! i).
Qed.

Lemma rollbackLabels_one_calls errs i s :
  let r := rollbackLabels_one svc errs i s in
  pkg (st r) = pkg s
  ∧ omap call_of (evs r)
    = match mLabels (pkg s) !! i with
      | Some l =>
          [match lbl_existing l with
           | Some existing =>
               UpdateLabel (label_ID l) (mkLabelUpdate (Label_Properties existing))
           | None => DeleteLabel (label_ID l)
           end]
      | None => []
      end.
Proof.
  cbv zeta. unfold rollbackLabels_one. rewrite bind_evs, bind_st, ?bind_val.
  change (val (getPkg s)) with (pkg s). change (st (getPkg s)) with s.
  change (evs (getPkg s)) with (@nil Event). cbn [List.app].
  destruct (mLabels (pkg s) !! i) as [l|]; [|done].
  destruct (lbl_existing l) as [e|]; rewrite bind_evs, bind_st, omap_app;
    split_and!; reflexivity.
Qed.

(** X7.  The rollback closure of the labels sends one call for each label
    the apply recorded, in the order it recorded them: for a label that
    existed before the apply, an update that carries the properties of the
    live label the dry run captured; for a label the apply created, a
    delete. *)
Theorem rollbackLabels_restores l orgID s :
  omap call_of (evs (rollbacker_fn (app_rollbacker (applyLabels svc l)) orgID s))
  = omap (fun i =>
            match mLabels (pkg s) !! i with
            | Some l =>
                Some
                  match lbl_existing l with
                  | Some existing =>
                      UpdateLabel (label_ID l) (mkLabelUpdate (Label_Properties existing))
                  | None => DeleteLabel (label_ID l)
                  end
            | None => None
            end)
      (sl_rollBackLabels (slices s)).
Proof.
  cbn [applyLabels app_rollbacker rollbacker_fn]. rewrite bind_evs.
  change (evs (getSlices s)) with (@nil Event).
  change (val (getSlices s)) with (slices s). change (st (getSlices s)) with s.
  cbn [List.app]. unfold rollbackLabels. rewrite bind_evs, omap_app.
  cbn [evs ret omap]. rewrite app_nil_r.
  generalize (@nil string) (sl_rollBackLabels (slices s)). intros errs idxs.
  revert errs s. induction idxs as [|i idxs IH]; intros errs s; cbn [foldM]; [done|].
  rewrite bind_evs, omap_app.
  destruct (rollbackLabels_one_calls errs i s) as (Hp & ->).
  rewrite IH, Hp. change (omap ?f (i :: idxs)) with
    (match f i with Some y => y :: omap f idxs | None => omap f idxs end).
  cbv beta. by destruct (mLabels (pkg s) !! i).
Qed.

Lemma rollbackNotificationEndpoints_one_calls errs i s :
  let r := rollbackNotificationEndpoints_one svc errs i s in
  pkg (st r) = pkg s
  ∧ omap call_of (evs r)
    = match mNotificationEndpoints (pkg s) !! i with
      | Some e =>
          [match ep_existing e with
           | Some existing => UpdateNotificationEndpoint (endpoint_ID e) existing 0%N
           | None => DeleteNotificationEndpoint (endpoint_ID e)
           end]
      | None => []
      end.
Proof.
  cbv zeta. unfold rollbackNotificationEndpoints_one. rewrite bind_evs, bind_st, ?bind_val.
  change (val (getPkg s)) with (pkg s). change (st (getPkg s)) with s.
  change (evs (getPkg s)) with (@nil Event). cbn [List.app].
  destruct (mNotificationEndpoints (pkg s) !! i) as [e|]; [|done].
  destruct (ep_existing e) as [x|]; rewrite bind_evs, bind_st, omap_app;
    split_and!; reflexivity.
Qed.

(** X8.  The rollback closure of the notification endpoints sends one call
    for each endpoint the apply recorded, in the order it recorded them:
    for an endpoint that existed before the apply, an update with the live
    endpoint the dry run captured and the zero user id; for an endpoint
    the apply created, a delete. *)
Theorem rollbackNotificationEndpoints_restores l orgID s :
  omap call_of
    (evs (rollbacker_fn (app_rollbacker (applyNotificationEndpoints svc l)) orgID s))
  = omap (fun i =>
            match mNotificationEndpoints (pkg s) !! i with
            | Some e =>
                Some
                  match ep_existing e with
                  | Some existing =>
                      UpdateNotificationEndpoint (endpoint_ID e) existing 0%N
                  | None => DeleteNotificationEndpoint (endpoint_ID e)
                  end
            | None => None
            end)
      (sl_rollbackEndpoints (slices s)).
Proof.
  cbn [applyNotificationEndpoints app_rollbacker rollbacker_fn]. rewrite bind_evs.
  change (evs (getSlices s)) with (@nil Event).
  change (val (getSlices s)) with (slices s). change (st (getSlices s)) with s.
  cbn [List.app]. unfold rollbackNotificationEndpoints. rewrite bind_evs, omap_app.
  cbn [evs ret omap]. rewrite app_nil_r.
  generalize (@nil string) (sl_rollbackEndpoints (slices s)). intros errs idxs.
  revert errs s. induction idxs as [|i idxs IH]; intros errs s; cbn [foldM]; [done|].
  rewrite bind_evs, omap_app.
  destruct (rollbackNotificationEndpoints_one_calls errs i s) as (Hp & ->).
  rewrite IH, Hp. change (omap ?f (i :: idxs)) with
    (match f i with Some y => y :: omap f idxs | None => omap f idxs end).
  cbv beta. by destruct (mNotificationEndpoints (pkg s) !! i).
Qed.

Lemma map_seq_lookup {A B} (f : option A → B) (l : list A) :
  map (fun i => f (l !! i)) (seq 0 (length l)) = map (fun a => f (Some a)) l.
Proof.
  induction l as [|a l IH] using rev_ind; [done|].
  rewrite length_app, Nat.add_comm. cbn [length Nat.add]. rewrite seq_S, !map_app.
  cbn [map Nat.add]. rewrite lookup_app_r, Nat.sub_diag by lia. cbn [lookup list_lookup].
  f_equal. rewrite <- IH. apply map_ext_in. intros i Hi%in_seq.
  by rewrite lookup_app_l by lia.
Qed.

Lemma rollback_error_nil_iff what msg errs : rollback_error what msg errs = None ↔ errs = [].
Proof. by destruct errs. Qed.

Lemma deleteTasks_loop idxs : ∀ errs s,
  let iterFn := fun i : nat =>
    (sl <- getSlices ;;
     ret (match sl_rollbackTasks sl !! i with Some t => task_ID t | None => 0%N end))%M in
  let r := deleteByIDs_loop (fun id => call svc (DeleteTask id)) iterFn idxs errs s in
  omap call_of (evs r)
  = map (fun i => DeleteTask
                    (match sl_rollbackTasks (slices s) !! i with
                     | Some t => task_ID t
                     | None => 0%N
                     end)) idxs
  ∧ (val r = [] ↔
     errs = []
     ∧ Forall (fun e => match e with
                        | EvCall (DeleteTask _) resp => resp = None
                        | _ => True
                        end) (evs r)).
Proof.
  induction idxs as [|i idxs IH]; intros errs s; cbv zeta; cbn [deleteByIDs_loop].
  - split; [done|]. cbn. split; [by intros -> | by intros [-> _]].
  - rewrite !bind_evs, !bind_val, !bind_st, !omap_app.
    change (evs (getSlices s)) with (@nil Event).
    change (val (getSlices s)) with (slices s). change (st (getSlices s)) with s.
    cbn [evs ret val st List.app omap].
    match goal with |- context [call svc (DeleteTask ?id) s] => set (id0 := id) end.
    match goal with |- context [deleteByIDs_loop ?d ?it idxs ?e ?s'] =>
      destruct (IH e s') as [Hc Hv] end.
    split; [exact (f_equal (cons (DeleteTask id0)) Hc)|].
    rewrite Hv. cbn [evs call List.app]. rewrite Forall_cons.
    destruct (svc (DeleteTask id0) (world s)).1 as [e|] eqn:E;
      change (val (call svc (DeleteTask id0) s)) with (svc (DeleteTask id0) (world s)).1;
      rewrite E.
    + split.
      * intros [H _]. apply app_nil in H as [_ H]. discriminate.
      * intros (_ & H & _). discriminate.
    + tauto.
Qed.

(** X9.  The rollback closure of the tasks attempts one delete for each
    task the apply recorded, in the order it recorded them and whatever
    the earlier deletes return; it returns no error exactly when every one
    of its deletes returned none. *)
Theorem rollbackTasks_deletes_each l orgID s :
  let r := rollbacker_fn (app_rollbacker (applyTasks svc l)) orgID s in
  omap call_of (evs r) = map (fun t => DeleteTask (task_ID t)) (sl_rollbackTasks (slices s))
  ∧ (val r = None ↔
     Forall (fun e => match e with
                      | EvCall (DeleteTask _) resp => resp = None
                      | _ => True
                      end) (evs r)).
Proof.
  cbv zeta. cbn [applyTasks app_rollbacker rollbacker_fn].
  rewrite bind_evs, bind_val.
  change (evs (getSlices s)) with (@nil Event).
  change (val (getSlices s)) with (slices s). change (st (getSlices s)) with s.
  cbn [List.app]. unfold deleteByIDs. rewrite bind_evs, bind_val, omap_app.
  cbn [evs ret val omap]. rewrite !app_nil_r.
  destruct (deleteTasks_loop (seq 0 (length (sl_rollbackTasks (slices s)))) [] s)
    as [Hc Hv].
  cbv zeta in Hc, Hv. rewrite Hc, rollback_error_nil_iff, Hv. split.
  - apply (map_seq_lookup
             (fun o => DeleteTask (match o with Some t => task_ID t | None => 0%N end))).
  - tauto.
Qed.

End MoreFacts.

(** ** More scenarios, run *)

(** X5 at work on scenario S2, applied with no option. *)
Lemma Apply_run_without_secrets_witness :
  calls_sat (fun c => negb (is_secret c))
    (evs (Apply_run svc (D := decls) live orgID userID ApplyOpt_zero
            (start s2_world s2_pkg))).
Proof.
  apply (Apply_run_without_secrets svc (D := decls) live orgID userID ApplyOpt_zero
           (start s2_world s2_pkg)).
  reflexivity.
Defined.

(** * The tiers in order *)

Section Tiers.
Context {W : Type} (svc : ∀ c : Call, W → Resp c * W) `{D : Decls}.
Implicit Types (s : @St W).

(** ** The units keep to their business *)

Lemma sizes_bind {A B} (m : @M W A) (k : A → M B) s :
  (∀ a s', pkg_sizes (pkg (st (k a s'))) = pkg_sizes (pkg s')) →
  pkg_sizes (pkg (st (m s))) = pkg_sizes (pkg s) →
  pkg_sizes (pkg (st (bind m k s))) = pkg_sizes (pkg s).
Proof. intros Hk Hm. rewrite bind_st, Hk. exact Hm. Qed.

Lemma sizes_modify (f : Pkg → Pkg) s :
  (∀ p, pkg_sizes (f p) = pkg_sizes p) →
  pkg_sizes (pkg (st (modifyPkg f s))) = pkg_sizes (pkg s).
Proof. intros Hf. apply Hf. Qed.

Lemma foldM_sizes {A B} (f : B → A → @M W B) l :
  (∀ b a s, pkg_sizes (pkg (st (f b a s))) = pkg_sizes (pkg s)) →
  ∀ b s, pkg_sizes (pkg (st (foldM f l b s))) = pkg_sizes (pkg s).
Proof.
  intros Hf. induction l as [|x l IH]; intros b s; cbn [foldM]; [done|].
  apply sizes_bind; [intros; apply IH | apply Hf].
Qed.

Ltac sizes_tac :=
  repeat match goal with
  | |- pkg_sizes (pkg (st (bind _ _ _))) = _ => apply sizes_bind; [intros|]
  | |- pkg_sizes (pkg (st (ret _ _))) = _ => reflexivity
  | |- pkg_sizes (pkg (st (getPkg _))) = _ => reflexivity
  | |- pkg_sizes (pkg (st (getSlices _))) = _ => reflexivity
  | |- pkg_sizes (pkg (st (modifySlices _ _))) = _ => reflexivity
  | |- pkg_sizes (pkg (st (call _ _ _))) = _ => reflexivity
  | |- pkg_sizes (pkg (st (modifyPkg _ _))) = _ =>
      apply sizes_modify; intros; unfold pkg_sizes; cbn; rewrite ?length_alter; reflexivity
  | |- pkg_sizes (pkg (st (foldM _ _ _ _))) = _ => apply foldM_sizes; intros
  | |- pkg_sizes (pkg (st (match ?x with _ => _ end _))) = _ => destruct x
  | |- pkg_sizes (pkg (st (if ?x then _ else _))) = _ => destruct x
  | |- pkg_sizes (pkg (st ((if ?x then _ else _) _))) = _ => destruct x
  end.

Lemma foldM_calls {A B} (f : B → A → @M W B) l :
  (∀ b a s, calls_only (evs (f b a s))) → ∀ b s, calls_only (evs (foldM f l b s)).
Proof.
  intros Hf. induction l as [|x l IH]; intros b s; cbn [foldM].
  - constructor.
  - rewrite bind_evs. apply Forall_app. split; [apply Hf | apply IH].
Qed.

Ltac calls_tac :=
  repeat match goal with
  | |- calls_only _ => unfold calls_only
  | |- Forall is_call [] => constructor
  | |- Forall is_call (_ ++ _) => apply Forall_app; split
  | |- Forall is_call (evs (bind _ _ _)) => rewrite bind_evs
  | |- Forall is_call (evs (ret _ _)) => constructor
  | |- Forall is_call (evs (getPkg _)) => constructor
  | |- Forall is_call (evs (getSlices _)) => constructor
  | |- Forall is_call (evs (modifyPkg _ _)) => constructor
  | |- Forall is_call (evs (modifySlices _ _)) => constructor
  | |- Forall is_call (evs (call _ _ _)) => constructor; [exact I | constructor]
  | |- Forall is_call (evs (foldM _ _ _ _)) => apply foldM_calls; intros
  | |- Forall is_call (evs (match ?x with _ => _ end _)) => destruct x
  | |- Forall is_call (evs (if ?x then _ else _)) => destruct x
  | |- Forall is_call (evs ((if ?x then _ else _) _)) => destruct x
  end.

Ltac proc_tac :=
  repeat first
    [ apply proc_ok_ret
    | apply proc_ok_step; intros ?; split_and!;
        [ unfold applyBucket, applyCheck, applyDashboard, applyLabel, applyVariable,
            applyNotificationEndpoint, applyNotificationRule; calls_tac
        | unfold applyBucket, applyCheck, applyDashboard, applyLabel, applyVariable,
            applyNotificationEndpoint, applyNotificationRule; sizes_tac
        | ]
    | rewrite bind_val
    | progress cbn [val ret]
    | match goal with
      | |- proc_ok (val (match ?x with _ => _ end _)) => destruct x
      | |- proc_ok (val (if ?x then _ else _)) => destruct x
      | |- proc_ok (val ((if ?x then _ else _) _)) => destruct x
      | |- proc_ok (match ?x with _ => _ end) => destruct x
      | |- proc_ok (if ?x then _ else _) => destruct x
      end ].

Lemma applyBuckets_unit_ok i o u : proc_ok (applyBuckets_unit svc i o u).
Proof. unfold applyBuckets_unit. proc_tac. Qed.

Lemma applyChecks_unit_ok i o u : proc_ok (applyChecks_unit svc i o u).
Proof. unfold applyChecks_unit. proc_tac. Qed.

Lemma applyDashboards_unit_ok i o u : proc_ok (applyDashboards_unit svc i o u).
Proof. unfold applyDashboards_unit. proc_tac. Qed.

Lemma applyLabels_unit_ok i o u : proc_ok (applyLabels_unit svc i o u).
Proof. unfold applyLabels_unit. proc_tac. Qed.

Lemma applyVariables_unit_ok i o u : proc_ok (applyVariables_unit svc i o u).
Proof. unfold applyVariables_unit. proc_tac. Qed.

Lemma applyNotificationEndpoints_unit_ok i o u :
  proc_ok (applyNotificationEndpoints_unit svc i o u).
Proof. unfold applyNotificationEndpoints_unit. proc_tac. Qed.

Lemma applyNotificationRules_unit_ok i o u :
  proc_ok (applyNotificationRules_unit svc i o u).
Proof. unfold applyNotificationRules_unit. proc_tac. Qed.

Lemma applySecrets_unit_ok m i o u : proc_ok (applySecrets_unit svc m i o u).
Proof. unfold applySecrets_unit. proc_tac. Qed.

Lemma applyTasks_unit_ok i o u : proc_ok (applyTasks_unit svc i o u).
Proof. unfold applyTasks_unit. proc_tac. Qed.

Lemma applyTelegrafs_unit_ok i o u : proc_ok (applyTelegrafs_unit svc i o u).
Proof. unfold applyTelegrafs_unit. proc_tac. Qed.

Lemma applyLabelMappings_unit_ok l i o u : proc_ok (applyLabelMappings_unit svc l i o u).
Proof. unfold applyLabelMappings_unit. proc_tac. Qed.

(** ** The goroutines of a tier *)

Lemma omap_work_start r i l : omap unit_start (map (CWork r i) l) = [].
Proof. induction l; [done|]. done. Qed.

Lemma omap_work_end r i l : omap unit_end (map (CWork r i) l) = [].
Proof. induction l; [done|]. done. Qed.





Lemma prefix_of_app {A} (pre suf l1 l2 : list A) :
  l1 ++ l2 = pre ++ suf →
  (∃ rest, l1 = pre ++ rest) ∨ (∃ pre', pre = l1 ++ pre' ∧ l2 = pre' ++ suf).
Proof.
  intros H. apply app_eq_app in H as [l [[-> ->]|[-> ->]]]; eauto.
Qed.




















(** ** The units run one after the other

    The sequential code of the appliers is the run in which every goroutine
    returns before the next is started. *)

Lemma Res_ext {A} (a b : @Res W A) :
  val a = val b → st a = st b → evs a = evs b → a = b.
Proof. destruct a, b. cbn. by intros -> -> ->. Qed.

Lemma proc_run_step (m : @M W Proc) s :
  proc_run (PStep m) s = bind m proc_run s.
Proof. cbn [proc_run]. unfold bind. by destruct (m s). Qed.

Lemma bind_ret_l {A B} (a : A) (k : A → @M W B) s : bind (ret a) k s = k a s.
Proof. apply Res_ext; reflexivity. Qed.

Lemma bind_assoc {A B C} (m : @M W A) (k : A → M B) (h : B → M C) s :
  bind (bind m k) h s = bind m (fun a => bind (k a) h) s.
Proof.
  apply Res_ext; rewrite ?bind_val, ?bind_st, ?bind_evs, ?app_assoc; reflexivity.
Qed.

Lemma bind_ext {A B} (m : @M W A) (k k' : A → M B) s :
  (∀ a s', k a s' = k' a s') → bind m k s = bind m k' s.
Proof. intros H. unfold bind. by rewrite H. Qed.

Ltac run_tac :=
  repeat first
    [ rewrite proc_run_step
    | rewrite bind_assoc
    | rewrite bind_ret_l
    | reflexivity
    | apply bind_ext; intros ? ?
    | match goal with
      | |- context [match ?x with _ => _ end] => destruct x
      end ].

Lemma applyBuckets_unit_run i o u s :
  proc_run (applyBuckets_unit svc i o u) s = applyBuckets_createFn svc i o u s.
Proof. unfold applyBuckets_unit, applyBuckets_createFn. run_tac. Qed.

Lemma applyChecks_unit_run i o u s :
  proc_run (applyChecks_unit svc i o u) s = applyChecks_createFn svc i o u s.
Proof. unfold applyChecks_unit, applyChecks_createFn. run_tac. Qed.

Lemma applyDashboards_unit_run i o u s :
  proc_run (applyDashboards_unit svc i o u) s = applyDashboards_createFn svc i o u s.
Proof. unfold applyDashboards_unit, applyDashboards_createFn. run_tac. Qed.

Lemma applyLabels_unit_run i o u s :
  proc_run (applyLabels_unit svc i o u) s = applyLabels_createFn svc i o u s.
Proof. unfold applyLabels_unit, applyLabels_createFn. run_tac. Qed.

Lemma applyVariables_unit_run i o u s :
  proc_run (applyVariables_unit svc i o u) s = applyVariables_createFn svc i o u s.
Proof. unfold applyVariables_unit, applyVariables_createFn. run_tac. Qed.

Lemma applyNotificationEndpoints_unit_run i o u s :
  proc_run (applyNotificationEndpoints_unit svc i o u) s = applyNotificationEndpoints_createFn svc i o u s.
Proof. unfold applyNotificationEndpoints_unit, applyNotificationEndpoints_createFn. run_tac. Qed.

Lemma applyNotificationRules_unit_run i o u s :
  proc_run (applyNotificationRules_unit svc i o u) s = applyNotificationRules_createFn svc i o u s.
Proof. unfold applyNotificationRules_unit, applyNotificationRules_createFn. run_tac. Qed.

Lemma applyTasks_unit_run i o u s :
  proc_run (applyTasks_unit svc i o u) s = applyTasks_createFn svc i o u s.
Proof. unfold applyTasks_unit, applyTasks_createFn. run_tac. Qed.

Lemma applyTelegrafs_unit_run i o u s :
  proc_run (applyTelegrafs_unit svc i o u) s = applyTelegrafs_createFn svc i o u s.
Proof. unfold applyTelegrafs_unit, applyTelegrafs_createFn. run_tac. Qed.

Lemma applySecrets_unit_run x i o u s :
  proc_run (applySecrets_unit svc x i o u) s = applySecrets_createFn svc x i o u s.
Proof. unfold applySecrets_unit, applySecrets_createFn. run_tac. Qed.

Lemma applyLabelMappings_unit_run x i o u s :
  proc_run (applyLabelMappings_unit svc x i o u) s = applyLabelMappings_createFn svc x i o u s.
Proof. unfold applyLabelMappings_unit, applyLabelMappings_createFn. run_tac. Qed.


Lemma strip_lift (l : list Event) : omap strip (map CEv l) = l.
Proof. induction l as [|e l IH]; [done|]. cbn. by rewrite IH. Qed.

Lemma strip_work r i (l : list Event) : omap strip (map (CWork r i) l) = l.
Proof. induction l as [|e l IH]; [done|]. cbn. by rewrite IH. Qed.

(** A goroutine alone in flight runs to its return. *)
Lemma tier_run_unit limit r i (c : @Proc W) (Hok : proc_ok c) :
  ∀ todo msgs s tr msgs' s',
    tier_run limit todo []
      (msgs ++ match val (proc_run c s) with Some e => [mkErrMsg r e] | None => [] end)
      (st (proc_run c s)) tr msgs' s' →
    ∃ w, tier_run limit todo [mkGo r i c] msgs s
           (w ++ CUnitEnd r i (bool_decide (is_Some (val (proc_run c s)))) :: tr) msgs' s'
         ∧ omap strip w = evs (proc_run c s).
Proof.
  revert c Hok. fix IH 2. intros c [x | m Hm] todo msgs s tr msgs' s' H.
  - exists []. split; [|done]. cbn [List.app proc_run val ret].
    by eapply (tier_return limit 0 (mkGo r i (PRet x))).
  - rewrite proc_run_step in *. rewrite bind_val, bind_st in H.
    destruct (Hm s) as (_ & _ & Hp).
    destruct (IH _ Hp _ _ _ _ _ _ H) as (w & Hw & Hs).
    exists (map (CWork r i) (evs (m s)) ++ w). split.
    + rewrite <- app_assoc, bind_val.
      by eapply (tier_step limit 0 (mkGo r i (PStep m))).
    + by rewrite omap_app, Hs, bind_evs, strip_work.
Qed.

Lemma tier_run_entries limit o u (c : @capplier W) (a : @applier W) :
  0 < limit → runs_as c a →
  ∀ idxs todo msgs s tr msgs' s',
    Forall (fun i => i < c_entries c) idxs →
    tier_run limit todo [] (msgs ++ val (runEntries a o u idxs s))
      (st (runEntries a o u idxs s)) tr msgs' s' →
    ∃ w, tier_run limit
           (map (fun i => mkGo (resource (c_rollbacker c)) i (c_unit c i o u)) idxs ++ todo)
           [] msgs s (w ++ tr) msgs' s'
         ∧ omap strip w = evs (runEntries a o u idxs s).
Proof.
  intros Hl (_ & Hrb & Hok & Hrun).
  induction idxs as [|i idxs IH]; intros todo msgs s tr msgs' s' Hi H.
  - exists []. split; [|done]. cbn in H |- *. by rewrite app_nil_r in H.
  - apply Forall_cons in Hi as [Hi His].
    cbn [runEntries] in H |- *.
    rewrite !bind_val, !bind_st, !bind_evs in *.
    cbn [emit val st evs ret] in *. rewrite <- (Hrun i o u s Hi), <- Hrb in *.
    set (y := proc_run (c_unit c i o u) s) in *.
    destruct (IH todo
                (msgs ++ match val y with
                         | Some e => [mkErrMsg (resource (c_rollbacker c)) e]
                         | None => []
                         end) (st y) tr msgs' s' His) as (w2 & Hw2 & Hs2).
    { rewrite <- app_assoc. by destruct (val y). }
    destruct (tier_run_unit limit (resource (c_rollbacker c)) i _ (Hok i o u)
                _ _ _ _ _ _ Hw2) as (w1 & Hw1 & Hs1).
    exists (CEv (EvUnit (resource (c_rollbacker c)) i)
              :: w1 ++ CUnitEnd (resource (c_rollbacker c)) i (bool_decide (is_Some (val y)))
              :: w2).
    split.
    + cbn [List.app map]. rewrite <- app_assoc. cbn [List.app].
      apply (tier_go limit (mkGo (resource (c_rollbacker c)) i (c_unit c i o u)));
        [cbn; lia | exact Hw1].
    + cbn [omap list_omap strip]. rewrite omap_app. cbn [omap list_omap strip].
      fold (omap strip w2). rewrite Hs1, Hs2, app_nil_r. done.
Qed.

Lemma tier_run_appliers limit o u :
  0 < limit →
  ∀ (capps : list (@capplier W)) (apps : list (@applier W)),
    Forall2 runs_as capps apps →
    ∀ rb todo msgs s tr msgs' s',
      tier_run limit todo [] (msgs ++ (val (runAppliers o u apps rb s)).1)
        (st (runAppliers o u apps rb s)) tr msgs' s' →
      ∃ w, tier_run limit (goroutines o u capps ++ todo) [] msgs s (w ++ tr) msgs' s'
           ∧ omap strip w = evs (runAppliers o u apps rb s)
           ∧ (val (runAppliers o u apps rb s)).2 = rb ++ map c_rollbacker capps.
Proof.
  intros Hl capps apps H2.
  induction H2 as [|c a capps apps Hca _ IH]; intros rb todo msgs s tr msgs' s' H.
  - exists []. cbn in H |- *. rewrite ?app_nil_r in *. done.
  - cbn [runAppliers] in H |- *.
    rewrite !bind_val, !bind_st, !bind_evs in *. cbn [val st evs ret fst snd] in *.
    set (y := runEntries a o u (seq 0 (entries (app_creater a))) s) in *.
    rewrite app_assoc in H.
    destruct (IH _ _ _ _ _ _ _ H) as (w2 & Hw2 & Hs2 & Hr2).
    assert (Hi : Forall (fun i => i < c_entries c) (seq 0 (entries (app_creater a)))).
    { destruct Hca as (-> & _). apply Forall_forall. intros i Hi%elem_of_seq. lia. }
    destruct (tier_run_entries limit o u c a Hl Hca _ _ _ _ _ _ _ Hi Hw2)
      as (w1 & Hw1 & Hs1).
    exists (w1 ++ w2). split_and!.
    + unfold goroutines in *. cbn [flat_map]. rewrite <- !app_assoc.
      destruct Hca as (-> & _). exact Hw1.
    + by rewrite omap_app, Hs1, Hs2, app_nil_r.
    + rewrite Hr2. destruct Hca as (_ & <- & _). cbn [map]. by rewrite <- app_assoc.
Qed.

Lemma runs_as_apps (capps : list (@capplier W)) (apps : list (@applier W)) :
  Forall2 runs_as capps apps → ctier_apps capps = tier_apps apps.
Proof.
  induction 1 as [|c a capps apps (He & Hr & _) _ IH]; [done|].
  unfold ctier_apps, tier_apps in *. cbn [map]. by rewrite IH, He, Hr.
Qed.

Lemma seq_run_ret {A} (a : A) : seq_run (W := W) (rret a) (ret a).
Proof. intros s. by exists []. Qed.

Lemma seq_run_lift {A} (m : @M W A) : seq_run (lift m) m.
Proof. intros s. exists (map CEv (evs (m s))). split; [done | apply strip_lift]. Qed.

Lemma seq_run_bind_val {A B} (rm : @RM W A) (rk : A → @RM W B) m k :
  seq_run rm m → (∀ s, seq_run (rk (val (m s))) (k (val (m s)))) →
  seq_run (rbind rm rk) (bind m k).
Proof.
  intros Hm Hk s.
  destruct (Hm s) as (t1 & H1 & E1).
  destruct (Hk s (st (m s))) as (t2 & H2 & E2).
  exists (t1 ++ t2). rewrite bind_val, bind_st, bind_evs, omap_app, E1, E2.
  split; [|done]. by exists (val (m s)), (st (m s)), t1, t2.
Qed.

Lemma seq_run_bind {A B} (rm : @RM W A) (rk : A → @RM W B) m k :
  seq_run rm m → (∀ a, seq_run (rk a) (k a)) → seq_run (rbind rm rk) (bind m k).
Proof. intros Hm Hk. apply seq_run_bind_val; [done|]. intros s. apply Hk. Qed.

(** The sequential tier is the run of [runTilEnd] in which every
    goroutine returns before the next is started. *)
Lemma runTilEnd_seq limit fate o u (capps : list (@capplier W)) apps rb :
  0 < limit → Forall2 runs_as capps apps →
  seq_run (runTilEnd_c limit fate o u capps rb) (runTilEnd fate o u apps rb).
Proof.
  intros Hl H2 s. unfold runTilEnd.
  rewrite !bind_val, !bind_st, !bind_evs. cbn [emit ret val st evs].
  set (y := runAppliers o u apps rb s).
  destruct (tier_run_appliers limit o u Hl capps apps H2 rb [] [] s [] (val y).1 (st y))
    as (w & Hw & Hs & Hr).
  { cbn [List.app]. apply tier_wait. }
  rewrite !app_nil_r in Hw. fold y in Hs, Hr.
  eexists. split.
  - exists w, (val y).1. split; [exact Hw|]. split; [|reflexivity].
    by rewrite Hr.
  - rewrite omap_app, Hs, (runs_as_apps _ _ H2). reflexivity.
Qed.

Lemma runGroups_seq limit fate o u :
  0 < limit →
  ∀ (cgroups : list (list (@capplier W))) groups,
    Forall2 (Forall2 runs_as) cgroups groups →
    ∀ k rb,
      seq_run (runGroups_c limit fate k o u cgroups rb) (runGroups fate k o u groups rb).
Proof.
  intros Hl cgroups groups H2.
  induction H2 as [|cg g cgroups groups Hg _ IH]; intros k rb; cbn [runGroups_c runGroups].
  - apply seq_run_ret.
  - apply seq_run_bind; [by apply runTilEnd_seq|].
    intros r. destruct r.1; [apply seq_run_ret | apply IH].
Qed.

Lemma with_units_runs_as (a : @applier W) unit :
  (∀ i o u, proc_ok (unit i o u)) →
  (∀ i o u s, i < entries (app_creater a) →
     proc_run (unit i o u) s = creater_fn (app_creater a) i o u s) →
  runs_as (with_units a unit) a.
Proof. intros Hok Hrun. split_and!; done. Qed.

(** The sequential body is a run of the body with goroutines. *)
Lemma Apply_body_seq limit fate o u opt :
  0 < limit →
  seq_run (Apply_body_c svc limit fate o u opt) (Apply_body svc fate o u opt).
Proof.
  intros Hl. unfold Apply_body_c, Apply_body.
  apply seq_run_bind; [apply seq_run_lift|]. intros _.
  apply seq_run_bind; [apply seq_run_lift|]. intros p. cbv zeta.
  apply seq_run_bind.
  { apply runGroups_seq; [done|].
    repeat first [apply Forall2_nil_2 | apply Forall2_cons_2];
      apply with_units_runs_as;
      auto using applySecrets_unit_ok, applyLabels_unit_ok, applyVariables_unit_ok,
        applyBuckets_unit_ok, applyChecks_unit_ok, applyDashboards_unit_ok,
        applyNotificationEndpoints_unit_ok, applyTasks_unit_ok, applyTelegrafs_unit_ok;
      intros i o' u' s Hi;
      first [ apply applyLabels_unit_run | apply applyVariables_unit_run
            | apply applyBuckets_unit_run | apply applyChecks_unit_run
            | apply applyDashboards_unit_run | apply applyNotificationEndpoints_unit_run
            | apply applyTasks_unit_run | apply applyTelegrafs_unit_run | idtac ].
    unfold applySecrets in *. destruct (decide _); [cbn in Hi; lia|].
    apply applySecrets_unit_run. }
  intros r. destruct r.1; [apply seq_run_ret|].
  apply seq_run_bind_val; [apply seq_run_lift|]. intros s.
  destruct (val (applyNotificationRulesGenerator svc o s)) as [app|err] eqn:Hg;
    [|apply seq_run_ret].
  apply applyNotificationRulesGenerator_Ok in Hg as [l ->].
  apply seq_run_bind.
  { apply runTilEnd_seq; [done|]. apply Forall2_cons_2; [|apply Forall2_nil_2].
    apply with_units_runs_as; [apply applyNotificationRules_unit_ok|].
    intros; apply applyNotificationRules_unit_run. }
  intros r3. destruct r3.1; [apply seq_run_ret|].
  apply seq_run_bind; [apply seq_run_lift|]. intros p4.
  apply seq_run_bind.
  { apply runTilEnd_seq; [done|]. apply Forall2_cons_2; [|apply Forall2_nil_2].
    apply with_units_runs_as; [apply applyLabelMappings_unit_ok|].
    intros; apply applyLabelMappings_unit_run. }
  intros r4. destruct r4.1; [apply seq_run_ret|].
  apply seq_run_bind; [apply seq_run_lift|]. intros _.
  apply seq_run_bind; [apply seq_run_lift|]. intros p5. apply seq_run_ret.
Qed.

(** The sequential [Apply] is the run of [Apply] with goroutines in which
    every goroutine returns before the next is started: the concurrent
    code has a run from every state, and what is proved of all its runs
    holds of the sequential code. *)
Lemma Apply_seq limit fate o u opts :
  0 < limit →
  seq_run (Apply_c svc limit fate o u opts) (Apply svc fate o u opts).
Proof.
  intros Hl. unfold Apply_c, Apply.
  apply seq_run_bind; [apply seq_run_lift|]. intros [opt|err]; [|apply seq_run_ret].
  unfold Apply_run_c, Apply_run.
  apply seq_run_bind; [by apply Apply_body_seq|]. intros b.
  apply seq_run_bind; [apply seq_run_lift|]. intros _. apply seq_run_ret.
Qed.

(** X11.  The semaphore of the coordinator: at any point of a run of a
    tier at most [limit] goroutines are in flight, counting those in
    flight at the beginning and those started so far, less those that have
    returned. *)
Theorem tier_run_in_flight limit todo running msgs s tr msgs' s' :
  tier_run limit todo running msgs s tr msgs' s' →
  (length running ≤ limit)%nat →
  ∀ pre suf, tr = pre ++ suf →
    (length running + length (omap unit_start pre)
     ≤ limit + length (omap unit_end pre))%nat.
Proof.
  induction 1 as [msgs s
                 |g todo running msgs s tr msgs' s' Hlim Hrun IH
                 |j g m todo running msgs s tr msgs' s' Hj Hcode Hrun IH
                 |j g r todo running msgs s tr msgs' s' Hj Hcode Hrun IH];
    intros Hlen pre suf Hp.
  - symmetry in Hp. apply app_eq_nil in Hp as [-> ->]. cbn. lia.
  - destruct pre as [|e pre]; [cbn; lia|].
    cbn in Hp. injection Hp as <- Hp.
    rewrite length_app in IH. cbn [length] in IH.
    specialize (IH ltac:(lia) pre suf Hp). cbn. lia.
  - rewrite length_insert in IH.
    apply prefix_of_app in Hp as [[rest Hrest]|(pre' & -> & Hp)].
    + apply fmap_app_inv in Hrest as (l1 & l2 & -> & -> & _).
      rewrite omap_work_start, omap_work_end. cbn. lia.
    + specialize (IH Hlen pre' suf Hp).
      by rewrite !omap_app, omap_work_start, omap_work_end.
  - pose proof (lookup_lt_Some _ _ _ Hj) as Hlt.
    rewrite length_delete in IH by eauto.
    destruct pre as [|e pre]; [cbn; lia|].
    cbn in Hp. injection Hp as <- Hp.
    specialize (IH ltac:(lia) pre suf Hp). cbn. lia.
Qed.
End Tiers.

(** ** The tiers at work *)

(** Two goroutines in flight at once: the second is started before the
    first has returned, and returns first. *)
Example tier_run_overlap (s : @St World) :
  tier_run 5 [mkGo "label" 0 (PRet None); mkGo "label" 1 (PRet None)] [] [] s
    [CEv (EvUnit "label" 0); CEv (EvUnit "label" 1);
     CUnitEnd "label" 1 false; CUnitEnd "label" 0 false] [] s.
Proof.
  apply tier_go; [cbn; lia|]. apply tier_go; [cbn; lia|]. cbn [List.app].
  eapply (tier_return 5 1 (mkGo "label" 1 (PRet None)) None); [reflexivity..|].
  eapply (tier_return 5 0 (mkGo "label" 0 (PRet None)) None); [reflexivity..|].
  apply tier_wait.
Qed.



(** ** The sequential code among the runs *)

Section Schedules.
Context {W : Type} (svc : ∀ c : Call, W → Resp c * W) `{D : Decls}.

(** X10.  With room for at least one goroutine in flight, [Apply] with
    its goroutines has a run from every state: the one in which every
    goroutine returns before the next is started.  It ends with the value
    and the state of the sequential code and leaves, the returns of the
    goroutines apart, the same events in the same order. *)
Theorem Apply_sequential_schedule limit fate orgID userID opts (s : @St W) :
  0 < limit →
  let R := Apply svc fate orgID userID opts s in
  ∃ tr, Apply_c svc limit fate orgID userID opts s (val R) (st R) tr
        ∧ omap strip tr = evs R.
Proof. intros Hl. exact (Apply_seq svc limit fate orgID userID opts Hl s). Qed.

End Schedules.

(** X10 at work on scenario S2 with [applyReqLimit] = 5. *)
Lemma Apply_sequential_schedule_witness :
  let R := Apply svc (D := decls) live orgID userID [] (start s2_world s2_pkg) in
  ∃ tr, Apply_c svc (D := decls) 5 live orgID userID [] (start s2_world s2_pkg)
          (val R) (st R) tr
        ∧ omap strip tr = evs R.
Proof.
  apply (Apply_sequential_schedule svc (D := decls) 5 live orgID userID []
           (start s2_world s2_pkg)).
  lia.
Defined.

(** X11 at work on the run with two goroutines in flight. *)
Lemma tier_run_in_flight_witness :
  let pre := [CEv (EvUnit "label" 0); CEv (EvUnit "label" 1)] in
  (length ([] : list (@goroutine World)) + length (omap unit_start pre)
   ≤ 5 + length (omap unit_end pre))%nat.
Proof.
  apply (tier_run_in_flight 5 _ _ _ _ _ _ _ (tier_run_overlap (start s2_world s2_pkg))
           ltac:(cbn; lia) _ [CUnitEnd "label" 1 false; CUnitEnd "label" 0 false]).
  reflexivity.
Defined.
